(** * Vectorised function execution core: dateDiff, isNotNull, arrayConcat,
      arrayPopFront / arrayPopBack

    A shallow embedding of the [executeImpl] bodies of
    [dbms/src/Functions/dateDiff.cpp], [dbms/src/Functions/arrayConcat.cpp],
    [dbms/src/Functions/arrayPop.h] and of the [isNotNull] function, over a
    small model of blocks and columns, followed by the properties proved
    about them. *)

From Stdlib Require Import ZArith String Ascii Lia.
From stdpp Require Import base list strings.

Local Open Scope Z_scope.
Local Open Scope nat_scope.

(** ** Outcomes of a call

    A call either returns, throws a [DB::Exception] (message and code), or
    steps outside what C++ defines (unchecked indexing out of range, a null
    [ColumnPtr] dereferenced).  The last outcome is kept apart so that no
    theorem silently relies on it. *)

Inductive ErrorCode : Set :=
  | ILLEGAL_COLUMN
  | BAD_ARGUMENTS
  | LOGICAL_ERROR
  | BAD_CAST
  | ILLEGAL_TYPE_OF_ARGUMENT
  | NUMBER_OF_ARGUMENTS_DOESNT_MATCH.

Record Exception : Set := mkException { message : string; code : ErrorCode }.

Inductive Result (A : Type) : Type :=
  | Ok (a : A)
  | Throw (e : Exception)
  | Undefined.

Arguments Ok {A} a.
Arguments Throw {A} e.
Arguments Undefined {A}.

#[global] Instance Result_ret : MRet Result := fun _ a => Ok a.
#[global] Instance Result_bind : MBind Result := fun _ _ f r =>
  match r with
  | Ok a => f a
  | Throw e => Throw e
  | Undefined => Undefined
  end.

(** Unchecked [operator[]] of a container. *)
Definition at_index {A : Type} (l : list A) (i : nat) : Result A :=
  match l !! i with
  | Some a => Ok a
  | None => Undefined
  end.

(** Unchecked [container[i] = v]. *)
Definition store {A : Type} (l : list A) (i : nat) (v : A) : Result (list A) :=
  if decide (i < length l) then Ok (<[i := v]> l) else Undefined.

(** ** Columns *)

(** Modelled from the spec: a value held by a column ([Field], declared
    outside the files at hand). *)
#[local] Unset Elimination Schemes.
Inductive Field : Type :=
  | Null
  | UInt64 (v : Z)
  | Int64F (v : Z)
  | StringF (s : string)
  | ArrayF (a : list Field).
#[local] Set Elimination Schemes.

(** Modelled from the spec: the column classes of [Columns/], declared
    outside the files at hand.  A vector owns a dense sequence of values
    ([ColumnVector<T>], as integers in the range of [T]; [ColumnString]);
    an array column owns the cumulative end offsets, one per row, and the
    flat nested data, kept as the sequence of its values; a constant is
    one value, held in a data column, replicated to a declared length; a
    nullable column wraps a column and its null map, one byte per row. *)
Inductive Column : Type :=
  | ColumnNothing (s : nat)
  | ColumnUInt8 (data : list Z)
  | ColumnUInt16 (data : list Z)
  | ColumnUInt32 (data : list Z)
  | ColumnInt64 (data : list Z)
  | ColumnString (data : list string)
  | ColumnArray (data : list Field) (offsets : list nat)
  | ColumnNullable (nested : Column) (null_map : list Z)
  | ColumnConst (data : Column) (s : nat).

(** Modelled from the spec: [IColumn::size], the row count of a column. *)
Fixpoint size (c : Column) : nat :=
  match c with
  | ColumnNothing s => s
  | ColumnUInt8 d | ColumnUInt16 d | ColumnUInt32 d | ColumnInt64 d => length d
  | ColumnString d => length d
  | ColumnArray _ offsets => length offsets
  | ColumnNullable nested _ => size nested
  | ColumnConst _ s => s
  end.

(** Modelled from the spec: [IColumn::isColumnNullable], true of the
    Nullable variant only. *)
Definition isColumnNullable (c : Column) : bool :=
  match c with ColumnNullable _ _ => true | _ => false end.

(** Modelled from the spec: [IColumn::isColumnConst], true of the
    Constant variant only. *)
Definition isColumnConst (c : Column) : bool :=
  match c with ColumnConst _ _ => true | _ => false end.

(** ** Data types *)

(** Modelled from the spec: the type of a block entry ([IDataType] and
    its subclasses, declared outside the files at hand), over the types
    the functions can meet; [Date] is stored as [UInt16], [DateTime] as
    [UInt32]. *)
Inductive DataType : Set :=
  | DataTypeNothing
  | DataTypeUInt8
  | DataTypeDate
  | DataTypeDateTime
  | DataTypeInt64
  | DataTypeString
  | DataTypeArray (nested : DataType)
  | DataTypeNullable (nested : DataType).

#[global] Instance DataType_eq_dec : EqDecision DataType.
Proof. solve_decision. Defined.

(** Modelled from the spec: [IDataType::equals]. *)
Definition equals (a b : DataType) : bool := bool_decide (a = b).

(** Modelled from the spec: [IDataType::onlyNull]; only
    [Nullable(Nothing)] holds nothing but NULL. *)
Definition onlyNull (t : DataType) : bool :=
  match t with
  | DataTypeNullable DataTypeNothing => true
  | _ => false
  end.

(** Modelled from the spec: [IDataType::createColumn], the empty column
    of the type. *)
Fixpoint createColumn (t : DataType) : Column :=
  match t with
  | DataTypeNothing => ColumnNothing 0
  | DataTypeUInt8 => ColumnUInt8 []
  | DataTypeDate => ColumnUInt16 []
  | DataTypeDateTime => ColumnUInt32 []
  | DataTypeInt64 => ColumnInt64 []
  | DataTypeString => ColumnString []
  | DataTypeArray _ => ColumnArray [] []
  | DataTypeNullable n => ColumnNullable (createColumn n) []
  end.

(** Modelled from the spec: the data column of a constant holding the
    default value of the type: one row, the default. *)
Fixpoint defaultColumn (t : DataType) : Column :=
  match t with
  | DataTypeNothing => ColumnNothing 1
  | DataTypeUInt8 => ColumnUInt8 [0%Z]
  | DataTypeDate => ColumnUInt16 [0%Z]
  | DataTypeDateTime => ColumnUInt32 [0%Z]
  | DataTypeInt64 => ColumnInt64 [0%Z]
  | DataTypeString => ColumnString [EmptyString]
  | DataTypeArray _ => ColumnArray [] [0]
  | DataTypeNullable n => ColumnNullable (defaultColumn n) [1%Z]
  end.

(** Modelled from the spec: [DataTypeUInt8().createColumnConst(size, v)],
    the value [v] replicated to the declared length. *)
Definition createColumnConst_UInt8 (s : nat) (v : Z) : Column :=
  ColumnConst (ColumnUInt8 [v]) s.

(** Modelled from the spec:
    [IDataType::createColumnConstWithDefaultValue(size)], the default
    value of the type replicated to the declared length. *)
Definition createColumnConstWithDefaultValue (t : DataType) (s : nat) : Column :=
  ColumnConst (defaultColumn t) s.

(** ** Blocks *)

(** Modelled from the spec: a block is the ordered sequence of its
    (name, type, column) entries ([Core/Block.h], declared outside the
    files at hand); [column] is a [ColumnPtr], which may be null (the
    result entry before the call). *)
Record ColumnWithTypeAndName : Type := mkEntry {
  column : option Column;
  type : DataType;
  name : string
}.

Abbreviation Block := (list ColumnWithTypeAndName) (only parsing).
Abbreviation ColumnNumbers := (list nat) (only parsing).

(** ** Calls: state passing over the block, with exceptions *)

Definition M (A : Type) : Type := Block -> Result A * Block.

#[global] Instance M_ret : MRet M := fun _ a b => (Ok a, b).
#[global] Instance M_bind : MBind M := fun _ _ f m b =>
  match m b with
  | (Ok a, b') => f a b'
  | (Throw e, b') => (Throw e, b')
  | (Undefined, b') => (Undefined, b')
  end.

Definition throw {A : Type} (msg : string) (c : ErrorCode) : M A :=
  fun b => (Throw (mkException msg c), b).

Definition lift {A : Type} (r : Result A) : M A := fun b => (r, b).

(** Modelled from the spec: [block.getByPosition(position)], the entry
    at a position, unchecked. *)
Definition getByPosition (position : nat) : M ColumnWithTypeAndName :=
  fun b => (at_index b position, b).

(** [*entry.column] *)
Definition deref (p : option Column) : M Column :=
  match p with
  | Some c => mret c
  | None => lift Undefined
  end.

(** [block.getByPosition(position).column = std::move(c)] *)
Definition setColumn (position : nat) (c : Column) : M unit :=
  fun b =>
    match b !! position with
    | Some e => (Ok tt, <[position := mkEntry (Some c) (type e) (name e)]> b)
    | None => (Undefined, b)
    end.

(** ** Strings *)

(** Modelled from the spec: the case folding of the unit string,
    [Poco::toLower], which folds the ASCII capitals and nothing else. *)
Definition Ascii_toLower (c : ascii) : ascii :=
  let n := nat_of_ascii c in
  if (65 <=? n) && (n <=? 90) then ascii_of_nat (n + 32) else c.

(** Modelled from the spec: [Poco::toLower] folds each character. *)
Fixpoint toLower (s : string) : string :=
  match s with
  | EmptyString => EmptyString
  | String c s' => String (Ascii_toLower c) (toLower s')
  end.

(** [haystack] contains [needle] as a contiguous run of characters. *)
Fixpoint contains (needle haystack : string) : bool :=
  String.prefix needle haystack ||
  match haystack with
  | EmptyString => false
  | String _ rest => contains needle rest
  end.

(** ** 64-bit signed arithmetic *)

Definition Int64 (v : Z) : Z := ((v + 2 ^ 63) mod 2 ^ 64 - 2 ^ 63)%Z.
Definition Int64_sub (a b : Z) : Z := Int64 (a - b).
Definition Int64_neg (a : Z) : Z := Int64 (- a).

(** ** dateDiff *)

Module DateDiff.

Definition getName : string := "dateDiff".

Definition useDefaultImplementationForConstants : bool := true.
Definition getArgumentsThatAreAlwaysConstant : ColumnNumbers := [0; 3].

(** The two temporal encodings: [UInt16] day numbers ([Date]) and
    [UInt32] timestamps ([DateTime]). *)
Inductive Encoding : Set := UInt16 | UInt32.

(** Modelled from the spec: [checkAndGetColumn<ColumnUInt16>] and
    [checkAndGetColumn<ColumnUInt32>] of [Functions/FunctionHelpers.h],
    tried in this order: the encoding and the data of a vector column of
    one of the two. *)
Definition checkAndGetColumn (c : Column) : option (Encoding * list Z) :=
  match c with
  | ColumnUInt16 d => Some (UInt16, d)
  | ColumnUInt32 d => Some (UInt32, d)
  | _ => None
  end.

(** Modelled from the spec: [checkAndGetColumnConst<ColumnUInt16>] and
    [checkAndGetColumnConst<ColumnUInt32>], tried in this order: a
    constant whose data column is a vector of one of the two. *)
Definition checkAndGetColumnConst (c : Column) : option (Encoding * list Z) :=
  match c with
  | ColumnConst (ColumnUInt16 d) _ => Some (UInt16, d)
  | ColumnConst (ColumnUInt32 d) _ => Some (UInt32, d)
  | _ => None
  end.

(** Modelled from the spec: [checkAndGetColumnConst<ColumnString>], a
    constant whose data column is a string column. *)
Definition checkAndGetColumnConst_String (c : Column) : option (list string) :=
  match c with
  | ColumnConst (ColumnString d) _ => Some d
  | _ => None
  end.

(** Modelled from the spec: [ColumnConst::getValue<T>()], the one value
    of the constant: the first of its data column. *)
Definition getValue {A : Type} (d : list A) : Result A := at_index d 0.

Section WithTransforms.

(** [DateLUTImpl], the transforms of [DateTimeTransforms.h] and
    [extractTimeZoneFromFunctionArguments] are declared outside the files
    at hand.  A transform has one [execute] per encoding and returns an
    integer; the time zone extraction reads the block and may throw. *)
Variable DateLUTImpl : Type.

Record Transform : Type := mkTransform {
  execute_UInt16 : Z -> DateLUTImpl -> Z;
  execute_UInt32 : Z -> DateLUTImpl -> Z
}.

Definition execute (T : Transform) (e : Encoding) (v : Z) (tz : DateLUTImpl) : Z :=
  match e with
  | UInt16 => execute_UInt16 T v tz
  | UInt32 => execute_UInt32 T v tz
  end.

Variables ToRelativeYearNumImpl ToRelativeQuarterNumImpl
  ToRelativeMonthNumImpl ToRelativeWeekNumImpl ToRelativeDayNumImpl
  ToRelativeHourNumImpl ToRelativeMinuteNumImpl
  ToRelativeSecondNumImpl : Transform.

Variable extractTimeZoneFromFunctionArguments :
  Block -> ColumnNumbers -> nat -> nat -> Result DateLUTImpl.

(** [ColumnInt64::create(rows)] allocates without initialising: cell [i]
    starts with some value [uninitialized i]. *)
Variable uninitialized : nat -> Z.

Definition ColumnInt64_create (rows : nat) : list Z :=
  map uninitialized (seq 0 rows).

Definition calculate (T : Transform) (e1 e2 : Encoding) (x y : Z)
    (timezone_x timezone_y : DateLUTImpl) : Z :=
  Int64_sub (Int64 (execute T e2 y timezone_y))
            (Int64 (execute T e1 x timezone_x)).

(** The three loops, [for (size_t i = 0; i < size; ++i)], with [n] the
    number of iterations left. *)
Fixpoint vector_vector_loop (T : Transform) (e1 e2 : Encoding)
    (x_data y_data : list Z) (timezone_x timezone_y : DateLUTImpl)
    (n i : nat) (result : list Z) : Result (list Z) :=
  match n with
  | 0 => Ok result
  | S n' =>
      xi ← at_index x_data i;
      yi ← at_index y_data i;
      result' ← store result i (calculate T e1 e2 xi yi timezone_x timezone_y);
      vector_vector_loop T e1 e2 x_data y_data timezone_x timezone_y n' (S i) result'
  end.

Definition vector_vector (T : Transform) (e1 e2 : Encoding)
    (x y : list Z) (timezone_x timezone_y : DateLUTImpl)
    (result : list Z) : Result (list Z) :=
  vector_vector_loop T e1 e2 x y timezone_x timezone_y (length x) 0 result.

Fixpoint vector_constant_loop (T : Transform) (e1 e2 : Encoding)
    (x_data : list Z) (y : Z) (timezone_x timezone_y : DateLUTImpl)
    (n i : nat) (result : list Z) : Result (list Z) :=
  match n with
  | 0 => Ok result
  | S n' =>
      xi ← at_index x_data i;
      result' ← store result i (calculate T e1 e2 xi y timezone_x timezone_y);
      vector_constant_loop T e1 e2 x_data y timezone_x timezone_y n' (S i) result'
  end.

Definition vector_constant (T : Transform) (e1 e2 : Encoding)
    (x : list Z) (y : Z) (timezone_x timezone_y : DateLUTImpl)
    (result : list Z) : Result (list Z) :=
  vector_constant_loop T e1 e2 x y timezone_x timezone_y (length x) 0 result.

Fixpoint constant_vector_loop (T : Transform) (e1 e2 : Encoding)
    (x : Z) (y_data : list Z) (timezone_x timezone_y : DateLUTImpl)
    (n i : nat) (result : list Z) : Result (list Z) :=
  match n with
  | 0 => Ok result
  | S n' =>
      yi ← at_index y_data i;
      result' ← store result i (calculate T e1 e2 x yi timezone_x timezone_y);
      constant_vector_loop T e1 e2 x y_data timezone_x timezone_y n' (S i) result'
  end.

Definition constant_vector (T : Transform) (e1 e2 : Encoding)
    (x : Z) (y : list Z) (timezone_x timezone_y : DateLUTImpl)
    (result : list Z) : Result (list Z) :=
  constant_vector_loop T e1 e2 x y timezone_x timezone_y (length y) 0 result.

Definition illegal_second : Exception :=
  mkException
    ("Illegal column for second argument of function " +:+ getName
       +:+ ", must be Date or DateTime")
    ILLEGAL_COLUMN.

Definition illegal_first : Exception :=
  mkException
    ("Illegal column for first argument of function " +:+ getName
       +:+ ", must be Date or DateTime")
    ILLEGAL_COLUMN.

Definition dispatchForSecondColumn (T : Transform) (e1 : Encoding)
    (x : list Z) (y : Column) (timezone_x timezone_y : DateLUTImpl)
    (result : list Z) : Result (list Z) :=
  match checkAndGetColumn y with
  | Some (e2, y_vec) =>
      vector_vector T e1 e2 x y_vec timezone_x timezone_y result
  | None =>
      match checkAndGetColumnConst y with
      | Some (e2, y_const) =>
          v ← getValue y_const;
          vector_constant T e1 e2 x v timezone_x timezone_y result
      | None => Throw illegal_second
      end
  end.

Definition dispatchConstForSecondColumn (T : Transform) (e1 : Encoding)
    (x : Z) (y : Column) (timezone_x timezone_y : DateLUTImpl)
    (result : list Z) : Result (list Z) :=
  match checkAndGetColumn y with
  | Some (e2, y_vec) =>
      constant_vector T e1 e2 x y_vec timezone_x timezone_y result
  | None => Throw illegal_second
  end.

Definition dispatchForColumns (T : Transform) (x y : Column)
    (timezone_x timezone_y : DateLUTImpl) (result : list Z) : Result (list Z) :=
  match checkAndGetColumn x with
  | Some (e1, x_vec) =>
      dispatchForSecondColumn T e1 x_vec y timezone_x timezone_y result
  | None =>
      match checkAndGetColumnConst x with
      | Some (e1, x_const) =>
          v ← getValue x_const;
          dispatchConstForSecondColumn T e1 v y timezone_x timezone_y result
      | None => Throw illegal_first
      end
  end.

(** The chain of comparisons on the case-folded unit: the transform it
    selects, if any. *)
Definition selectTransform (unit : string) : option Transform :=
  if (unit =? "year")%string || (unit =? "yy")%string || (unit =? "yyyy")%string then
    Some ToRelativeYearNumImpl
  else if (unit =? "quarter")%string || (unit =? "qq")%string || (unit =? "q")%string then
    Some ToRelativeQuarterNumImpl
  else if (unit =? "month")%string || (unit =? "mm")%string || (unit =? "m")%string then
    Some ToRelativeMonthNumImpl
  else if (unit =? "week")%string || (unit =? "wk")%string || (unit =? "ww")%string then
    Some ToRelativeWeekNumImpl
  else if (unit =? "day")%string || (unit =? "dd")%string || (unit =? "d")%string then
    Some ToRelativeDayNumImpl
  else if (unit =? "hour")%string || (unit =? "hh")%string then
    Some ToRelativeHourNumImpl
  else if (unit =? "minute")%string || (unit =? "mi")%string || (unit =? "n")%string then
    Some ToRelativeMinuteNumImpl
  else if (unit =? "second")%string || (unit =? "ss")%string || (unit =? "s")%string then
    Some ToRelativeSecondNumImpl
  else None.

Definition executeImpl (arguments : ColumnNumbers) (result : nat)
    (input_rows_count : nat) : M unit :=
  a0 ← lift (at_index arguments 0);
  e0 ← getByPosition a0;
  c0 ← deref (column e0);
  match checkAndGetColumnConst_String c0 with
  | None =>
      throw ("First argument for function " +:+ getName
               +:+ " must be constant String") ILLEGAL_COLUMN
  | Some unit_column =>
      v ← lift (getValue unit_column);
      let unit := toLower v in
      a1 ← lift (at_index arguments 1);
      e1 ← getByPosition a1;
      x ← deref (column e1);
      a2 ← lift (at_index arguments 2);
      e2 ← getByPosition a2;
      y ← deref (column e2);
      let rows := input_rows_count in
      let res := ColumnInt64_create rows in
      timezone_x ← (fun b => (extractTimeZoneFromFunctionArguments b arguments 3 1, b));
      timezone_y ← (fun b => (extractTimeZoneFromFunctionArguments b arguments 3 2, b));
      res' ← match selectTransform unit with
             | Some T =>
                 lift (dispatchForColumns T x y timezone_x timezone_y res)
             | None =>
                 throw ("Function " +:+ getName +:+ " does not support '"
                          +:+ unit +:+ "' unit") BAD_ARGUMENTS
             end;
      setColumn result (ColumnInt64 res')
  end.

End WithTransforms.

End DateDiff.

(** ** isNotNull *)

Module IsNotNull.

Definition getName : string := "isNotNull".

Definition useDefaultImplementationForNulls : bool := false.
Definition useDefaultImplementationForConstants : bool := true.

(** [!v] on a [UInt8]. *)
Definition lnot (v : Z) : Z := if (v =? 0)%Z then 1%Z else 0%Z.

Section WithMemory.

(** [ColumnUInt8::create(n)] allocates without initialising. *)
Variable uninitialized : nat -> Z.

Definition ColumnUInt8_create (n : nat) : list Z :=
  map uninitialized (seq 0 n).

(** [for (size_t i = 0; i < input_rows_count; ++i) res_data[i] = !src_data[i];]
    with [n] the number of iterations left. *)
Fixpoint negate_loop (src_data : list Z) (n i : nat) (res_data : list Z)
    : Result (list Z) :=
  match n with
  | 0 => Ok res_data
  | S n' =>
      s ← at_index src_data i;
      res_data' ← store res_data i (lnot s);
      negate_loop src_data n' (S i) res_data'
  end.

Definition executeImpl (arguments : ColumnNumbers) (result : nat)
    (input_rows_count : nat) : M unit :=
  a0 ← lift (at_index arguments 0);
  elem ← getByPosition a0;
  c ← deref (column elem);
  match c with
  | ColumnNullable _ src_data =>
      let res_column := ColumnUInt8_create input_rows_count in
      res_data ← lift (negate_loop src_data input_rows_count 0 res_column);
      setColumn result (ColumnUInt8 res_data)
  | _ =>
      setColumn result (createColumnConst_UInt8 (size c) 1)
  end.

End WithMemory.

End IsNotNull.

(** ** Array sources, sinks and the gather algorithms *)

Module GatherUtils.

(** Modelled from the spec: the array source of
    [Functions/GatherUtils], which is not among the files at hand.  A
    source is a cursor over the offsets of an array column; a constant
    source serves the single slice of its data column at every row. *)
Record IArraySource : Type := mkSource {
  elements : list Field;
  offsets : list nat;
  is_const : bool;
  total_rows : nat;
  row_num : nat
}.

(** Modelled from the spec: [createArraySource(column, is_const, total_rows)]
    of [Functions/GatherUtils]. *)
Definition createArraySource (data : list Field) (offs : list nat)
    (is_const : bool) (total_rows : nat) : IArraySource :=
  mkSource data offs is_const total_rows 0.

(** Modelled from the spec: the row [r] of an offset-encoded array
    occupies the nested-data indices [offsets[r-1], offsets[r]), with
    [offsets[-1] = 0]; the bounds are reported as (begin, length). *)
Definition bounds (offs : list nat) (r : nat) : Result (nat * nat) :=
  prev ← match r with 0 => Ok 0 | S r' => at_index offs r' end;
  cur ← at_index offs r;
  Ok (prev, cur - prev).

(** Modelled from the spec: the source capability "report the current
    row's slice bounds"; a constant source reports its single fixed
    slice. *)
Definition getWhole (src : IArraySource) : Result (nat * nat) :=
  bounds (offsets src) (if is_const src then 0 else row_num src).

(** Modelled from the spec: the source capability "advance to next row". *)
Definition next (src : IArraySource) : IArraySource :=
  mkSource (elements src) (offsets src) (is_const src) (total_rows src)
           (S (row_num src)).

(** Modelled from the spec: the array sink of [Functions/GatherUtils],
    a builder that accumulates appended slices and finalized row
    boundaries. *)
Record IArraySink : Type := mkSink {
  sink_elements : list Field;
  sink_offsets : list nat;
  sink_rows : nat
}.

(** Modelled from the spec: [createArraySink(column, rows)] of
    [Functions/GatherUtils]. *)
Definition createArraySink (data : list Field) (offs : list nat) (rows : nat)
    : IArraySink :=
  mkSink data offs rows.

(** Modelled from the spec: the sink capability "append a slice copied
    from a source's current row"; the slice has to lie within the source's
    nested data. *)
Definition writeSlice (src : IArraySource) (slice : nat * nat)
    (sink : IArraySink) : Result IArraySink :=
  let '(begin, len) := slice in
  if decide (begin + len <= length (elements src)) then
    Ok (mkSink (sink_elements sink ++ take len (drop begin (elements src)))
               (sink_offsets sink) (sink_rows sink))
  else Undefined.

(** Modelled from the spec: the sink capability "finalize (close) the
    current row's offset boundary". *)
Definition finishRow (sink : IArraySink) : IArraySink :=
  mkSink (sink_elements sink)
         (sink_offsets sink ++ [length (sink_elements sink)])
         (sink_rows sink).

(** The frozen array column handed to the caller. *)
Definition sink_column (sink : IArraySink) : Column :=
  ColumnArray (sink_elements sink) (sink_offsets sink).

(** Modelled from the spec: one output row of the concatenation
    algorithm of [Functions/GatherUtils]: "for each source in argument
    order, if the source is constant use its single fixed slice for every
    row, otherwise advance it to the current row and append its current
    slice". *)
Fixpoint concat_row (sources : list IArraySource) (sink : IArraySink)
    : Result (list IArraySource * IArraySink) :=
  match sources with
  | [] => Ok ([], sink)
  | src :: rest =>
      slice ← getWhole src;
      sink' ← writeSlice src slice sink;
      '(rest', sink'') ← concat_row rest sink';
      Ok (next src :: rest', sink'')
  end.

(** Modelled from the spec: the concatenation algorithm, "for each
    output row in order, [...]; after all sources are appended for a row,
    finalize that row", with [n] the number of rows left. *)
Fixpoint concat_loop (n : nat) (sources : list IArraySource)
    (sink : IArraySink) : Result IArraySink :=
  match n with
  | 0 => Ok sink
  | S n' =>
      '(sources', sink') ← concat_row sources sink;
      concat_loop n' sources' (finishRow sink')
  end.

(** Modelled from the spec: [GatherUtils::concat(sources, sink)]; the
    row count is the one driving the call. *)
Definition concat (sources : list IArraySource) (sink : IArraySink)
    : Result IArraySink :=
  concat_loop (sink_rows sink) sources sink.

(** Modelled from the spec: the left-slice, unbounded algorithm of
    [Functions/GatherUtils]: "per row, let n = row length,
    k = min(requested offset, n); append slice [k, n); finalize", with
    [rows] the number of rows left. *)
Fixpoint sliceUnbounded_loop (rows : nat) (src : IArraySource)
    (sink : IArraySink) (offset : nat) : Result IArraySink :=
  match rows with
  | 0 => Ok sink
  | S rows' =>
      '(begin, n) ← getWhole src;
      let k := offset `min` n in
      sink' ← writeSlice src (begin + k, n - k) sink;
      sliceUnbounded_loop rows' (next src) (finishRow sink') offset
  end.

Definition sliceFromLeftConstantOffsetUnbounded (src : IArraySource)
    (sink : IArraySink) (offset : nat) : Result IArraySink :=
  sliceUnbounded_loop (total_rows src) src sink offset.

(** Modelled from the spec: the end of the requested bound within a row
    of length [n]: "a negative length L means stop |L| elements before the
    row's end"; otherwise the bound ends [length] elements after the
    offset. *)
Definition requested_end (n offset : nat) (length : Z) : Z :=
  if (length <? 0)%Z then (Z.of_nat n + length)%Z
  else (Z.of_nat offset + length)%Z.

(** Modelled from the spec: the left-slice, bounded algorithm of
    [Functions/GatherUtils]: "the resulting slice is clamped to
    [offset, n) intersected with the requested bound; out-of-range or
    inverted bounds yield an empty row". *)
Fixpoint sliceBounded_loop (rows : nat) (src : IArraySource)
    (sink : IArraySink) (offset : nat) (length : Z) : Result IArraySink :=
  match rows with
  | 0 => Ok sink
  | S rows' =>
      '(begin, n) ← getWhole src;
      let stop := Z.to_nat (requested_end n offset length) `min` n in
      sink' ← (if decide (offset < stop)
               then writeSlice src (begin + offset, stop - offset) sink
               else Ok sink);
      sliceBounded_loop rows' (next src) (finishRow sink') offset length
  end.

Definition sliceFromLeftConstantOffsetBounded (src : IArraySource)
    (sink : IArraySink) (offset : nat) (length : Z) : Result IArraySink :=
  sliceBounded_loop (total_rows src) src sink offset length.

End GatherUtils.

(** Modelled from the spec: the class name of a column, for the
    message of a failed [typeid_cast] ([Common/typeid_cast.h]). *)
Definition demangle (c : Column) : string :=
  match c with
  | ColumnNothing _ => "DB::ColumnNothing"
  | ColumnUInt8 _ => "DB::ColumnVector<unsigned char>"
  | ColumnUInt16 _ => "DB::ColumnVector<unsigned short>"
  | ColumnUInt32 _ => "DB::ColumnVector<unsigned int>"
  | ColumnInt64 _ => "DB::ColumnVector<long>"
  | ColumnString _ => "DB::ColumnString"
  | ColumnArray _ _ => "DB::ColumnArray"
  | ColumnNullable _ _ => "DB::ColumnNullable"
  | ColumnConst _ _ => "DB::ColumnConst"
  end.

(** [typeid_cast<ColumnArray &>] of the dereferenced [result_column], followed by
    [createArraySink]. *)
Definition sinkOf (result_column : Column) (rows : nat)
    : M GatherUtils.IArraySink :=
  match result_column with
  | ColumnArray d o => mret (GatherUtils.createArraySink d o rows)
  | c => throw ("Bad cast from type " +:+ demangle c +:+ " to DB::ColumnArray")
               BAD_CAST
  end.

(** ** arrayPopFront, arrayPopBack *)

Module ArrayPop.

Definition useDefaultImplementationForConstants : bool := true.
Definition useDefaultImplementationForNulls : bool := false.

Definition executeImpl (pop_front : bool) (name : string)
    (arguments : ColumnNumbers) (result : nat) (input_rows_count : nat)
    : M unit :=
  r ← getByPosition result;
  let return_type := type r in
  if onlyNull return_type then
    setColumn result
      (createColumnConstWithDefaultValue return_type input_rows_count)
  else
    let result_column := createColumn return_type in
    a0 ← lift (at_index arguments 0);
    e ← getByPosition a0;
    array_column ← deref (column e);
    let size := size array_column in
    source ← match array_column with
             | ColumnArray d o =>
                 mret (GatherUtils.createArraySource d o false size)
             | _ =>
                 throw ("First arguments for function " +:+ name
                          +:+ " must be array.") LOGICAL_ERROR
             end;
    sink ← sinkOf result_column size;
    sink' ← lift (if pop_front
                  then GatherUtils.sliceFromLeftConstantOffsetUnbounded
                         source sink 1
                  else GatherUtils.sliceFromLeftConstantOffsetBounded
                         source sink 0 (-1));
    setColumn result (GatherUtils.sink_column sink').

End ArrayPop.

(** ** arrayConcat *)

Module ArrayConcat.

Definition getName : string := "arrayConcat".

Definition useDefaultImplementationForConstants : bool := true.

Section WithCast.

(** [castColumn(arg, type, context)] of [Interpreters/castColumn.h], an
    outside collaborator: it returns the cast column or throws. *)
Variable castColumn : ColumnWithTypeAndName -> DataType -> Result (option Column).

(** The first loop: [preprocessed_columns[i]] for each argument. *)
Fixpoint preprocess (arguments : ColumnNumbers) (return_type : DataType)
    : M (list (option Column)) :=
  match arguments with
  | [] => mret []
  | a :: rest =>
      arg ← getByPosition a;
      preprocessed_column ←
        (if negb (equals (type arg) return_type)
         then lift (castColumn arg return_type)
         else mret (column arg));
      cols ← preprocess rest return_type;
      mret (preprocessed_column :: cols)
  end.

(** The second loop: one array source per preprocessed column. *)
Fixpoint makeSources (preprocessed_columns : list (option Column)) (rows : nat)
    : M (list GatherUtils.IArraySource) :=
  match preprocessed_columns with
  | [] => mret []
  | p :: rest =>
      argument_column ← deref p;
      let '(is_const, argument_column) :=
        match argument_column with
        | ColumnConst d _ => (true, d)
        | c => (false, c)
        end in
      source ← match argument_column with
               | ColumnArray d o =>
                   mret (GatherUtils.createArraySource d o is_const rows)
               | _ =>
                   throw ("Arguments for function " +:+ getName
                            +:+ " must be arrays.") LOGICAL_ERROR
               end;
      sources ← makeSources rest rows;
      mret (source :: sources)
  end.

Definition executeImpl (arguments : ColumnNumbers) (result : nat)
    (input_rows_count : nat) : M unit :=
  r ← getByPosition result;
  let return_type := type r in
  if onlyNull return_type then
    setColumn result
      (createColumnConstWithDefaultValue return_type input_rows_count)
  else
    let result_column := createColumn return_type in
    let rows := input_rows_count in
    preprocessed_columns ← preprocess arguments return_type;
    sources ← makeSources preprocessed_columns rows;
    sink ← sinkOf result_column rows;
    sink' ← lift (GatherUtils.concat sources sink);
    setColumn result (GatherUtils.sink_column sink').

End WithCast.

End ArrayConcat.


(** * Notions used to state the properties *)

(** The column a call reads at argument [i]:
    [block.getByPosition(arguments[i]).column]. *)
Definition argument_column (block : Block) (arguments : ColumnNumbers) (i : nat)
    : option Column :=
  a ← arguments !! i; e ← block !! a; column e.

(** The block after [block.getByPosition(result).column = c]. *)
Definition with_result (block : Block) (result : nat) (c : Column) : Block :=
  match block !! result with
  | Some e => <[result := mkEntry (Some c) (type e) (name e)]> block
  | None => block
  end.

(** What the caller observes at the result position: the exception, or
    the column left there. *)
Definition observe (out : Result unit * Block) (result : nat)
    : Result (option Column) :=
  match out with
  | (Ok _, b) => Ok (e ← b !! result; column e)
  | (Throw e, _) => Throw e
  | (Undefined, _) => Undefined
  end.

(** The common shape of the loops that fill a container cell by cell:
    cell [i] receives [f i], for [n] consecutive cells. *)
Fixpoint fill_loop {A : Type} (f : nat -> Result A) (n i : nat) (res : list A)
    : Result (list A) :=
  match n with
  | 0 => Ok res
  | S n' =>
      v ← f i;
      res' ← store res i v;
      fill_loop f n' (S i) res'
  end.

Module DateDiffSpec.

Import DateDiff.

(** The shapes the dispatcher accepts for a temporal argument: a vector
    of one of the two encodings, or a constant whose data column holds
    its single value. *)
Definition supported (c : Column) : bool :=
  match c with
  | ColumnUInt16 _ | ColumnUInt32 _ => true
  | ColumnConst (ColumnUInt16 [_]) _ | ColumnConst (ColumnUInt32 [_]) _ => true
  | _ => false
  end.

Definition supported_pair (x y : Column) : bool :=
  supported x && supported y && negb (isColumnConst x && isColumnConst y).

(** The value a temporal column holds at row [i], with its encoding. *)
Definition value_at (c : Column) (i : nat) : option (Encoding * Z) :=
  match c with
  | ColumnUInt16 d => v ← d !! i; Some (UInt16, v)
  | ColumnUInt32 d => v ← d !! i; Some (UInt32, v)
  | ColumnConst (ColumnUInt16 d) s =>
      if decide (i < s) then v ← d !! 0; Some (UInt16, v) else None
  | ColumnConst (ColumnUInt32 d) s =>
      if decide (i < s) then v ← d !! 0; Some (UInt32, v) else None
  | _ => None
  end.

(** The row-by-row recomputation: transform of the second value minus
    transform of the first, in 64-bit signed arithmetic. *)
Definition recompute {DateLUTImpl : Type} (T : Transform DateLUTImpl)
    (x y : Column) (timezone_x timezone_y : DateLUTImpl) (i : nat) : option Z :=
  '(e1, xi) ← value_at x i;
  '(e2, yi) ← value_at y i;
  Some (Int64_sub (Int64 (execute DateLUTImpl T e2 yi timezone_y))
                  (Int64 (execute DateLUTImpl T e1 xi timezone_x))).

(** The value a row is expected to hold, as a total function. *)
Definition expected {DateLUTImpl : Type} (T : Transform DateLUTImpl)
    (x y : Column) (timezone_x timezone_y : DateLUTImpl) (i : nat) : Z :=
  default 0%Z (recompute T x y timezone_x timezone_y i).

(** The alias groups of the unit keyword. *)
Definition alias_groups : list (list string) :=
  [ ["year"; "yy"; "yyyy"];
    ["quarter"; "qq"; "q"];
    ["month"; "mm"; "m"];
    ["week"; "wk"; "ww"];
    ["day"; "dd"; "d"];
    ["hour"; "hh"];
    ["minute"; "mi"; "n"];
    ["second"; "ss"; "s"] ].

Definition member (s : string) (g : list string) : bool :=
  existsb (String.eqb s) g.

Definition recognised (s : string) : bool :=
  existsb (member s) alias_groups.

Definition same_group (a b : string) : bool :=
  existsb (fun g => member a g && member b g) alias_groups.

(** A block for one call [dateDiff(unit, x, y)]: the three arguments at
    positions 0, 1, 2 and the result at position 3. *)
Definition call_block (unit : string) (rows : nat) (x y : Column) : Block :=
  [ mkEntry (Some (ColumnConst (ColumnString [unit]) rows)) DataTypeString "unit";
    mkEntry (Some x) DataTypeDate "x";
    mkEntry (Some y) DataTypeDate "y";
    mkEntry None DataTypeInt64 "result" ].

(** Stand-ins for the outside parts, to run the function on an example:
    one time zone, transforms that count days (a [Date] is a day number,
    a [DateTime] has 86400 seconds a day). *)
Definition toy_day : Transform () :=
  mkTransform () (fun d _ => d) (fun t _ => (t / 86400)%Z).

Definition toy_executeImpl : ColumnNumbers -> nat -> nat -> M unit :=
  executeImpl () toy_day toy_day toy_day toy_day toy_day toy_day toy_day toy_day
    (fun _ _ _ _ => Ok ()) (fun _ => 0%Z).

End DateDiffSpec.

Module ArraySpec.

(** Where row [r] begins in the nested data: [offsets[r-1]], with
    [offsets[-1] = 0]. *)
Definition row_begin (offsets : list nat) (r : nat) : nat :=
  match r with
  | 0 => 0
  | S r' => default 0 (offsets !! r')
  end.

(** The elements of row [r] of an offset-encoded array: the nested-data
    indices [offsets[r-1], offsets[r]). *)
Definition array_row (data : list Field) (offsets : list nat) (r : nat)
    : list Field :=
  let b := row_begin offsets r in
  take (default 0 (offsets !! r) - b) (drop b data).

(** The offsets never decrease, starting from [prev]. *)
Fixpoint nondecreasing_from (prev : nat) (offsets : list nat) : bool :=
  match offsets with
  | [] => true
  | o :: rest => (prev <=? o) && nondecreasing_from o rest
  end.

(** The invariant of an array column: non-decreasing offsets, and a flat
    nested data column whose length equals the final offset. *)
Definition wf_array (data : list Field) (offsets : list nat) : bool :=
  nondecreasing_from 0 offsets && (default 0 (last offsets) =? length data).

(** An array argument of a call over [rows] rows: an array column of
    [rows] rows, or a constant whose data column is an array of one
    row. *)
Definition wf_argument (rows : nat) (c : Column) : bool :=
  match c with
  | ColumnArray d o => wf_array d o && (length o =? rows)
  | ColumnConst (ColumnArray d o) _ => wf_array d o && (length o =? 1)
  | _ => false
  end.

(** The elements an array argument contributes to row [r]. *)
Definition argument_row (c : Column) (r : nat) : list Field :=
  match c with
  | ColumnArray d o => array_row d o r
  | ColumnConst (ColumnArray d o) _ => array_row d o 0
  | _ => []
  end.

(** The column an argument contributes after the cast to the return
    type: the column of the block entry itself when the entry's type is
    the return type, the column the cast returns for the entry
    otherwise. *)
Definition argument_after_cast
    (castColumn : ColumnWithTypeAndName -> DataType -> Result (option Column))
    (block : Block) (return_type : DataType) (a : nat) : option Column :=
  arg ← block !! a;
  if decide (type arg = return_type) then column arg
  else match castColumn arg return_type with
       | Ok p => p
       | Throw _ | Undefined => None
       end.

(** The cumulative end offsets of a sequence of rows laid out one after
    the other from index [base]. *)
Fixpoint offsets_from (base : nat) (rows : list (list Field)) : list nat :=
  match rows with
  | [] => []
  | x :: rest => (base + length x) :: offsets_from (base + length x) rest
  end.

(** A sink after the rows [rs] have been appended and finalized, one
    after the other. *)
Definition append_rows (sink : GatherUtils.IArraySink) (rs : list (list Field))
    : GatherUtils.IArraySink :=
  GatherUtils.mkSink
    (GatherUtils.sink_elements sink ++ List.concat rs)
    (GatherUtils.sink_offsets sink
       ++ offsets_from (length (GatherUtils.sink_elements sink)) rs)
    (GatherUtils.sink_rows sink).

(** Row [r] of the concatenation of the arguments [cols]. *)
Definition concat_row_of (cols : list Column) (r : nat) : list Field :=
  List.concat (map (fun c => argument_row c r) cols).

(** Row [r] of an array after the slice from [offset], unbounded. *)
Definition unbounded_row_of (data : list Field) (offsets : list nat)
    (offset : nat) (r : nat) : list Field :=
  let row := array_row data offsets r in
  drop (offset `min` length row) row.

(** Row [r] of an array after the slice from [offset] of signed length
    [len]. *)
Definition bounded_row_of (data : list Field) (offsets : list nat)
    (offset : nat) (len : Z) (r : nat) : list Field :=
  let row := array_row data offsets r in
  let n := length row in
  let stop := Z.to_nat (GatherUtils.requested_end n offset len) `min` n in
  take (stop - offset) (drop offset row).

(** The source of an array argument, advanced to row [r]. *)
Definition source_at (rows r : nat) (c : Column) : GatherUtils.IArraySource :=
  match c with
  | ColumnConst (ColumnArray d o) _ => GatherUtils.mkSource d o true rows r
  | ColumnArray d o => GatherUtils.mkSource d o false rows r
  | _ => GatherUtils.mkSource [] [] false rows r
  end.

(** Blocks for the examples: arguments first, the result entry last. *)
Definition array_entry (c : Column) : ColumnWithTypeAndName :=
  mkEntry (Some c) (DataTypeArray DataTypeInt64) "arr".

Definition result_entry : ColumnWithTypeAndName :=
  mkEntry None (DataTypeArray DataTypeInt64) "result".

Definition only_null_entry : ColumnWithTypeAndName :=
  mkEntry None (DataTypeNullable DataTypeNothing) "result".

(** The rows [[1,2,3]], [[]], [[4]]. *)
Definition example_array : Column :=
  ColumnArray [Int64F 1; Int64F 2; Int64F 3; Int64F 4] [3; 3; 4].

(** The constant row [[7,8]]. *)
Definition example_const_array : Column :=
  ColumnConst (ColumnArray [Int64F 7; Int64F 8] [2]) 3.

(** A cast for the examples: unsigned elements become signed ones. *)
Definition widen (f : Field) : Field :=
  match f with
  | UInt64 v => Int64F v
  | other => other
  end.

Definition widening_cast (arg : ColumnWithTypeAndName) (t : DataType)
    : Result (option Column) :=
  match column arg with
  | Some (ColumnArray d o) => Ok (Some (ColumnArray (map widen d) o))
  | Some (ColumnConst (ColumnArray d o) s) =>
      Ok (Some (ColumnConst (ColumnArray (map widen d) o) s))
  | _ => Throw (mkException "castColumn" ILLEGAL_TYPE_OF_ARGUMENT)
  end.

(** The rows [[7]], [[]], [[8]] of unsigned elements, and what the cast
    makes of them. *)
Definition example_unsigned_array : Column :=
  ColumnArray [UInt64 7; UInt64 8] [1; 1; 2].

Definition example_widened_array : Column :=
  ColumnArray [Int64F 7; Int64F 8] [1; 1; 2].

Definition unsigned_array_entry : ColumnWithTypeAndName :=
  mkEntry (Some example_unsigned_array) (DataTypeArray DataTypeUInt8) "u".

(** A cast that is never needed in the examples. *)
Definition no_cast (arg : ColumnWithTypeAndName) (t : DataType)
    : Result (option Column) :=
  Throw (mkException "castColumn" ILLEGAL_TYPE_OF_ARGUMENT).

End ArraySpec.

Module IsNotNullSpec.

(** Blocks for the examples: the argument at position 0, the result at
    position 1. *)
Definition nullable_block : Block :=
  [ mkEntry (Some (ColumnNullable (ColumnInt64 [5; 0; 7]%Z) [0; 1; 0]%Z))
            (DataTypeNullable DataTypeInt64) "v";
    mkEntry None DataTypeUInt8 "result" ].

Definition plain_block : Block :=
  [ mkEntry (Some (ColumnInt64 [5; 0; 7]%Z)) DataTypeInt64 "v";
    mkEntry None DataTypeUInt8 "result" ].

End IsNotNullSpec.

(** * Notions used to state the further properties *)

Module Effects.

(** A computation that leaves the block as it found it. *)
Definition reads_only {A : Type} (m : M A) : Prop :=
  forall b, (m b).2 = b.

(** What a computation returns, when it returns. *)
Definition returns {A : Type} (Q : A -> Prop) (m : M A) : Prop :=
  forall b a b', m b = (Ok a, b') -> Q a.

(** A call that either writes one column, satisfying [P], at the result
    position and returns, or does not return and leaves the block as it
    found it. *)
Definition one_write (result : nat) (P : Column -> Prop) (m : M unit) : Prop :=
  forall b,
    (exists c, m b = (Ok tt, with_result b result c)
               /\ result < length b /\ P c)
    \/ ((m b).1 <> Ok tt /\ (m b).2 = b).

End Effects.

(** The invariant of a constant column: its data column holds exactly
    one row. *)
Definition const_invariant (c : Column) : bool :=
  match c with
  | ColumnConst d _ => size d =? 1
  | _ => true
  end.

Module DateDiffTable.

(** The position of the first alias group, from position [i] on, that
    has [s] among its members. *)
Fixpoint find_group (s : string) (groups : list (list string)) (i : nat)
    : option nat :=
  match groups with
  | [] => None
  | g :: rest =>
      if DateDiffSpec.member s g then Some i else find_group s rest (S i)
  end.

End DateDiffTable.

Module IsNotNullExamples.

(** The block of [IsNotNullSpec.nullable_block] after the call, and a
    block for a second call on the column the first one wrote. *)
Definition after_first : Block :=
  [ mkEntry (Some (ColumnNullable (ColumnInt64 [5; 0; 7]%Z) [0; 1; 0]%Z))
            (DataTypeNullable DataTypeInt64) "v";
    mkEntry (Some (ColumnUInt8 [1; 0; 1]%Z)) DataTypeUInt8 "result" ].

Definition second_block : Block :=
  after_first ++ [ mkEntry None DataTypeUInt8 "again" ].

End IsNotNullExamples.

Module ArrayCalls.

Import ArraySpec.

(** An argument [makeSources] accepts: an array column, or a constant
    whose data column is an array column. *)
Definition is_array_argument (c : Column) : bool :=
  match c with
  | ColumnArray _ _ => true
  | ColumnConst (ColumnArray _ _) _ => true
  | _ => false
  end.

(** A call of [arrayConcat] with an array result type whose arguments,
    after the cast to the result type, are the columns [cols]. *)
Definition concat_call
    (castColumn : ColumnWithTypeAndName -> DataType -> Result (option Column))
    (block : Block) (arguments : ColumnNumbers) (result : nat)
    (cols : list Column) : Prop :=
  exists e t,
    block !! result = Some e /\ type e = DataTypeArray t
    /\ ArrayConcat.preprocess castColumn arguments (type e) block
       = (Ok (Some <$> cols), block).

(** A call of [arrayPopFront] or [arrayPopBack] with an array result
    type on the array column of data [d] and offsets [o]. *)
Definition pop_call (block : Block) (arguments : ColumnNumbers) (result : nat)
    (d : list Field) (o : list nat) : Prop :=
  exists e t,
    block !! result = Some e /\ type e = DataTypeArray t
    /\ argument_column block arguments 0 = Some (ColumnArray d o).

(** What the array functions write for the result type [t]: the
    constant default of [t] when [t] is only-null, an array column when
    it is not. *)
Definition array_or_only_null (t : DataType) (rows : nat) (c : Column) : Prop :=
  (onlyNull t = true /\ c = createColumnConstWithDefaultValue t rows)
  \/ (onlyNull t = false /\ exists d o, c = ColumnArray d o).

(** The array column that holds the rows [rs], one after the other. *)
Definition layout (rs : list (list Field)) : Column :=
  ColumnArray (List.concat rs) (offsets_from 0 rs).

(** The rows of an array column. *)
Definition rows_of (d : list Field) (o : list nat) : list (list Field) :=
  map (array_row d o) (seq 0 (length o)).

(** A row without its first element, and without its last. *)
Definition pop_front_row (l : list Field) : list Field :=
  drop (1 `min` length l) l.

Definition pop_back_row (l : list Field) : list Field :=
  take (length l - 1) l.

(** Blocks for the examples. *)
Definition string_entry : ColumnWithTypeAndName :=
  mkEntry (Some (ColumnString ["a"; "b"; "c"])) DataTypeString "s".

Definition date_array_entry : ColumnWithTypeAndName :=
  mkEntry (Some example_array) (DataTypeArray DataTypeDate) "dates".

(** A cast that hands the column back as it is. *)
Definition keep_cast (arg : ColumnWithTypeAndName) (t : DataType)
    : Result (option Column) :=
  Ok (column arg).

Definition example_empty_const : Column :=
  ColumnConst (ColumnArray [] [0]) 3.

Definition example_one_const : Column :=
  ColumnConst (ColumnArray [Int64F 9] [1]) 3.

(** [example_array] with 9 appended to every row, with 9 put before
    every row, without the first element of every row, and without the
    last. *)
Definition example_pushed_back : Column :=
  ColumnArray [Int64F 1; Int64F 2; Int64F 3; Int64F 9; Int64F 9; Int64F 4;
               Int64F 9] [4; 5; 7].

Definition example_pushed_front : Column :=
  ColumnArray [Int64F 9; Int64F 1; Int64F 2; Int64F 3; Int64F 9; Int64F 9;
               Int64F 4] [4; 5; 7].

Definition example_popped_front : Column :=
  ColumnArray [Int64F 2; Int64F 3] [2; 2; 2].

Definition example_popped_back : Column :=
  ColumnArray [Int64F 1; Int64F 2] [2; 2; 2].

Definition example_popped_both : Column :=
  ColumnArray [Int64F 2] [1; 1; 1].

End ArrayCalls.

(** * Properties *)

(** ** Running a call *)

Lemma argument_column_Some block arguments i c :
  argument_column block arguments i = Some c ->
  exists a e, arguments !! i = Some a /\ block !! a = Some e /\ column e = Some c.
Proof.
  unfold argument_column. intros H.
  destruct (arguments !! i) as [a|] eqn:Ha; simpl in H; [|discriminate].
  destruct (block !! a) as [e|] eqn:He; simpl in H; [|discriminate].
  eauto.
Qed.

Lemma bind_Ok {A B : Type} (m : M A) (f : A -> M B) (b b' : Block) (a : A) :
  m b = (Ok a, b') -> (m ≫= f) b = f a b'.
Proof. intros H. unfold mbind, M_bind. now rewrite H. Qed.

Lemma bind_Throw {A B : Type} (m : M A) (f : A -> M B) (b b' : Block) e :
  m b = (Throw e, b') -> (m ≫= f) b = (Throw e, b').
Proof. intros H. unfold mbind, M_bind. now rewrite H. Qed.

Lemma read_argument block arguments i c {B : Type} (k : Column -> M B) :
  argument_column block arguments i = Some c ->
  (a ← lift (at_index arguments i); e ← getByPosition a; x ← deref (column e); k x) block
  = k c block.
Proof.
  intros H. apply argument_column_Some in H as (a & e & Ha & He & Hc).
  unfold mbind, M_bind, lift, getByPosition, at_index, deref.
  rewrite Ha, He, Hc. reflexivity.
Qed.

Lemma setColumn_with_result block result c :
  result < length block ->
  setColumn result c block = (Ok tt, with_result block result c).
Proof.
  intros H. unfold setColumn, with_result.
  destruct (lookup_lt_is_Some_2 block result H) as [e He]. now rewrite He.
Qed.

Lemma observe_with_result block result c :
  result < length block ->
  observe (Ok tt, with_result block result c) result = Ok (Some c).
Proof.
  intros H. unfold observe, with_result.
  destruct (lookup_lt_is_Some_2 block result H) as [e He]. rewrite He.
  rewrite list_lookup_insert_eq by assumption. reflexivity.
Qed.

(** ** Loops that fill a container cell by cell *)

Section Fill.

Context {A : Type}.

Lemma fill_loop_Ok (f : nat -> Result A) (g : nat -> A) n :
  forall i res,
    (forall j, i <= j < i + n -> f j = Ok (g j)) ->
    i + n <= length res ->
    fill_loop f n i res
    = Ok (take i res ++ map g (seq i n) ++ drop (i + n) res).
Proof.
  induction n as [|n IH]; intros i res Hf Hlen; simpl.
  - rewrite Nat.add_0_r, take_drop. reflexivity.
  - rewrite (Hf i) by lia. simpl. unfold store.
    destruct (decide (i < length res)) as [Hi|Hi]; [|lia]. simpl.
    rewrite IH.
    + f_equal.
      rewrite (take_S_r _ _ (g i)) by (apply list_lookup_insert_eq; lia).
      rewrite take_insert_ge by lia.
      rewrite drop_insert_lt by lia.
      replace (S i + n) with (i + S n) by lia.
      rewrite <- app_assoc. reflexivity.
    + intros j Hj. apply Hf. lia.
    + rewrite length_insert. lia.
Qed.

Lemma fill_loop_all (f : nat -> Result A) (g : nat -> A) (res : list A) :
  (forall j, j < length res -> f j = Ok (g j)) ->
  fill_loop f (length res) 0 res = Ok (map g (seq 0 (length res))).
Proof.
  intros Hf. rewrite (fill_loop_Ok f g) by (intros; try apply Hf; lia).
  simpl. rewrite drop_all, app_nil_r. reflexivity.
Qed.

End Fill.

(** ** dateDiff *)

Module DateDiffProofs.

Import DateDiff DateDiffSpec.

Section WithTransforms.

Variable DateLUTImpl : Type.

Variables ToRelativeYearNumImpl ToRelativeQuarterNumImpl
  ToRelativeMonthNumImpl ToRelativeWeekNumImpl ToRelativeDayNumImpl
  ToRelativeHourNumImpl ToRelativeMinuteNumImpl
  ToRelativeSecondNumImpl : Transform DateLUTImpl.

Variable extractTimeZoneFromFunctionArguments :
  Block -> ColumnNumbers -> nat -> nat -> Result DateLUTImpl.

Variable uninitialized : nat -> Z.

Local Abbreviation calculate := (calculate DateLUTImpl).
Local Abbreviation dispatchForColumns := (dispatchForColumns DateLUTImpl).
Local Abbreviation selectTransform :=
  (selectTransform DateLUTImpl ToRelativeYearNumImpl ToRelativeQuarterNumImpl
     ToRelativeMonthNumImpl ToRelativeWeekNumImpl ToRelativeDayNumImpl
     ToRelativeHourNumImpl ToRelativeMinuteNumImpl ToRelativeSecondNumImpl).
Local Abbreviation executeImpl :=
  (executeImpl DateLUTImpl ToRelativeYearNumImpl ToRelativeQuarterNumImpl
     ToRelativeMonthNumImpl ToRelativeWeekNumImpl ToRelativeDayNumImpl
     ToRelativeHourNumImpl ToRelativeMinuteNumImpl ToRelativeSecondNumImpl
     extractTimeZoneFromFunctionArguments uninitialized).
Local Abbreviation extractTimeZone := extractTimeZoneFromFunctionArguments.

Implicit Types (T : Transform DateLUTImpl) (x y : Column) (tzx tzy : DateLUTImpl).

(** *** The three loops are cell-by-cell fills *)

Lemma vector_vector_loop_fill T e1 e2 xd yd tzx tzy n : forall i res,
  vector_vector_loop DateLUTImpl T e1 e2 xd yd tzx tzy n i res
  = fill_loop (fun j => xi ← at_index xd j; yi ← at_index yd j;
                        Ok (calculate T e1 e2 xi yi tzx tzy)) n i res.
Proof.
  induction n as [|n IH]; intros i res; simpl; [reflexivity|].
  destruct (at_index xd i); simpl; try reflexivity.
  destruct (at_index yd i); simpl; try reflexivity.
  destruct (store res i _); simpl; auto.
Qed.

Lemma vector_constant_loop_fill T e1 e2 xd yv tzx tzy n : forall i res,
  vector_constant_loop DateLUTImpl T e1 e2 xd yv tzx tzy n i res
  = fill_loop (fun j => xi ← at_index xd j;
                        Ok (calculate T e1 e2 xi yv tzx tzy)) n i res.
Proof.
  induction n as [|n IH]; intros i res; simpl; [reflexivity|].
  destruct (at_index xd i); simpl; try reflexivity.
  destruct (store res i _); simpl; auto.
Qed.

Lemma constant_vector_loop_fill T e1 e2 xv yd tzx tzy n : forall i res,
  constant_vector_loop DateLUTImpl T e1 e2 xv yd tzx tzy n i res
  = fill_loop (fun j => yi ← at_index yd j;
                        Ok (calculate T e1 e2 xv yi tzx tzy)) n i res.
Proof.
  induction n as [|n IH]; intros i res; simpl; [reflexivity|].
  destruct (at_index yd i); simpl; try reflexivity.
  destruct (store res i _); simpl; auto.
Qed.

Lemma at_index_lt {A : Type} (l : list A) (i : nat) :
  i < length l -> exists a, l !! i = Some a /\ at_index l i = Ok a.
Proof.
  intros H. destruct (lookup_lt_is_Some_2 l i H) as [a Ha].
  exists a. unfold at_index. now rewrite Ha.
Qed.

(** *** 64-bit arithmetic *)

Lemma Int64_congr (a b : Z) :
  (a mod 2 ^ 64 = b mod 2 ^ 64)%Z -> Int64 a = Int64 b.
Proof.
  intros H. unfold Int64.
  rewrite <- (Zplus_mod_idemp_l a), <- (Zplus_mod_idemp_l b), H. reflexivity.
Qed.

Lemma Int64_mod (a : Z) : (Int64 a mod 2 ^ 64 = a mod 2 ^ 64)%Z.
Proof.
  unfold Int64.
  rewrite Zminus_mod_idemp_l.
  f_equal. lia.
Qed.

Lemma Int64_wraps (a : Z) : exists k : Z, Int64 a = (a + k * 2 ^ 64)%Z.
Proof.
  exists (- ((a + 2 ^ 63) / 2 ^ 64))%Z. unfold Int64.
  rewrite Z.mod_eq by lia. lia.
Qed.

Lemma Int64_sub_antisym (a b : Z) : Int64_sub a b = Int64_neg (Int64_sub b a).
Proof.
  unfold Int64_sub, Int64_neg. apply Int64_congr.
  destruct (Int64_wraps (b - a)) as [k ->].
  replace (- (b - a + k * 2 ^ 64))%Z with (a - b + (- k) * 2 ^ 64)%Z by lia.
  now rewrite Z_mod_plus_full.
Qed.

Lemma Int64_range (a : Z) : (- 2 ^ 63 <= Int64 a < 2 ^ 63)%Z.
Proof.
  unfold Int64. pose proof (Z.mod_pos_bound (a + 2 ^ 63) (2 ^ 64)). lia.
Qed.

Lemma Int64_neg_exact (a : Z) :
  (- 2 ^ 63 < a < 2 ^ 63)%Z -> Int64_neg a = (- a)%Z.
Proof.
  intros H. unfold Int64_neg, Int64.
  rewrite Z.mod_small by lia. lia.
Qed.

(** *** Rows of the dispatcher *)

Ltac row_case Hj :=
  repeat match goal with
  | |- context [at_index ?l ?j] =>
      let a := fresh "a" in let Ha := fresh "Ha" in let Ha' := fresh "Ha'" in
      destruct (at_index_lt l j) as (a & Ha & Ha'); [simpl in *; lia|];
      rewrite Ha'; simpl
  end;
  unfold expected, recompute, value_at;
  repeat match goal with
  | |- context [decide (?a < ?b)] => destruct (decide (a < b)); [|simpl in *; lia]
  | H : ?l !! ?j = Some _ |- context [?l !! ?j] => rewrite H; simpl
  end;
  try reflexivity.

Lemma dispatchForColumns_rows T x y tzx tzy (res : list Z) :
  supported_pair x y = true ->
  size x = length res -> size y = length res ->
  dispatchForColumns T x y tzx tzy res
  = Ok (map (expected T x y tzx tzy) (seq 0 (length res))).
Proof.
  unfold supported_pair. intros Hs Hx Hy.
  apply andb_prop in Hs as [Hs Hc]. apply andb_prop in Hs as [Hsx Hsy].
  destruct x as [| | xd | xd | | | | |[| | [|xv [|]] | [|xv [|]] | | | | |] sx]; try discriminate Hsx;
  destruct y as [| | yd | yd | | | | |[| | [|yv [|]] | [|yv [|]] | | | | |] sy]; try discriminate Hsy;
  try discriminate Hc; simpl in Hx, Hy;
  unfold DateDiff.dispatchForColumns, dispatchForSecondColumn,
    dispatchConstForSecondColumn, checkAndGetColumn, checkAndGetColumnConst,
    getValue, vector_vector, vector_constant, constant_vector; simpl;
  rewrite ?vector_vector_loop_fill, ?vector_constant_loop_fill,
    ?constant_vector_loop_fill;
  rewrite ?Hx, ?Hy;
  apply fill_loop_all; intros j Hj; row_case Hj.
Qed.

Lemma value_at_is_Some (c : Column) (rows i : nat) :
  supported c = true -> size c = rows -> i < rows -> is_Some (value_at c i).
Proof.
  intros Hs Hc Hi.
  destruct c as [| | d | d | | | | |[| | [|v [|]] | [|v [|]] | | | | |] s];
    try discriminate Hs; simpl in *;
    try (destruct (lookup_lt_is_Some_2 d i) as [v Hv]; [lia|]; rewrite Hv);
    try (destruct (decide (i < s)); [|lia]); simpl; eauto.
Qed.

Lemma supported_pair_inv x y :
  supported_pair x y = true ->
  supported x = true /\ supported y = true
  /\ (isColumnConst x && isColumnConst y = false).
Proof.
  unfold supported_pair. intros Hs.
  apply andb_prop in Hs as [Hs Hc]. apply andb_prop in Hs as [Hsx Hsy].
  apply negb_true_iff in Hc. auto.
Qed.

Lemma supported_pair_sym x y :
  supported_pair x y = true -> supported_pair y x = true.
Proof.
  intros H. apply supported_pair_inv in H as (Hx & Hy & Hc).
  unfold supported_pair. rewrite Hx, Hy, (andb_comm (isColumnConst y)), Hc.
  reflexivity.
Qed.

Lemma recompute_is_Some T x y tzx tzy (rows i : nat) :
  supported_pair x y = true -> size x = rows -> size y = rows -> i < rows ->
  recompute T x y tzx tzy i = Some (expected T x y tzx tzy i).
Proof.
  intros Hs Hx Hy Hi. apply supported_pair_inv in Hs as (Hsx & Hsy & _).
  destruct (value_at_is_Some x rows i Hsx Hx Hi) as [[e1 xi] Hvx].
  destruct (value_at_is_Some y rows i Hsy Hy Hi) as [[e2 yi] Hvy].
  unfold expected, recompute. rewrite Hvx, Hvy. reflexivity.
Qed.

Lemma expected_swap T x y tzx tzy (rows i : nat) :
  supported_pair x y = true -> size x = rows -> size y = rows -> i < rows ->
  expected T y x tzy tzx i = Int64_neg (expected T x y tzx tzy i).
Proof.
  intros Hs Hx Hy Hi. apply supported_pair_inv in Hs as (Hsx & Hsy & _).
  destruct (value_at_is_Some x rows i Hsx Hx Hi) as [[e1 xi] Hvx].
  destruct (value_at_is_Some y rows i Hsy Hy Hi) as [[e2 yi] Hvy].
  unfold expected, recompute. rewrite Hvx, Hvy. simpl.
  apply Int64_sub_antisym.
Qed.

(** *** The call, once its arguments are read *)

Lemma executeImpl_run block arguments result rows u s0 x y :
  argument_column block arguments 0 = Some (ColumnConst (ColumnString [u]) s0) ->
  argument_column block arguments 1 = Some x ->
  argument_column block arguments 2 = Some y ->
  executeImpl arguments result rows block
  = match extractTimeZone block arguments 3 1 with
    | Ok tzx =>
        match extractTimeZone block arguments 3 2 with
        | Ok tzy =>
            match selectTransform (toLower u) with
            | Some T =>
                match dispatchForColumns T x y tzx tzy
                        (ColumnInt64_create uninitialized rows) with
                | Ok res => setColumn result (ColumnInt64 res) block
                | Throw e => (Throw e, block)
                | Undefined => (Undefined, block)
                end
            | None =>
                (Throw (mkException
                          ("Function " +:+ getName +:+ " does not support '"
                             +:+ toLower u +:+ "' unit") BAD_ARGUMENTS), block)
            end
        | Throw e => (Throw e, block)
        | Undefined => (Undefined, block)
        end
    | Throw e => (Throw e, block)
    | Undefined => (Undefined, block)
    end.
Proof.
  intros H0 H1 H2. unfold DateDiff.executeImpl.
  rewrite (read_argument _ _ _ _ _ H0). simpl.
  rewrite (bind_Ok _ _ block block u) by reflexivity.
  rewrite (read_argument _ _ _ _ _ H1).
  rewrite (read_argument _ _ _ _ _ H2).
  unfold mbind at 1, M_bind at 1.
  destruct (extractTimeZone block arguments 3 1) as [tzx| |]; try reflexivity.
  unfold mbind at 1, M_bind at 1.
  destruct (extractTimeZone block arguments 3 2) as [tzy| |]; try reflexivity.
  unfold mbind at 1, M_bind at 1.
  destruct (selectTransform (toLower u)) as [T|]; [|reflexivity].
  unfold lift.
  destruct (dispatchForColumns T x y tzx tzy _); reflexivity.
Qed.

Lemma length_ColumnInt64_create rows :
  length (ColumnInt64_create uninitialized rows) = rows.
Proof. unfold ColumnInt64_create. now rewrite length_map, length_seq. Qed.

Lemma executeImpl_rows block arguments result rows u s0 x y T tzx tzy :
  argument_column block arguments 0 = Some (ColumnConst (ColumnString [u]) s0) ->
  argument_column block arguments 1 = Some x ->
  argument_column block arguments 2 = Some y ->
  extractTimeZone block arguments 3 1 = Ok tzx ->
  extractTimeZone block arguments 3 2 = Ok tzy ->
  selectTransform (toLower u) = Some T ->
  supported_pair x y = true -> size x = rows -> size y = rows ->
  result < length block ->
  executeImpl arguments result rows block
  = (Ok tt, with_result block result
              (ColumnInt64 (map (expected T x y tzx tzy) (seq 0 rows)))).
Proof.
  intros H0 H1 H2 Hx Hy HT Hs Hsx Hsy Hr.
  rewrite (executeImpl_run _ _ _ _ _ _ _ _ H0 H1 H2), Hx, Hy, HT.
  rewrite dispatchForColumns_rows
    by (rewrite ?length_ColumnInt64_create; assumption).
  rewrite length_ColumnInt64_create.
  now apply setColumn_with_result.
Qed.

(** *** Unit keywords *)

Lemma member_In s g : member s g = true -> In s g.
Proof.
  unfold member. intros H. apply existsb_exists in H as (c & Hc & He).
  apply String.eqb_eq in He. now subst.
Qed.

Lemma same_group_selectTransform a b :
  same_group a b = true ->
  selectTransform a = selectTransform b /\ is_Some (selectTransform a).
Proof.
  unfold same_group. intros H.
  apply existsb_exists in H as (g & Hg & H).
  apply andb_prop in H as [Ha Hb].
  apply member_In in Ha, Hb.
  unfold alias_groups in Hg. simpl in Hg.
  repeat (destruct Hg as [Hg|Hg];
          [subst g; simpl in Ha, Hb;
           repeat match goal with
                  | H : _ \/ _ |- _ => destruct H as [H|H]
                  | H : False |- _ => destruct H
                  end;
           subst; (split; [reflexivity | eexists; reflexivity])|]).
  destruct Hg.
Qed.

Lemma not_recognised_selectTransform s :
  recognised s = false -> selectTransform s = None.
Proof.
  unfold recognised, alias_groups, member, DateDiff.selectTransform. simpl.
  intros H.
  repeat (match goal with
          | |- context [String.eqb s ?c] => destruct (String.eqb s c) eqn:?
          end; simpl in H |- *; try discriminate H).
  reflexivity.
Qed.

Lemma recognised_selectTransform s :
  recognised s = true -> is_Some (selectTransform s).
Proof.
  unfold recognised, alias_groups, member, DateDiff.selectTransform. simpl.
  intros H.
  repeat (match goal with
          | |- context [String.eqb s ?c] => destruct (String.eqb s c) eqn:?
          end; simpl in H |- *; eauto).
  discriminate H.
Qed.


Lemma contains_app (u a b : string) : contains u (a +:+ u +:+ b) = true.
Proof.
  induction a as [|c a IH]; simpl.
  - assert (H : String.prefix u (u +:+ b) = true).
    { induction u as [|c u IHu]; simpl; [now destruct b|].
      destruct (ascii_dec c c); [assumption|congruence]. }
    destruct (u +:+ b); simpl in *; now rewrite H.
  - rewrite IH. apply orb_true_r.
Qed.

(** *** The claims *)

(** C1.  For every supported pair of shapes of the two temporal
    arguments (each a [UInt16] or [UInt32] vector or constant, not both
    constant) and every recognised unit, the call succeeds and writes an
    [Int64] column of [rows] values whose row [i] is the row-by-row
    recomputation [Int64(Transform(y_i, timezone_y)) -
    Int64(Transform(x_i, timezone_x))] in 64-bit signed arithmetic. *)
Theorem dateDiff_matches_recomputation
    block arguments result rows u s0 x y T tzx tzy :
  argument_column block arguments 0 = Some (ColumnConst (ColumnString [u]) s0) ->
  argument_column block arguments 1 = Some x ->
  argument_column block arguments 2 = Some y ->
  extractTimeZone block arguments 3 1 = Ok tzx ->
  extractTimeZone block arguments 3 2 = Ok tzy ->
  selectTransform (toLower u) = Some T ->
  supported_pair x y = true -> size x = rows -> size y = rows ->
  result < length block ->
  exists res : list Z,
    executeImpl arguments result rows block
    = (Ok tt, with_result block result (ColumnInt64 res))
    /\ length res = rows
    /\ forall i, i < rows ->
         exists v, res !! i = Some v /\ recompute T x y tzx tzy i = Some v.
Proof.
  intros H0 H1 H2 Hx Hy HT Hs Hsx Hsy Hr.
  exists (map (expected T x y tzx tzy) (seq 0 rows)). split; [|split].
  - now apply (executeImpl_rows _ _ _ _ u s0).
  - now rewrite length_map, length_seq.
  - intros i Hi. exists (expected T x y tzx tzy i). split.
    + rewrite list_lookup_fmap, lookup_seq_lt by assumption. reflexivity.
    + now apply (recompute_is_Some _ _ _ _ _ rows).
Qed.

(** C5.  Unit resolution is case-insensitive and alias-invariant: two
    calls on the same temporal inputs and time zones whose unit strings
    are case variants of one another, or fold to members of one alias
    group, leave the same outcome at the result position. *)
Theorem dateDiff_unit_alias_invariant
    b1 b2 arguments result rows u1 u2 s1 s2 x y :
  argument_column b1 arguments 0 = Some (ColumnConst (ColumnString [u1]) s1) ->
  argument_column b2 arguments 0 = Some (ColumnConst (ColumnString [u2]) s2) ->
  argument_column b1 arguments 1 = Some x ->
  argument_column b2 arguments 1 = Some x ->
  argument_column b1 arguments 2 = Some y ->
  argument_column b2 arguments 2 = Some y ->
  extractTimeZone b1 arguments 3 1 = extractTimeZone b2 arguments 3 1 ->
  extractTimeZone b1 arguments 3 2 = extractTimeZone b2 arguments 3 2 ->
  result < length b1 -> result < length b2 ->
  toLower u1 = toLower u2 \/ same_group (toLower u1) (toLower u2) = true ->
  observe (executeImpl arguments result rows b1) result
  = observe (executeImpl arguments result rows b2) result.
Proof.
  intros H01 H02 H11 H12 H21 H22 Hx Hy Hr1 Hr2 Hu.
  rewrite (executeImpl_run _ _ _ _ _ _ _ _ H01 H11 H21).
  rewrite (executeImpl_run _ _ _ _ _ _ _ _ H02 H12 H22).
  rewrite Hx, Hy.
  destruct (extractTimeZone b2 arguments 3 1) as [tzx| |]; try reflexivity.
  destruct (extractTimeZone b2 arguments 3 2) as [tzy| |]; try reflexivity.
  assert (HT : selectTransform (toLower u1) = selectTransform (toLower u2)
               /\ (toLower u1 = toLower u2
                   \/ is_Some (selectTransform (toLower u1)))).
  { destruct Hu as [Hu|Hu].
    - rewrite Hu. auto.
    - apply same_group_selectTransform in Hu as [? ?]. auto. }
  destruct HT as [HT Hcase]. rewrite <- HT.
  destruct (selectTransform (toLower u1)) as [T|].
  - destruct (dispatchForColumns T x y tzx tzy _); try reflexivity.
    rewrite !setColumn_with_result, !observe_with_result by assumption.
    reflexivity.
  - destruct Hcase as [->|[? ?]]; [reflexivity|discriminate].
Qed.

(** C6, as the code has it.  For every unit string that case-folds to
    no member of any alias group, the call throws [BAD_ARGUMENTS] with the
    message "Function dateDiff does not support '<unit>' unit", where
    <unit> is the case-folded token, and leaves the block as it was. *)
Theorem dateDiff_unknown_unit_rejected
    block arguments result rows u s0 x y tzx tzy :
  argument_column block arguments 0 = Some (ColumnConst (ColumnString [u]) s0) ->
  argument_column block arguments 1 = Some x ->
  argument_column block arguments 2 = Some y ->
  extractTimeZone block arguments 3 1 = Ok tzx ->
  extractTimeZone block arguments 3 2 = Ok tzy ->
  recognised (toLower u) = false ->
  let msg := "Function dateDiff does not support '" +:+ toLower u +:+ "' unit" in
  executeImpl arguments result rows block
  = (Throw (mkException msg BAD_ARGUMENTS), block)
  /\ contains (toLower u) msg = true.
Proof.
  intros H0 H1 H2 Hx Hy Hu msg. split.
  - rewrite (executeImpl_run _ _ _ _ _ _ _ _ H0 H1 H2), Hx, Hy.
    now rewrite (not_recognised_selectTransform _ Hu).
  - apply contains_app.
Qed.

(** C7.  Antisymmetry: [calculate] of (a, b) is the 64-bit negation of
    [calculate] of (b, a), each value keeping its time zone, which is the
    integer negation unless the difference is the least [Int64]; and a
    call on swapped temporal columns, each resolved with the time zone it
    had before, writes the row-wise negated column. *)
Theorem dateDiff_antisymmetric :
  (forall T e1 e2 a b tza tzb,
     calculate T e1 e2 a b tza tzb = Int64_neg (calculate T e2 e1 b a tzb tza)
     /\ (calculate T e2 e1 b a tzb tza <> (- 2 ^ 63)%Z ->
         calculate T e1 e2 a b tza tzb = (- calculate T e2 e1 b a tzb tza)%Z))
  /\ (forall b1 b2 arguments result rows u s1 s2 x y T tzx tzy,
        argument_column b1 arguments 0 = Some (ColumnConst (ColumnString [u]) s1) ->
        argument_column b2 arguments 0 = Some (ColumnConst (ColumnString [u]) s2) ->
        argument_column b1 arguments 1 = Some x ->
        argument_column b1 arguments 2 = Some y ->
        argument_column b2 arguments 1 = Some y ->
        argument_column b2 arguments 2 = Some x ->
        extractTimeZone b1 arguments 3 1 = Ok tzx ->
        extractTimeZone b1 arguments 3 2 = Ok tzy ->
        extractTimeZone b2 arguments 3 1 = Ok tzy ->
        extractTimeZone b2 arguments 3 2 = Ok tzx ->
        selectTransform (toLower u) = Some T ->
        supported_pair x y = true -> size x = rows -> size y = rows ->
        result < length b1 -> result < length b2 ->
        exists res : list Z,
          length res = rows
          /\ executeImpl arguments result rows b1
             = (Ok tt, with_result b1 result (ColumnInt64 res))
          /\ executeImpl arguments result rows b2
             = (Ok tt, with_result b2 result (ColumnInt64 (map Int64_neg res)))).
Proof.
  split.
  - intros T e1 e2 a b tza tzb.
    assert (H : calculate T e1 e2 a b tza tzb
                = Int64_neg (calculate T e2 e1 b a tzb tza))
      by (unfold DateDiff.calculate; apply Int64_sub_antisym).
    split; [exact H|].
    intros Hmin. rewrite H. apply Int64_neg_exact.
    pose proof (Int64_range (Int64 (execute DateLUTImpl T e1 a tza)
                             - Int64 (execute DateLUTImpl T e2 b tzb))) as Hr.
    unfold DateDiff.calculate, Int64_sub in Hmin |- *. lia.
  - intros b1 b2 arguments result rows u s1 s2 x y T tzx tzy
      H01 H02 H11 H21 H12 H22 Hx1 Hy1 Hx2 Hy2 HT Hs Hsx Hsy Hr1 Hr2.
    exists (map (expected T x y tzx tzy) (seq 0 rows)). split; [|split].
    + now rewrite length_map, length_seq.
    + now apply (executeImpl_rows _ _ _ _ u s1).
    + rewrite (executeImpl_rows b2 arguments result rows u s2 y x T tzy tzx);
        auto using supported_pair_sym.
      do 3 f_equal. rewrite <- list_fmap_compose.
      apply list_fmap_ext. intros k i Hk.
      apply lookup_seq in Hk as [-> Hk]. simpl.
      now apply (expected_swap _ _ _ _ _ rows).
Qed.

(** C9.  A constant [UInt16] or [UInt32] first temporal argument with a
    constant second one is refused by the dispatcher: it throws
    [ILLEGAL_COLUMN] for the second argument, whatever the transform, and
    so does the call, leaving the block as it was. *)
Theorem dateDiff_constant_constant_rejected
    block arguments result rows u s0 x y T tzx tzy :
  argument_column block arguments 0 = Some (ColumnConst (ColumnString [u]) s0) ->
  argument_column block arguments 1 = Some x ->
  argument_column block arguments 2 = Some y ->
  extractTimeZone block arguments 3 1 = Ok tzx ->
  extractTimeZone block arguments 3 2 = Ok tzy ->
  selectTransform (toLower u) = Some T ->
  supported x = true -> isColumnConst x = true -> isColumnConst y = true ->
  (forall T' res, dispatchForColumns T' x y tzx tzy res = Throw illegal_second)
  /\ executeImpl arguments result rows block = (Throw illegal_second, block)
  /\ code illegal_second = ILLEGAL_COLUMN
  /\ contains "second argument" (message illegal_second) = true.
Proof.
  intros H0 H1 H2 Hx Hy HT Hs Hcx Hcy.
  assert (Hd : forall T' res,
             dispatchForColumns T' x y tzx tzy res = Throw illegal_second).
  { intros T' res.
    destruct x as [| | | | | | | |[| | [|xv [|]] | [|xv [|]] | | | | |] sx];
      try discriminate Hs; try discriminate Hcx;
      destruct y; try discriminate Hcy; reflexivity. }
  split; [exact Hd|]. split; [|split; reflexivity].
  rewrite (executeImpl_run _ _ _ _ _ _ _ _ H0 H1 H2), Hx, Hy, HT, Hd.
  reflexivity.
Qed.

End WithTransforms.

(** *** The claims on examples *)

(** Days from 2020-01-01 (day 18262) to 2020-01-10, and back to
    2019-12-20, as a vector against a vector and against a constant. *)
Example dateDiff_example_vector_vector :
  toy_executeImpl [0; 1; 2] 3 2
    (call_block "day" 2 (ColumnUInt16 [18262; 18262]%Z)
                (ColumnUInt16 [18271; 18250]%Z))
  = (Ok tt,
     with_result
       (call_block "day" 2 (ColumnUInt16 [18262; 18262]%Z)
                   (ColumnUInt16 [18271; 18250]%Z))
       3 (ColumnInt64 [9; -12]%Z)).
Proof. reflexivity. Qed.

Example dateDiff_example_constant_vector :
  toy_executeImpl [0; 1; 2] 3 2
    (call_block "DD" 2 (ColumnConst (ColumnUInt32 [1577836800%Z]) 2)
                (ColumnUInt16 [18271; 18250]%Z))
  = (Ok tt,
     with_result
       (call_block "DD" 2 (ColumnConst (ColumnUInt32 [1577836800%Z]) 2)
                   (ColumnUInt16 [18271; 18250]%Z))
       3 (ColumnInt64 [9; -12]%Z)).
Proof. reflexivity. Qed.

Example dateDiff_matches_recomputation_witness :
  exists res : list Z,
    toy_executeImpl [0; 1; 2] 3 2
      (call_block "DAY" 2 (ColumnUInt16 [10; 20]%Z)
                  (ColumnConst (ColumnUInt32 [2592000%Z]) 2))
    = (Ok tt,
       with_result
         (call_block "DAY" 2 (ColumnUInt16 [10; 20]%Z)
                     (ColumnConst (ColumnUInt32 [2592000%Z]) 2))
         3 (ColumnInt64 res))
    /\ length res = 2
    /\ forall i, i < 2 ->
         exists v, res !! i = Some v
           /\ recompute toy_day (ColumnUInt16 [10; 20]%Z)
                (ColumnConst (ColumnUInt32 [2592000%Z]) 2) () () i = Some v.
Proof.
  apply (dateDiff_matches_recomputation () toy_day toy_day toy_day toy_day
           toy_day toy_day toy_day toy_day (fun _ _ _ _ => Ok ()) (fun _ => 0%Z)
           _ _ _ _ "DAY" 2);
    solve [reflexivity | simpl; lia].
Defined.

Example dateDiff_unit_alias_invariant_witness :
  observe (toy_executeImpl [0; 1; 2] 3 1
             (call_block "Year" 1 (ColumnUInt16 [10%Z]) (ColumnUInt16 [400%Z]))) 3
  = observe (toy_executeImpl [0; 1; 2] 3 1
             (call_block "YYYY" 1 (ColumnUInt16 [10%Z]) (ColumnUInt16 [400%Z]))) 3.
Proof.
  apply (dateDiff_unit_alias_invariant () toy_day toy_day toy_day toy_day
           toy_day toy_day toy_day toy_day (fun _ _ _ _ => Ok ()) (fun _ => 0%Z)
           _ _ _ _ _ "Year" "YYYY" 1 1 (ColumnUInt16 [10%Z]) (ColumnUInt16 [400%Z]));
    solve [reflexivity | simpl; lia | right; reflexivity].
Defined.

Example dateDiff_unknown_unit_rejected_witness :
  toy_executeImpl [0; 1; 2] 3 1
    (call_block "Fortnight" 1 (ColumnUInt16 [10%Z]) (ColumnUInt16 [400%Z]))
  = (Throw (mkException "Function dateDiff does not support 'fortnight' unit"
                        BAD_ARGUMENTS),
     call_block "Fortnight" 1 (ColumnUInt16 [10%Z]) (ColumnUInt16 [400%Z]))
  /\ contains "fortnight" "Function dateDiff does not support 'fortnight' unit"
     = true.
Proof.
  apply (dateDiff_unknown_unit_rejected () toy_day toy_day toy_day toy_day
           toy_day toy_day toy_day toy_day (fun _ _ _ _ => Ok ()) (fun _ => 0%Z)
           _ [0; 1; 2] 3 1 "Fortnight" 1 (ColumnUInt16 [10%Z])
           (ColumnUInt16 [400%Z]) () ());
    reflexivity.
Defined.

(** C6, as the claim has it, fails: the token supplied is "Foo", the
    message embeds "foo". *)
Example dateDiff_message_embeds_folded_token :
  recognised (toLower "Foo") = false
  /\ toy_executeImpl [0; 1; 2] 3 1
       (call_block "Foo" 1 (ColumnUInt16 [10%Z]) (ColumnUInt16 [400%Z]))
     = (Throw (mkException "Function dateDiff does not support 'foo' unit"
                           BAD_ARGUMENTS),
        call_block "Foo" 1 (ColumnUInt16 [10%Z]) (ColumnUInt16 [400%Z]))
  /\ contains "Foo" "Function dateDiff does not support 'foo' unit" = false.
Proof. repeat split. Qed.

Example dateDiff_antisymmetric_witness :
  exists res : list Z,
    length res = 2
    /\ toy_executeImpl [0; 1; 2] 3 2
         (call_block "d" 2 (ColumnUInt16 [10; 20]%Z)
                     (ColumnConst (ColumnUInt32 [2592000%Z]) 2))
       = (Ok tt,
          with_result
            (call_block "d" 2 (ColumnUInt16 [10; 20]%Z)
                        (ColumnConst (ColumnUInt32 [2592000%Z]) 2))
            3 (ColumnInt64 res))
    /\ toy_executeImpl [0; 1; 2] 3 2
         (call_block "d" 2 (ColumnConst (ColumnUInt32 [2592000%Z]) 2)
                     (ColumnUInt16 [10; 20]%Z))
       = (Ok tt,
          with_result
            (call_block "d" 2 (ColumnConst (ColumnUInt32 [2592000%Z]) 2)
                        (ColumnUInt16 [10; 20]%Z))
            3 (ColumnInt64 (map Int64_neg res))).
Proof.
  apply (proj2 (dateDiff_antisymmetric () toy_day toy_day toy_day toy_day
           toy_day toy_day toy_day toy_day (fun _ _ _ _ => Ok ())
           (fun _ => 0%Z))
           _ _ _ _ _ "d" 2 2 (ColumnUInt16 [10; 20]%Z)
           (ColumnConst (ColumnUInt32 [2592000%Z]) 2) toy_day () ());
    solve [reflexivity | simpl; lia].
Defined.

Example dateDiff_constant_constant_rejected_witness :
  toy_executeImpl [0; 1; 2] 3 1
    (call_block "day" 1 (ColumnConst (ColumnUInt16 [10%Z]) 1)
                (ColumnConst (ColumnUInt32 [2592000%Z]) 1))
  = (Throw illegal_second,
     call_block "day" 1 (ColumnConst (ColumnUInt16 [10%Z]) 1)
                (ColumnConst (ColumnUInt32 [2592000%Z]) 1)).
Proof.
  apply (dateDiff_constant_constant_rejected () toy_day toy_day toy_day toy_day
           toy_day toy_day toy_day toy_day (fun _ _ _ _ => Ok ()) (fun _ => 0%Z)
           _ [0; 1; 2] 3 1 "day" 1 (ColumnConst (ColumnUInt16 [10%Z]) 1)
           (ColumnConst (ColumnUInt32 [2592000%Z]) 1) toy_day () ());
    reflexivity.
Defined.

End DateDiffProofs.

(** ** isNotNull *)

Module IsNotNullProofs.

Import IsNotNull.

Lemma negate_loop_fill src n : forall i res,
  negate_loop src n i res
  = fill_loop (fun j => s ← at_index src j; Ok (lnot s)) n i res.
Proof.
  induction n as [|n IH]; intros i res; simpl; [reflexivity|].
  destruct (at_index src i); simpl; try reflexivity.
  destruct (store res i _); simpl; auto.
Qed.

Lemma negate_loop_map uninitialized (null_map : list Z) :
  negate_loop null_map (length null_map) 0
    (ColumnUInt8_create uninitialized (length null_map))
  = Ok (map lnot null_map).
Proof.
  rewrite negate_loop_fill.
  pose (g := fun j : nat => lnot (default 0%Z (null_map !! j))).
  assert (Hlen : length (ColumnUInt8_create uninitialized (length null_map))
                 = length null_map).
  { unfold ColumnUInt8_create. now rewrite length_map, length_seq. }
  rewrite <- Hlen at 1.
  rewrite (fill_loop_all _ g).
  - rewrite Hlen. f_equal. apply list_eq. intros i.
    rewrite !list_lookup_fmap.
    destruct (decide (i < length null_map)) as [Hi|Hi].
    + rewrite lookup_seq_lt by assumption. simpl. unfold g.
      destruct (lookup_lt_is_Some_2 null_map i Hi) as [b Hb]. now rewrite Hb.
    + rewrite lookup_seq_ge, (lookup_ge_None_2 null_map) by lia. reflexivity.
  - intros j Hj. rewrite Hlen in Hj. unfold at_index, g.
    destruct (lookup_lt_is_Some_2 null_map j Hj) as [b Hb]. now rewrite Hb.
Qed.

(** C8.  [isNotNull] disables the default handling of nulls and reads
    the null map itself: on a Nullable input it writes the [UInt8] vector
    of the negated null map (row [i] is 1 exactly when the null-map byte
    at [i] is 0); on any other input it writes a constant [UInt8] column
    of value 1 and of the input column's length. *)
Theorem isNotNull_negates_null_map :
  useDefaultImplementationForNulls = false
  /\ (forall uninitialized block arguments result rows nested null_map,
        argument_column block arguments 0 = Some (ColumnNullable nested null_map) ->
        length null_map = rows ->
        result < length block ->
        executeImpl uninitialized arguments result rows block
        = (Ok tt, with_result block result (ColumnUInt8 (map lnot null_map)))
        /\ length (map lnot null_map) = rows
        /\ forall i b, null_map !! i = Some b ->
             map lnot null_map !! i = Some (if decide (b = 0%Z) then 1%Z else 0%Z))
  /\ (forall uninitialized block arguments result rows c,
        argument_column block arguments 0 = Some c ->
        isColumnNullable c = false ->
        result < length block ->
        executeImpl uninitialized arguments result rows block
        = (Ok tt, with_result block result
                    (ColumnConst (ColumnUInt8 [1%Z]) (size c)))).
Proof.
  split; [reflexivity|]. split.
  - intros uninitialized block arguments result rows nested null_map Ha Hl Hr.
    split; [|split].
    + unfold executeImpl. rewrite (read_argument _ _ _ _ _ Ha). subst rows.
      unfold lift. erewrite bind_Ok by (now rewrite negate_loop_map).
      now apply setColumn_with_result.
    + now rewrite length_map.
    + intros i b Hb. rewrite list_lookup_fmap, Hb. simpl. unfold lnot.
      destruct (Z.eqb_spec b 0); destruct (decide (b = 0%Z)); congruence.
  - intros uninitialized block arguments result rows c Ha Hn Hr.
    unfold executeImpl. rewrite (read_argument _ _ _ _ _ Ha).
    destruct c; try discriminate Hn; now apply setColumn_with_result.
Qed.

Example isNotNull_negates_null_map_witness :
  (executeImpl (fun _ => 0%Z) [0] 1 3 IsNotNullSpec.nullable_block
   = (Ok tt,
      [mkEntry (Some (ColumnNullable (ColumnInt64 [5; 0; 7]%Z) [0; 1; 0]%Z))
               (DataTypeNullable DataTypeInt64) "v";
       mkEntry (Some (ColumnUInt8 [1; 0; 1]%Z)) DataTypeUInt8 "result"]))
  /\ (executeImpl (fun _ => 0%Z) [0] 1 3 IsNotNullSpec.plain_block
      = (Ok tt,
         [mkEntry (Some (ColumnInt64 [5; 0; 7]%Z)) DataTypeInt64 "v";
          mkEntry (Some (ColumnConst (ColumnUInt8 [1%Z]) 3)) DataTypeUInt8
                  "result"])).
Proof.
  destruct isNotNull_negates_null_map as (_ & Hnullable & Hplain). split.
  - refine (proj1 (Hnullable (fun _ => 0%Z) IsNotNullSpec.nullable_block [0] 1 3
                     (ColumnInt64 [5; 0; 7]%Z) [0; 1; 0]%Z eq_refl eq_refl _)).
    simpl; lia.
  - refine (Hplain (fun _ => 0%Z) IsNotNullSpec.plain_block [0] 1 3
              (ColumnInt64 [5; 0; 7]%Z) eq_refl eq_refl _).
    simpl; lia.
Defined.

End IsNotNullProofs.

(** ** The only-null result type *)

Module OnlyNullProofs.

(** C10.  When the declared result type is only-null, [arrayConcat] and
    [arrayPopFront] / [arrayPopBack] write a constant default-value column
    of [input_rows_count] rows at the result position and return: whatever
    the arguments (even none, or columns that are no arrays) and whatever
    the cast would do, nothing is thrown and nothing else is changed. *)
Theorem onlyNull_short_circuit block result input_rows_count e :
  block !! result = Some e ->
  onlyNull (type e) = true ->
  (forall castColumn arguments,
     ArrayConcat.executeImpl castColumn arguments result input_rows_count block
     = (Ok tt, with_result block result
                 (createColumnConstWithDefaultValue (type e) input_rows_count)))
  /\ (forall pop_front name arguments,
        ArrayPop.executeImpl pop_front name arguments result input_rows_count block
        = (Ok tt, with_result block result
                    (createColumnConstWithDefaultValue (type e) input_rows_count)))
  /\ isColumnConst (createColumnConstWithDefaultValue (type e) input_rows_count)
     = true
  /\ size (createColumnConstWithDefaultValue (type e) input_rows_count)
     = input_rows_count.
Proof.
  intros He Hn.
  assert (Hr : result < length block) by (apply lookup_lt_is_Some; eauto).
  assert (Hg : getByPosition result block = (Ok e, block)).
  { unfold getByPosition, at_index. now rewrite He. }
  split; [|split; [|split; reflexivity]].
  - intros castColumn arguments. unfold ArrayConcat.executeImpl.
    rewrite (bind_Ok _ _ _ _ _ Hg). simpl. rewrite Hn.
    now apply setColumn_with_result.
  - intros pop_front name arguments. unfold ArrayPop.executeImpl.
    rewrite (bind_Ok _ _ _ _ _ Hg). simpl. rewrite Hn.
    now apply setColumn_with_result.
Qed.

Example onlyNull_short_circuit_witness :
  (forall castColumn arguments,
     ArrayConcat.executeImpl castColumn arguments 1 5
       [ArraySpec.array_entry (ColumnString ["not an array"]);
        ArraySpec.only_null_entry]
     = (Ok tt,
        [ArraySpec.array_entry (ColumnString ["not an array"]);
         mkEntry (Some (ColumnConst (ColumnNullable (ColumnNothing 1) [1%Z]) 5))
                 (DataTypeNullable DataTypeNothing) "result"]))
  /\ (forall pop_front name arguments,
        ArrayPop.executeImpl pop_front name arguments 1 5
          [ArraySpec.array_entry (ColumnString ["not an array"]);
           ArraySpec.only_null_entry]
        = (Ok tt,
           [ArraySpec.array_entry (ColumnString ["not an array"]);
            mkEntry (Some (ColumnConst (ColumnNullable (ColumnNothing 1) [1%Z]) 5))
                    (DataTypeNullable DataTypeNothing) "result"])).
Proof.
  destruct (onlyNull_short_circuit
              [ArraySpec.array_entry (ColumnString ["not an array"]);
               ArraySpec.only_null_entry] 1 5 ArraySpec.only_null_entry)
    as (Hconcat & Hpop & _); [reflexivity | reflexivity |].
  split; [exact Hconcat | exact Hpop].
Defined.

End OnlyNullProofs.

(** ** Arrays: offsets, sources and sinks *)

Module ArrayProofs.

Import ArraySpec.

(** *** Offsets *)

Lemma nondecreasing_from_lookup (o : list nat) : forall p i a,
  nondecreasing_from p o = true -> o !! i = Some a -> p <= a.
Proof.
  induction o as [|c o IH]; intros p i a H Hi; [discriminate|].
  simpl in H. apply andb_prop in H as [Hp H]. apply Nat.leb_le in Hp.
  destruct i as [|i]; simpl in Hi.
  - injection Hi as <-. assumption.
  - specialize (IH c i a H Hi). lia.
Qed.

Lemma nondecreasing_from_le (o : list nat) : forall p i j a b,
  nondecreasing_from p o = true -> i <= j ->
  o !! i = Some a -> o !! j = Some b -> a <= b.
Proof.
  induction o as [|c o IH]; intros p i j a b H Hij Hi Hj; [discriminate|].
  simpl in H. apply andb_prop in H as [Hp H].
  destruct i as [|i], j as [|j]; simpl in Hi, Hj; try lia.
  - injection Hi as <-. injection Hj as <-. lia.
  - injection Hi as <-. eapply nondecreasing_from_lookup; eassumption.
  - eapply (IH c i j); try eassumption. lia.
Qed.

Lemma lookup_le_last (o : list nat) p i a :
  nondecreasing_from p o = true -> o !! i = Some a -> a <= default 0 (last o).
Proof.
  intros H Hi. rewrite last_lookup.
  assert (Hlt : i < length o) by (eapply lookup_lt_Some; eassumption).
  destruct (lookup_lt_is_Some_2 o (pred (length o))) as [b Hb]; [lia|].
  rewrite Hb. simpl.
  eapply (nondecreasing_from_le o p i (pred (length o))); try eassumption. lia.
Qed.

Lemma wf_array_inv (d : list Field) (o : list nat) :
  wf_array d o = true ->
  nondecreasing_from 0 o = true /\ default 0 (last o) = length d.
Proof.
  unfold wf_array. intros H. apply andb_prop in H as [H1 H2].
  apply Nat.eqb_eq in H2. auto.
Qed.

(** The bounds of a row of a well-formed array lie within its data. *)
Lemma row_bounds (d : list Field) (o : list nat) (r : nat) :
  wf_array d o = true -> r < length o ->
  exists b c,
    GatherUtils.bounds o r = Ok (b, c - b)
    /\ row_begin o r = b /\ o !! r = Some c /\ b <= c /\ c <= length d.
Proof.
  intros Hwf Hr. apply wf_array_inv in Hwf as [Hnd Hlast].
  destruct (lookup_lt_is_Some_2 o r Hr) as [c Hc].
  assert (Hcd : c <= length d).
  { rewrite <- Hlast. eapply lookup_le_last; eassumption. }
  destruct r as [|r].
  - exists 0, c. unfold GatherUtils.bounds, at_index. rewrite Hc. simpl.
    repeat split; auto; lia.
  - destruct (lookup_lt_is_Some_2 o r) as [b Hb]; [lia|].
    exists b, c. unfold GatherUtils.bounds, at_index. rewrite Hb, Hc. simpl.
    rewrite Hb. simpl. repeat split; auto.
    eapply (nondecreasing_from_le o 0 r (S r)); try eassumption. lia.
Qed.

Lemma array_row_bounds (d : list Field) (o : list nat) (r b c : nat) :
  row_begin o r = b -> o !! r = Some c ->
  array_row d o r = take (c - b) (drop b d).
Proof. intros Hb Hc. unfold array_row. now rewrite Hb, Hc. Qed.

Lemma length_array_row (d : list Field) (o : list nat) (r b c : nat) :
  row_begin o r = b -> o !! r = Some c -> b <= c -> c <= length d ->
  length (array_row d o r) = c - b.
Proof.
  intros Hb Hc Hbc Hcd. rewrite (array_row_bounds d o r b c Hb Hc).
  rewrite length_take, length_drop. lia.
Qed.

(** *** Rows laid out one after the other *)

Lemma length_offsets_from (rs : list (list Field)) : forall b,
  length (offsets_from b rs) = length rs.
Proof. induction rs as [|x rs IH]; intros b; simpl; auto. Qed.

Lemma offsets_from_lookup (rs : list (list Field)) : forall b r x,
  rs !! r = Some x ->
  offsets_from b rs !! r = Some (b + length (List.concat (take (S r) rs))).
Proof.
  induction rs as [|y rs IH]; intros b r x Hr; [discriminate|].
  destruct r as [|r]; simpl in *.
  - rewrite ?take_0. simpl. now rewrite ?app_nil_r.
  - rewrite (IH _ _ _ Hr). rewrite length_app. f_equal. simpl. lia.
Qed.

Lemma row_begin_offsets_from (rs : list (list Field)) (r : nat) :
  r <= length rs ->
  row_begin (offsets_from 0 rs) r = length (List.concat (take r rs)).
Proof.
  intros Hr. destruct r as [|r]; simpl; [reflexivity|].
  destruct (lookup_lt_is_Some_2 rs r) as [x Hx]; [lia|].
  now rewrite (offsets_from_lookup _ _ _ _ Hx).
Qed.

(** Reading row [r] back from the layout gives the row that was laid. *)
Lemma array_row_layout (rs : list (list Field)) (r : nat) (x : list Field) :
  rs !! r = Some x ->
  array_row (List.concat rs) (offsets_from 0 rs) r = x.
Proof.
  intros Hx.
  assert (Hr : r < length rs) by (eapply lookup_lt_Some; eassumption).
  unfold array_row.
  rewrite row_begin_offsets_from by lia.
  rewrite (offsets_from_lookup _ _ _ _ Hx). simpl.
  rewrite (take_S_r _ _ _ Hx), concat_app, length_app. simpl.
  rewrite app_nil_r.
  replace (List.concat rs)
    with (List.concat (take r rs) ++ x ++ List.concat (drop (S r) rs))
    by (rewrite <- (take_drop_middle rs r x Hx) at 3;
        now rewrite concat_app).
  rewrite drop_app_length.
  replace (length (List.concat (take r rs)) + length x
           - length (List.concat (take r rs))) with (length x) by lia.
  apply take_app_length.
Qed.

Lemma append_rows_cons sink (x : list Field) (rs : list (list Field)) :
  append_rows
    (GatherUtils.finishRow
       (GatherUtils.mkSink (GatherUtils.sink_elements sink ++ x)
          (GatherUtils.sink_offsets sink) (GatherUtils.sink_rows sink))) rs
  = append_rows sink (x :: rs).
Proof.
  unfold append_rows, GatherUtils.finishRow. simpl.
  rewrite length_app, <- !app_assoc. reflexivity.
Qed.


(** *** Slices written to a sink *)

#[local] Arguments GatherUtils.writeSlice : simpl never.

Lemma writeSlice_whole src sink (b c : nat) :
  b <= c -> c <= length (GatherUtils.elements src) ->
  GatherUtils.writeSlice src (b, c - b) sink
  = Ok (GatherUtils.mkSink
          (GatherUtils.sink_elements sink
             ++ take (c - b) (drop b (GatherUtils.elements src)))
          (GatherUtils.sink_offsets sink) (GatherUtils.sink_rows sink)).
Proof.
  intros Hbc Hc. unfold GatherUtils.writeSlice.
  destruct (decide (b + (c - b) <= length (GatherUtils.elements src)));
    [reflexivity|lia].
Qed.

Lemma writeSlice_sub src sink (b c k len : nat) :
  b <= c -> c <= length (GatherUtils.elements src) -> k + len <= c - b ->
  GatherUtils.writeSlice src (b + k, len) sink
  = Ok (GatherUtils.mkSink
          (GatherUtils.sink_elements sink
             ++ take len (drop k (take (c - b)
                                    (drop b (GatherUtils.elements src)))))
          (GatherUtils.sink_offsets sink) (GatherUtils.sink_rows sink)).
Proof.
  intros Hbc Hc Hk. unfold GatherUtils.writeSlice.
  destruct (decide (b + k + len <= length (GatherUtils.elements src)));
    [|lia].
  do 3 f_equal.
  rewrite (take_drop_commute (take _ _)), take_take.
  replace ((k + len) `min` (c - b)) with (k + len) by lia.
  rewrite <- take_drop_commute, drop_drop. reflexivity.
Qed.

(** *** Concatenation *)

Lemma concat_row_spec (rows r : nat) (cols : list Column) :
  Forall (fun c => wf_argument rows c = true) cols -> r < rows ->
  forall sink,
    GatherUtils.concat_row (map (source_at rows r) cols) sink
    = Ok (map (source_at rows (S r)) cols,
          GatherUtils.mkSink
            (GatherUtils.sink_elements sink ++ concat_row_of cols r)
            (GatherUtils.sink_offsets sink) (GatherUtils.sink_rows sink)).
Proof.
  intros Hwf Hr. induction Hwf as [|c cols Hc Hwf IH]; intros sink.
  - simpl. unfold concat_row_of. simpl. rewrite app_nil_r.
    now destruct sink.
  - assert (Hhead : exists d o q b e,
               source_at rows r c = GatherUtils.mkSource d o q rows r
               /\ source_at rows (S r) c = GatherUtils.mkSource d o q rows (S r)
               /\ GatherUtils.bounds o (if q then 0 else r) = Ok (b, e - b)
               /\ argument_row c r = take (e - b) (drop b d)
               /\ b <= e /\ e <= length d).
    { destruct c as [| | | | | |d o| |[| | | | | |d o| |] s];
        try discriminate Hc; simpl in Hc;
        apply andb_prop in Hc as [Hc Hl]; apply Nat.eqb_eq in Hl.
      - destruct (row_bounds d o r Hc) as (b & e & Hb & Hrb & He & Hbe & Hed);
          [lia|].
        exists d, o, false, b, e. repeat split; auto.
        simpl. now apply array_row_bounds.
      - destruct (row_bounds d o 0 Hc) as (b & e & Hb & Hrb & He & Hbe & Hed);
          [lia|].
        exists d, o, true, b, e. repeat split; auto.
        simpl. now apply array_row_bounds. }
    destruct Hhead as (d & o & q & b & e & Hs & Hs' & Hb & Hrow & Hbe & Hed).
    simpl. rewrite Hs, Hs'. unfold GatherUtils.getWhole. simpl.
    rewrite Hb. simpl.
    rewrite writeSlice_whole by assumption. simpl.
    rewrite IH. simpl. unfold GatherUtils.next. simpl.
    unfold concat_row_of. simpl. rewrite Hrow, app_assoc. reflexivity.
Qed.

Lemma concat_loop_spec (rows : nat) (cols : list Column) :
  Forall (fun c => wf_argument rows c = true) cols ->
  forall n r sink, r + n <= rows ->
    GatherUtils.concat_loop n (map (source_at rows r) cols) sink
    = Ok (append_rows sink (map (concat_row_of cols) (seq r n))).
Proof.
  intros Hwf. induction n as [|n IH]; intros r sink Hn; simpl.
  - unfold append_rows. simpl. rewrite !app_nil_r. now destruct sink.
  - rewrite (concat_row_spec rows r cols Hwf) by lia. simpl.
    rewrite IH by lia. now rewrite append_rows_cons.
Qed.

(** *** Slices from the left *)

Lemma sliceUnbounded_loop_spec (d : list Field) (o : list nat) (total offset : nat) :
  wf_array d o = true ->
  forall n r sink, r + n <= length o ->
    GatherUtils.sliceUnbounded_loop n
      (GatherUtils.mkSource d o false total r) sink offset
    = Ok (append_rows sink (map (unbounded_row_of d o offset) (seq r n))).
Proof.
  intros Hwf. induction n as [|n IH]; intros r sink Hn; simpl.
  - unfold append_rows. simpl. rewrite !app_nil_r. now destruct sink.
  - destruct (row_bounds d o r Hwf) as (b & e & Hb & Hrb & He & Hbe & Hed);
      [lia|].
    unfold GatherUtils.getWhole. simpl. rewrite Hb. simpl.
    assert (Hrow : unbounded_row_of d o offset r
                   = take (e - b - offset `min` (e - b))
                       (drop (offset `min` (e - b)) (take (e - b) (drop b d)))).
    { unfold unbounded_row_of.
      rewrite (length_array_row d o r b e), (array_row_bounds d o r b e)
        by assumption.
      symmetry. apply take_ge.
      rewrite length_drop, length_take, length_drop. lia. }
    rewrite (writeSlice_sub _ _ b e) by (simpl; lia). simpl.
    unfold GatherUtils.next. simpl. rewrite IH by lia.
    rewrite <- append_rows_cons, Hrow. reflexivity.
Qed.

Lemma sliceBounded_loop_spec (d : list Field) (o : list nat) (total offset : nat)
    (len : Z) :
  wf_array d o = true ->
  forall n r sink, r + n <= length o ->
    GatherUtils.sliceBounded_loop n
      (GatherUtils.mkSource d o false total r) sink offset len
    = Ok (append_rows sink (map (bounded_row_of d o offset len) (seq r n))).
Proof.
  intros Hwf. induction n as [|n IH]; intros r sink Hn; simpl.
  - unfold append_rows. simpl. rewrite !app_nil_r. now destruct sink.
  - destruct (row_bounds d o r Hwf) as (b & e & Hb & Hrb & He & Hbe & Hed);
      [lia|].
    unfold GatherUtils.getWhole. simpl. rewrite Hb. simpl.
    assert (Hrow : bounded_row_of d o offset len r
                   = take (Z.to_nat (GatherUtils.requested_end (e - b) offset len)
                             `min` (e - b) - offset)
                          (drop offset (take (e - b) (drop b d)))).
    { unfold bounded_row_of.
      rewrite (length_array_row d o r b e), (array_row_bounds d o r b e)
        by assumption. reflexivity. }
    destruct (decide (offset < Z.to_nat (GatherUtils.requested_end (e - b) offset len)
                                  `min` (e - b))) as [Hlt|Hge].
    + rewrite (writeSlice_sub _ _ b e) by (simpl; lia). simpl.
      unfold GatherUtils.next. simpl. rewrite IH by lia.
      rewrite <- append_rows_cons, Hrow. reflexivity.
    + simpl. unfold GatherUtils.next. simpl. rewrite IH by lia.
      rewrite <- append_rows_cons, Hrow.
      replace (_ `min` _ - offset) with 0 by lia.
      rewrite take_0, app_nil_r. now destruct sink.
Qed.

(** *** Reading the result back *)

Lemma append_rows_empty (rows : nat) (f : nat -> list Field) (n r : nat) :
  r < n ->
  let sink := append_rows (GatherUtils.createArraySink [] [] rows)
                          (map f (seq 0 n)) in
  length (GatherUtils.sink_offsets sink) = n
  /\ array_row (GatherUtils.sink_elements sink) (GatherUtils.sink_offsets sink) r
     = f r.
Proof.
  intros Hr. simpl. split.
  - now rewrite length_offsets_from, length_map, length_seq.
  - apply array_row_layout.
    rewrite list_lookup_fmap, lookup_seq_lt by assumption. reflexivity.
Qed.


(** The rows of a well-formed array, laid out again, give the array. *)
Lemma concat_rows_prefix (d : list Field) (o : list nat) :
  wf_array d o = true ->
  forall k, k <= length o ->
    List.concat (map (array_row d o) (seq 0 k)) = take (row_begin o k) d.
Proof.
  intros Hwf. induction k as [|k IH]; intros Hk; [reflexivity|].
  destruct (row_bounds d o k Hwf) as (b & e & _ & Hrb & He & Hbe & Hed); [lia|].
  rewrite seq_S, map_app, concat_app, IH by lia. simpl.
  rewrite app_nil_r, (array_row_bounds d o k b e), Hrb, He by assumption.
  simpl. rewrite take_take_drop. f_equal. lia.
Qed.

Lemma layout_of_rows (d : list Field) (o : list nat) :
  wf_array d o = true ->
  List.concat (map (array_row d o) (seq 0 (length o))) = d
  /\ offsets_from 0 (map (array_row d o) (seq 0 (length o))) = o.
Proof.
  intros Hwf. split.
  - rewrite (concat_rows_prefix d o Hwf) by lia.
    apply take_ge. apply wf_array_inv in Hwf as [_ Hlast].
    rewrite <- Hlast, last_lookup. destruct o; [simpl; lia|reflexivity].
  - apply list_eq. intros i.
    destruct (decide (i < length o)) as [Hi|Hi].
    + destruct (row_bounds d o i Hwf) as (b & e & _ & Hrb & He & Hbe & Hed);
        [lia|].
      erewrite offsets_from_lookup
        by (rewrite list_lookup_fmap, lookup_seq_lt by assumption; reflexivity).
      rewrite He. f_equal. simpl.
      rewrite <- fmap_take, take_seq.
      replace (S i `min` length o) with (S i) by lia.
      rewrite (concat_rows_prefix d o Hwf) by lia. simpl. rewrite He. simpl.
      rewrite length_take. lia.
    + rewrite !lookup_ge_None_2; [reflexivity|lia|].
      rewrite length_offsets_from, length_map, length_seq. lia.
Qed.

(** *** The calls *)

Lemma getByPosition_Some (block : Block) (i : nat) e :
  block !! i = Some e -> getByPosition i block = (Ok e, block).
Proof. intros H. unfold getByPosition, at_index. now rewrite H. Qed.

Lemma makeSources_spec (rows : nat) (cols : list Column) (block : Block) :
  Forall (fun c => wf_argument rows c = true) cols ->
  ArrayConcat.makeSources (Some <$> cols) rows block
  = (Ok (map (source_at rows 0) cols), block).
Proof.
  intros Hwf. induction Hwf as [|c cols Hc Hwf IH]; [reflexivity|].
  simpl.
  destruct c as [| | | | | |d o| |[| | | | | |d o| |] s]; try discriminate Hc;
    simpl; unfold mbind, M_bind, mret, M_ret; simpl;
    unfold fmap in IH; rewrite IH; reflexivity.
Qed.

Lemma executeImpl_concat castColumn block arguments result rows e t cols :
  block !! result = Some e ->
  type e = DataTypeArray t ->
  ArrayConcat.preprocess castColumn arguments (type e) block
  = (Ok (Some <$> cols), block) ->
  Forall (fun c => wf_argument rows c = true) cols ->
  ArrayConcat.executeImpl castColumn arguments result rows block
  = (Ok tt, with_result block result
              (GatherUtils.sink_column
                 (append_rows (GatherUtils.createArraySink [] [] rows)
                              (map (concat_row_of cols) (seq 0 rows))))).
Proof.
  intros He Ht Hp Hwf.
  assert (Hr : result < length block) by (apply lookup_lt_is_Some; eauto).
  destruct e as [col ty nm]. simpl in Ht, Hp. subst ty.
  unfold ArrayConcat.executeImpl.
  rewrite (bind_Ok _ _ _ _ _ (getByPosition_Some _ _ _ He)). cbv zeta.
  cbn [type onlyNull].
  rewrite (bind_Ok _ _ _ _ _ Hp).
  rewrite (bind_Ok _ _ _ _ _ (makeSources_spec rows cols block Hwf)).
  simpl createColumn. simpl sinkOf.
  erewrite bind_Ok by reflexivity.
  unfold GatherUtils.concat. simpl GatherUtils.sink_rows.
  rewrite (concat_loop_spec rows cols Hwf) by lia.
  erewrite bind_Ok by reflexivity.
  now apply setColumn_with_result.
Qed.

Lemma executeImpl_pop pop_front name block arguments result rows e t d o :
  block !! result = Some e ->
  type e = DataTypeArray t ->
  argument_column block arguments 0 = Some (ColumnArray d o) ->
  wf_array d o = true ->
  ArrayPop.executeImpl pop_front name arguments result rows block
  = (Ok tt, with_result block result
              (GatherUtils.sink_column
                 (append_rows (GatherUtils.createArraySink [] [] (length o))
                    (map (if pop_front then unbounded_row_of d o 1
                          else bounded_row_of d o 0 (-1))
                         (seq 0 (length o)))))).
Proof.
  intros He Ht Ha Hwf.
  assert (Hr : result < length block) by (apply lookup_lt_is_Some; eauto).
  destruct e as [col ty nm]. simpl in Ht. subst ty.
  unfold ArrayPop.executeImpl.
  rewrite (bind_Ok _ _ _ _ _ (getByPosition_Some _ _ _ He)). cbv zeta.
  cbn [type onlyNull].
  rewrite (read_argument _ _ _ _ _ Ha).
  erewrite bind_Ok by reflexivity.
  simpl createColumn. simpl sinkOf. simpl size.
  erewrite bind_Ok by reflexivity.
  unfold GatherUtils.sliceFromLeftConstantOffsetUnbounded,
    GatherUtils.sliceFromLeftConstantOffsetBounded, GatherUtils.createArraySource.
  simpl GatherUtils.total_rows.
  destruct pop_front.
  - rewrite (sliceUnbounded_loop_spec d o _ 1 Hwf) by lia.
    erewrite bind_Ok by reflexivity. now apply setColumn_with_result.
  - rewrite (sliceBounded_loop_spec d o _ 0 (-1) Hwf) by lia.
    erewrite bind_Ok by reflexivity. now apply setColumn_with_result.
Qed.


Lemma bounded_row_pop_back (d : list Field) (o : list nat) (r : nat) :
  bounded_row_of d o 0 (-1) r
  = take (length (array_row d o r) - 1) (array_row d o r).
Proof.
  unfold bounded_row_of, GatherUtils.requested_end. simpl.
  rewrite drop_0. f_equal. lia.
Qed.

(** The first loop hands on, for each argument in order, the column of
    the entry when its type is the return type and the column the cast
    returned otherwise. *)
Lemma preprocess_after_cast castColumn (block : Block) (return_type : DataType)
    (arguments : ColumnNumbers) (cols : list Column) :
  Forall2 (fun a c =>
             argument_after_cast castColumn block return_type a = Some c)
          arguments cols ->
  ArrayConcat.preprocess castColumn arguments return_type block
  = (Ok (Some <$> cols), block).
Proof.
  intros H. induction H as [|a c arguments cols Ha _ IH]; [reflexivity|].
  unfold argument_after_cast in Ha.
  destruct (block !! a) as [arg|] eqn:Harg; simpl in Ha; [|discriminate].
  simpl. rewrite (bind_Ok _ _ _ _ _ (getByPosition_Some _ _ _ Harg)).
  unfold equals.
  destruct (decide (type arg = return_type)) as [Hty|Hty].
  - rewrite bool_decide_eq_true_2 by assumption. simpl.
    rewrite (bind_Ok _ _ block block (Some c)) by (now rewrite Ha).
    now rewrite (bind_Ok _ _ _ _ _ IH).
  - rewrite bool_decide_eq_false_2 by assumption. simpl.
    destruct (castColumn arg return_type) as [p| |] eqn:Hcast;
      try discriminate Ha. subst p.
    rewrite (bind_Ok _ _ block block (Some c)) by reflexivity.
    now rewrite (bind_Ok _ _ _ _ _ IH).
Qed.

(** *** The claims *)

(** C2.  For a call on the arguments of the block, each taken as it is
    after the cast to the return type (the column of the entry when its
    type is the return type, the column the cast returns otherwise), every
    row [r] of the column [arrayConcat] writes is the concatenation, in
    argument order, of the arguments' rows [r], so its length is the sum
    of their lengths; and a single array argument whose type equals the
    return type comes back as it was. *)
Theorem arrayConcat_rows_are_concatenations :
  (forall castColumn block arguments result rows e t cols,
     block !! result = Some e ->
     type e = DataTypeArray t ->
     Forall2 (fun a c =>
                argument_after_cast castColumn block (type e) a = Some c)
             arguments cols ->
     Forall (fun c => wf_argument rows c = true) cols ->
     exists d o,
       ArrayConcat.executeImpl castColumn arguments result rows block
       = (Ok tt, with_result block result (ColumnArray d o))
       /\ length o = rows
       /\ forall r, r < rows ->
            array_row d o r = List.concat (map (fun c => argument_row c r) cols)
            /\ length (array_row d o r)
               = list_sum (map (fun c => length (argument_row c r)) cols))
  /\ (forall castColumn block a result rows e t arg d o,
        block !! result = Some e ->
        type e = DataTypeArray t ->
        block !! a = Some arg ->
        type arg = type e ->
        column arg = Some (ColumnArray d o) ->
        wf_array d o = true ->
        length o = rows ->
        ArrayConcat.executeImpl castColumn [a] result rows block
        = (Ok tt, with_result block result (ColumnArray d o))).
Proof.
  split.
  - intros castColumn block arguments result rows e t cols He Ht Hcast Hwf.
    pose proof (preprocess_after_cast _ _ _ _ _ Hcast) as Hp.
    eexists _, _. split; [|split].
    + rewrite (executeImpl_concat _ _ _ _ _ _ _ _ He Ht Hp Hwf). reflexivity.
    + simpl. now rewrite length_offsets_from, length_map, length_seq.
    + intros r Hr.
      destruct (append_rows_empty rows (concat_row_of cols) rows r Hr) as [_ H].
      simpl in H. simpl. rewrite H. split; [reflexivity|].
      unfold concat_row_of. now rewrite length_concat, map_map.
  - intros castColumn block a result rows e t arg d o He Ht Ha Hty Hc Hwf Hl.
    assert (Hp : ArrayConcat.preprocess castColumn [a] (type e) block
                 = (Ok (Some <$> [ColumnArray d o]), block)).
    { simpl. rewrite (bind_Ok _ _ _ _ _ (getByPosition_Some _ _ _ Ha)).
      unfold equals. rewrite bool_decide_eq_true_2 by assumption. simpl.
      rewrite Hc. reflexivity. }
    assert (Hcols : Forall (fun c => wf_argument rows c = true) [ColumnArray d o]).
    { constructor; [|constructor]. simpl. rewrite Hwf. simpl.
      now apply Nat.eqb_eq. }
    rewrite (executeImpl_concat _ _ _ _ _ _ _ _ He Ht Hp Hcols).
    do 2 f_equal. unfold GatherUtils.sink_column. simpl.
    destruct (layout_of_rows d o Hwf) as [Hd Ho].
    assert (Hrows : map (concat_row_of [ColumnArray d o]) (seq 0 rows)
                    = map (array_row d o) (seq 0 (length o))).
    { rewrite Hl. apply map_ext. intros r. unfold concat_row_of. simpl.
      apply app_nil_r. }
    rewrite Hrows, Hd, Ho. reflexivity.
Qed.

(** C3.  [arrayPopFront]: for an array column, every row of the column
    written is the slice [min(1, n), n) of the input row of length [n]: a
    non-empty row loses exactly its first element, an empty row stays
    empty, and nothing is thrown. *)
Theorem arrayPopFront_drops_first name block arguments result rows e t d o :
  block !! result = Some e ->
  type e = DataTypeArray t ->
  argument_column block arguments 0 = Some (ColumnArray d o) ->
  wf_array d o = true ->
  exists d' o',
    ArrayPop.executeImpl true name arguments result rows block
    = (Ok tt, with_result block result (ColumnArray d' o'))
    /\ length o' = length o
    /\ forall r, r < length o ->
         let row := array_row d o r in
         array_row d' o' r = drop (1 `min` length row) row
         /\ (forall x xs, row = x :: xs -> array_row d' o' r = xs)
         /\ (row = [] -> array_row d' o' r = []).
Proof.
  intros He Ht Ha Hwf. eexists _, _. split; [|split].
  - rewrite (executeImpl_pop true _ _ _ _ _ _ _ _ _ He Ht Ha Hwf). reflexivity.
  - simpl. now rewrite length_offsets_from, length_map, length_seq.
  - intros r Hr row.
    destruct (append_rows_empty (length o) (unbounded_row_of d o 1)
                (length o) r Hr) as [_ H].
    simpl in H. simpl. rewrite H. unfold unbounded_row_of. fold row.
    split; [reflexivity|]. split.
    + intros x xs ->. reflexivity.
    + intros ->. reflexivity.
Qed.

(** C4.  [arrayPopBack]: for an array column, every row of the column
    written is the slice [0, n - 1) of the input row of length [n]: a
    non-empty row loses exactly its last element, an empty row stays
    empty, and nothing is thrown. *)
Theorem arrayPopBack_drops_last name block arguments result rows e t d o :
  block !! result = Some e ->
  type e = DataTypeArray t ->
  argument_column block arguments 0 = Some (ColumnArray d o) ->
  wf_array d o = true ->
  exists d' o',
    ArrayPop.executeImpl false name arguments result rows block
    = (Ok tt, with_result block result (ColumnArray d' o'))
    /\ length o' = length o
    /\ forall r, r < length o ->
         let row := array_row d o r in
         array_row d' o' r = take (length row - 1) row
         /\ (forall xs x, row = xs ++ [x] -> array_row d' o' r = xs)
         /\ (row = [] -> array_row d' o' r = []).
Proof.
  intros He Ht Ha Hwf. eexists _, _. split; [|split].
  - rewrite (executeImpl_pop false _ _ _ _ _ _ _ _ _ He Ht Ha Hwf). reflexivity.
  - simpl. now rewrite length_offsets_from, length_map, length_seq.
  - intros r Hr row.
    destruct (append_rows_empty (length o) (bounded_row_of d o 0 (-1))
                (length o) r Hr) as [_ H].
    simpl in H. simpl. rewrite H, bounded_row_pop_back. fold row.
    split; [reflexivity|]. split.
    + intros xs x ->. rewrite length_app. simpl.
      replace (length xs + 1 - 1) with (length xs) by lia.
      apply take_app_length.
    + intros ->. reflexivity.
Qed.

(** *** The claims on examples *)

(** [arrayConcat([[1,2,3],[],[4]], const [7,8])]. *)
Example arrayConcat_example :
  ArrayConcat.executeImpl no_cast [0; 1] 2 3
    [array_entry example_array; array_entry example_const_array; result_entry]
  = (Ok tt,
     [array_entry example_array; array_entry example_const_array;
      mkEntry (Some (ColumnArray
                       [Int64F 1; Int64F 2; Int64F 3; Int64F 7; Int64F 8;
                        Int64F 7; Int64F 8; Int64F 4; Int64F 7; Int64F 8]
                       [5; 7; 10]))
              (DataTypeArray DataTypeInt64) "result"]).
Proof. reflexivity. Qed.

(** [arrayConcat([[1,2,3],[],[4]], [[7],[],[8]])], the second argument
    being of another element type and cast first. *)
Example arrayConcat_example_with_cast :
  ArrayConcat.executeImpl widening_cast [0; 1] 2 3
    [array_entry example_array; unsigned_array_entry; result_entry]
  = (Ok tt,
     [array_entry example_array; unsigned_array_entry;
      mkEntry (Some (ColumnArray
                       [Int64F 1; Int64F 2; Int64F 3; Int64F 7; Int64F 4;
                        Int64F 8]
                       [4; 4; 6]))
              (DataTypeArray DataTypeInt64) "result"]).
Proof. reflexivity. Qed.

(** [arrayPopFront([[1,2,3],[],[4]])] and [arrayPopBack] of the same. *)
Example arrayPopFront_example :
  ArrayPop.executeImpl true "arrayPopFront" [0] 1 3
    [array_entry example_array; result_entry]
  = (Ok tt,
     [array_entry example_array;
      mkEntry (Some (ColumnArray [Int64F 2; Int64F 3] [2; 2; 2]))
              (DataTypeArray DataTypeInt64) "result"]).
Proof. reflexivity. Qed.

Example arrayPopBack_example :
  ArrayPop.executeImpl false "arrayPopBack" [0] 1 3
    [array_entry example_array; result_entry]
  = (Ok tt,
     [array_entry example_array;
      mkEntry (Some (ColumnArray [Int64F 1; Int64F 2] [2; 2; 2]))
              (DataTypeArray DataTypeInt64) "result"]).
Proof. reflexivity. Qed.

Example arrayConcat_rows_are_concatenations_witness :
  (exists d o,
     ArrayConcat.executeImpl widening_cast [0; 1; 2] 3 3
       [array_entry example_array; unsigned_array_entry;
        array_entry example_const_array; result_entry]
     = (Ok tt,
        with_result
          [array_entry example_array; unsigned_array_entry;
           array_entry example_const_array; result_entry] 3 (ColumnArray d o))
     /\ length o = 3
     /\ forall r, r < 3 ->
          array_row d o r
          = List.concat (map (fun c => argument_row c r)
                             [example_array; example_widened_array;
                              example_const_array])
          /\ length (array_row d o r)
             = list_sum (map (fun c => length (argument_row c r))
                             [example_array; example_widened_array;
                              example_const_array]))
  /\ ArrayConcat.executeImpl no_cast [0] 1 3
       [array_entry example_array; result_entry]
     = (Ok tt,
        with_result [array_entry example_array; result_entry] 1 example_array).
Proof.
  destruct arrayConcat_rows_are_concatenations as [Hrows Hone]. split.
  - apply (Hrows widening_cast _ [0; 1; 2] 3 3 result_entry DataTypeInt64
             [example_array; example_widened_array; example_const_array]);
      [reflexivity | reflexivity | repeat constructor | repeat constructor].
  - apply (Hone no_cast _ 0 1 3 result_entry DataTypeInt64
             (array_entry example_array)); reflexivity.
Defined.

Example arrayPopFront_drops_first_witness :
  exists d' o',
    ArrayPop.executeImpl true "arrayPopFront" [0] 1 3
      [array_entry example_array; result_entry]
    = (Ok tt,
       with_result [array_entry example_array; result_entry] 1
                   (ColumnArray d' o'))
    /\ length o' = 3
    /\ forall r, r < 3 ->
         let row := array_row [Int64F 1; Int64F 2; Int64F 3; Int64F 4]
                              [3; 3; 4] r in
         array_row d' o' r = drop (1 `min` length row) row
         /\ (forall x xs, row = x :: xs -> array_row d' o' r = xs)
         /\ (row = [] -> array_row d' o' r = []).
Proof.
  apply (arrayPopFront_drops_first "arrayPopFront"
           [array_entry example_array; result_entry] [0] 1 3 result_entry
           DataTypeInt64 [Int64F 1; Int64F 2; Int64F 3; Int64F 4] [3; 3; 4]);
    reflexivity.
Defined.

Example arrayPopBack_drops_last_witness :
  exists d' o',
    ArrayPop.executeImpl false "arrayPopBack" [0] 1 3
      [array_entry example_array; result_entry]
    = (Ok tt,
       with_result [array_entry example_array; result_entry] 1
                   (ColumnArray d' o'))
    /\ length o' = 3
    /\ forall r, r < 3 ->
         let row := array_row [Int64F 1; Int64F 2; Int64F 3; Int64F 4]
                              [3; 3; 4] r in
         array_row d' o' r = take (length row - 1) row
         /\ (forall xs x, row = xs ++ [x] -> array_row d' o' r = xs)
         /\ (row = [] -> array_row d' o' r = []).
Proof.
  apply (arrayPopBack_drops_last "arrayPopBack"
           [array_entry example_array; result_entry] [0] 1 3 result_entry
           DataTypeInt64 [Int64F 1; Int64F 2; Int64F 3; Int64F 4] [3; 3; 4]);
    reflexivity.
Defined.

End ArrayProofs.

(** * Further properties *)

(** ** What a call does to the block *)

Module EffectsProofs.

Import Effects.

Lemma reads_only_ret {A : Type} (a : A) : reads_only (mret a).
Proof. intros b. reflexivity. Qed.

Lemma reads_only_lift {A : Type} (r : Result A) : reads_only (lift r).
Proof. intros b. reflexivity. Qed.

Lemma reads_only_throw {A : Type} msg c : reads_only (@throw A msg c).
Proof. intros b. reflexivity. Qed.

Lemma reads_only_getByPosition i : reads_only (getByPosition i).
Proof. intros b. reflexivity. Qed.

Lemma reads_only_deref p : reads_only (deref p).
Proof. destruct p; intros b; reflexivity. Qed.

Lemma reads_only_read {A : Type} (f : Block -> Result A) :
  reads_only (fun b => (f b, b)).
Proof. intros b. reflexivity. Qed.

Lemma reads_only_bind {A B : Type} (m : M A) (f : A -> M B) :
  reads_only m -> (forall a, reads_only (f a)) -> reads_only (m ≫= f).
Proof.
  intros Hm Hf b. unfold mbind, M_bind. specialize (Hm b).
  destruct (m b) as [[a| |] b']; simpl in *; subst; auto. apply Hf.
Qed.

Lemma with_result_frame (b : Block) (result : nat) (c : Column) :
  length (with_result b result c) = length b
  /\ type <$> with_result b result c = type <$> b
  /\ name <$> with_result b result c = name <$> b
  /\ forall i, i <> result -> with_result b result c !! i = b !! i.
Proof.
  unfold with_result. destruct (b !! result) as [e|] eqn:He; [|auto].
  split; [apply length_insert|]. split; [|split].
  - rewrite list_fmap_insert. apply list_insert_id.
    now rewrite list_lookup_fmap, He.
  - rewrite list_fmap_insert. apply list_insert_id.
    now rewrite list_lookup_fmap, He.
  - intros i Hi. now apply list_lookup_insert_ne.
Qed.

Lemma one_write_setColumn result (P : Column -> Prop) c :
  P c -> one_write result P (setColumn result c).
Proof.
  intros HP b. unfold setColumn, with_result.
  destruct (b !! result) as [e|] eqn:He.
  - left. exists c. repeat split; auto. apply lookup_lt_is_Some; eauto.
  - right. split; [discriminate|reflexivity].
Qed.

Lemma one_write_throw result (P : Column -> Prop) msg c :
  one_write result P (throw msg c).
Proof. intros b. right. split; [discriminate|reflexivity]. Qed.

Lemma one_write_bind {A : Type} result (P : Column -> Prop) (Q : A -> Prop)
    (m : M A) (f : A -> M unit) :
  reads_only m -> returns Q m ->
  (forall a, Q a -> one_write result P (f a)) ->
  one_write result P (m ≫= f).
Proof.
  intros Hm HQ Hf b. unfold mbind, M_bind.
  specialize (Hm b). specialize (HQ b).
  destruct (m b) as [[a| |] b']; simpl in *; subst.
  - apply Hf. eapply HQ. reflexivity.
  - right. split; [discriminate|reflexivity].
  - right. split; [discriminate|reflexivity].
Qed.

Lemma returns_True {A : Type} (m : M A) : returns (fun _ => True) m.
Proof. intros b a b' _. exact I. Qed.

Lemma one_write_bind' {A : Type} result (P : Column -> Prop)
    (m : M A) (f : A -> M unit) :
  reads_only m ->
  (forall a, one_write result P (f a)) ->
  one_write result P (m ≫= f).
Proof.
  intros Hm Hf. apply (one_write_bind result P (fun _ => True)); auto.
  apply returns_True.
Qed.

Lemma one_write_weaken result (P P' : Column -> Prop) (m : M unit) :
  (forall c, P c -> P' c) -> one_write result P m -> one_write result P' m.
Proof.
  intros HPP Hm b. destruct (Hm b) as [(c & H1 & H2 & H3)|H]; [left|right; auto].
  exists c. auto.
Qed.

(** The shape every property of this section has: the outcome of a
    call, and what became of the rest of the block. *)
Lemma one_write_outcome result (P : Column -> Prop) (m : M unit) (b : Block) :
  one_write result P m ->
  ((exists c, m b = (Ok tt, with_result b result c)
              /\ result < length b /\ P c)
   \/ ((m b).1 <> Ok tt /\ (m b).2 = b))
  /\ length (m b).2 = length b
  /\ type <$> (m b).2 = type <$> b
  /\ name <$> (m b).2 = name <$> b
  /\ forall i, i <> result -> (m b).2 !! i = b !! i.
Proof.
  intros Hm. split; [apply Hm|].
  destruct (Hm b) as [(c & -> & _ & _)|[_ ->]]; [|auto].
  apply with_result_frame.
Qed.

End EffectsProofs.

(** ** dateDiff, further *)

Module DateDiffExtra.

Import DateDiff DateDiffSpec Effects EffectsProofs.

Lemma fill_loop_length {A : Type} (f : nat -> Result A) n :
  forall i res res', fill_loop f n i res = Ok res' -> length res' = length res.
Proof.
  induction n as [|n IH]; intros i res res' H; simpl in H.
  - now injection H as <-.
  - destruct (f i) as [v| |]; simpl in H; try discriminate.
    unfold store in H.
    destruct (decide (i < length res)); simpl in H; [|discriminate].
    apply IH in H. now rewrite length_insert in H.
Qed.

Section WithTransforms.

Variable DateLUTImpl : Type.

Variables ToRelativeYearNumImpl ToRelativeQuarterNumImpl
  ToRelativeMonthNumImpl ToRelativeWeekNumImpl ToRelativeDayNumImpl
  ToRelativeHourNumImpl ToRelativeMinuteNumImpl
  ToRelativeSecondNumImpl : Transform DateLUTImpl.

Variable extractTimeZoneFromFunctionArguments :
  Block -> ColumnNumbers -> nat -> nat -> Result DateLUTImpl.

Variable uninitialized : nat -> Z.

Local Abbreviation calculate := (calculate DateLUTImpl).
Local Abbreviation dispatchForColumns := (dispatchForColumns DateLUTImpl).
Local Abbreviation selectTransform :=
  (selectTransform DateLUTImpl ToRelativeYearNumImpl ToRelativeQuarterNumImpl
     ToRelativeMonthNumImpl ToRelativeWeekNumImpl ToRelativeDayNumImpl
     ToRelativeHourNumImpl ToRelativeMinuteNumImpl ToRelativeSecondNumImpl).
Local Abbreviation executeImpl :=
  (executeImpl DateLUTImpl ToRelativeYearNumImpl ToRelativeQuarterNumImpl
     ToRelativeMonthNumImpl ToRelativeWeekNumImpl ToRelativeDayNumImpl
     ToRelativeHourNumImpl ToRelativeMinuteNumImpl ToRelativeSecondNumImpl
     extractTimeZoneFromFunctionArguments uninitialized).
Local Abbreviation executeImpl_run :=
  (DateDiffProofs.executeImpl_run DateLUTImpl ToRelativeYearNumImpl
     ToRelativeQuarterNumImpl ToRelativeMonthNumImpl ToRelativeWeekNumImpl
     ToRelativeDayNumImpl ToRelativeHourNumImpl ToRelativeMinuteNumImpl
     ToRelativeSecondNumImpl extractTimeZoneFromFunctionArguments
     uninitialized).
Local Abbreviation executeImpl_rows :=
  (DateDiffProofs.executeImpl_rows DateLUTImpl ToRelativeYearNumImpl
     ToRelativeQuarterNumImpl ToRelativeMonthNumImpl ToRelativeWeekNumImpl
     ToRelativeDayNumImpl ToRelativeHourNumImpl ToRelativeMinuteNumImpl
     ToRelativeSecondNumImpl extractTimeZoneFromFunctionArguments
     uninitialized).
Local Abbreviation extractTimeZone := extractTimeZoneFromFunctionArguments.

Implicit Types (T : Transform DateLUTImpl) (x y : Column) (tzx tzy : DateLUTImpl).

Lemma dispatchForColumns_length T x y tzx tzy (res res' : list Z) :
  dispatchForColumns T x y tzx tzy res = Ok res' -> length res' = length res.
Proof.
  unfold DateDiff.dispatchForColumns.
  destruct (checkAndGetColumn x) as [[e1 xv]|].
  - unfold dispatchForSecondColumn.
    destruct (checkAndGetColumn y) as [[e2 yv]|].
    + unfold vector_vector. rewrite DateDiffProofs.vector_vector_loop_fill.
      apply fill_loop_length.
    + destruct (checkAndGetColumnConst y) as [[e2 yc]|]; [|discriminate].
      destruct (getValue yc); simpl; try discriminate.
      unfold vector_constant. rewrite DateDiffProofs.vector_constant_loop_fill.
      apply fill_loop_length.
  - destruct (checkAndGetColumnConst x) as [[e1 xc]|]; [|discriminate].
    destruct (getValue xc); simpl; try discriminate.
    unfold dispatchConstForSecondColumn.
    destruct (checkAndGetColumn y) as [[e2 yv]|]; [|discriminate].
    unfold constant_vector. rewrite DateDiffProofs.constant_vector_loop_fill.
    apply fill_loop_length.
Qed.

Lemma dateDiff_one_write arguments result rows :
  one_write result
    (fun c => exists res, c = ColumnInt64 res /\ length res = rows)
    (executeImpl arguments result rows).
Proof.
  unfold DateDiff.executeImpl.
  apply one_write_bind'; [apply reads_only_lift|intros a0].
  apply one_write_bind'; [apply reads_only_getByPosition|intros e0].
  apply one_write_bind'; [apply reads_only_deref|intros c0].
  destruct (checkAndGetColumnConst_String c0) as [uc|]; [|apply one_write_throw].
  apply one_write_bind'; [apply reads_only_lift|intros v]. cbv zeta.
  apply one_write_bind'; [apply reads_only_lift|intros a1].
  apply one_write_bind'; [apply reads_only_getByPosition|intros e1].
  apply one_write_bind'; [apply reads_only_deref|intros x].
  apply one_write_bind'; [apply reads_only_lift|intros a2].
  apply one_write_bind'; [apply reads_only_getByPosition|intros e2].
  apply one_write_bind'; [apply reads_only_deref|intros y].
  apply one_write_bind';
    [apply (reads_only_read (fun b => extractTimeZone b arguments 3 1))
    |intros tzx].
  apply one_write_bind';
    [apply (reads_only_read (fun b => extractTimeZone b arguments 3 2))
    |intros tzy].
  apply (one_write_bind result _ (fun res' : list Z => length res' = rows)).
  - destruct (selectTransform (toLower v));
      [apply reads_only_lift|apply reads_only_throw].
  - intros b r b' H.
    destruct (selectTransform (toLower v)); [|discriminate].
    unfold lift in H. injection H as H _.
    apply dispatchForColumns_length in H.
    now rewrite DateDiffProofs.length_ColumnInt64_create in H.
  - intros res' Hl. apply one_write_setColumn. eauto.
Qed.

(** X1.  A call of [dateDiff], whatever it is given, either writes one
    [Int64] column of [input_rows_count] rows at the result position and
    returns, or does not return and leaves the block as it was; in both
    cases every other entry, and every type and name, is kept. *)
Theorem dateDiff_writes_result_or_nothing arguments result rows block :
  let out := executeImpl arguments result rows block in
  ((exists res, out = (Ok tt, with_result block result (ColumnInt64 res))
                /\ length res = rows /\ result < length block)
   \/ (out.1 <> Ok tt /\ out.2 = block))
  /\ length out.2 = length block
  /\ type <$> out.2 = type <$> block
  /\ name <$> out.2 = name <$> block
  /\ forall i, i <> result -> out.2 !! i = block !! i.
Proof.
  intros out.
  destruct (one_write_outcome result _ _ block
              (dateDiff_one_write arguments result rows))
    as (Hout & Hframe).
  split; [|exact Hframe].
  destruct Hout as [(c & Hc & Hr & res & -> & Hl)|H]; [left|right; exact H].
  exists res. auto.
Qed.

(** X2.  A unit argument that is not a constant string is refused with
    [ILLEGAL_COLUMN] before anything else is looked at: whatever the other
    arguments, the time zones and the row count, and the block is left as
    it was. *)
Theorem dateDiff_unit_must_be_constant_string
    block arguments result rows c :
  argument_column block arguments 0 = Some c ->
  checkAndGetColumnConst_String c = None ->
  executeImpl arguments result rows block
  = (Throw (mkException
              "First argument for function dateDiff must be constant String"
              ILLEGAL_COLUMN), block).
Proof.
  intros Ha Hc. unfold DateDiff.executeImpl.
  rewrite (read_argument _ _ _ _ _ Ha), Hc. reflexivity.
Qed.

(** X3.  Resolution failures of the dispatcher, for columns whose
    constants hold one value: a first temporal argument that is neither a
    [UInt16]/[UInt32] vector nor such a constant is refused with
    [ILLEGAL_COLUMN] for the first argument, whatever the second is; with
    a legal first argument, a second one that is no such vector or
    constant, or a constant next to a constant, is refused with
    [ILLEGAL_COLUMN] for the second argument.  The block is left as it
    was. *)
Theorem dateDiff_illegal_columns
    block arguments result rows u s0 x y T tzx tzy :
  argument_column block arguments 0 = Some (ColumnConst (ColumnString [u]) s0) ->
  argument_column block arguments 1 = Some x ->
  argument_column block arguments 2 = Some y ->
  extractTimeZone block arguments 3 1 = Ok tzx ->
  extractTimeZone block arguments 3 2 = Ok tzy ->
  selectTransform (toLower u) = Some T ->
  const_invariant x = true -> const_invariant y = true ->
  (supported x = false ->
   executeImpl arguments result rows block = (Throw illegal_first, block))
  /\ (supported x = true -> supported_pair x y = false ->
      executeImpl arguments result rows block = (Throw illegal_second, block)).
Proof.
  intros H0 H1 H2 Hx Hy HT Hix Hiy.
  rewrite (executeImpl_run _ _ _ _ _ _ _ _ H0 H1 H2), Hx, Hy, HT.
  split.
  - intros Hs.
    assert (Hd : forall res, dispatchForColumns T x y tzx tzy res
                             = Throw illegal_first).
    { intros res.
      destruct x as [| | | | | | | |[| | [|? [|]] | [|? [|]] | | | | |] sx];
        try discriminate Hs; try discriminate Hix; reflexivity. }
    now rewrite Hd.
  - intros Hs Hp.
    assert (Hd : forall res, dispatchForColumns T x y tzx tzy res
                             = Throw illegal_second).
    { intros res. unfold supported_pair in Hp. rewrite Hs in Hp. simpl in Hp.
      destruct x as [| | | | | | | |[| | [|? [|]] | [|? [|]] | | | | |] sx];
        try discriminate Hs;
        destruct y as [| | | | | | | |[| | [|? [|]] | [|? [|]] | | | | |] sy];
        try discriminate Hp; try discriminate Hiy; reflexivity. }
    now rewrite Hd.
Qed.

(** X4.  A time zone that cannot be extracted is reported first: the
    exception of the extraction, for the first temporal argument and then
    for the second, is what the call throws, whether or not the unit is
    recognised and the temporal columns are legal. *)
Theorem dateDiff_time_zone_error_first
    block arguments result rows u s0 x y ex :
  argument_column block arguments 0 = Some (ColumnConst (ColumnString [u]) s0) ->
  argument_column block arguments 1 = Some x ->
  argument_column block arguments 2 = Some y ->
  extractTimeZone block arguments 3 1 = Throw ex
  \/ (exists tzx, extractTimeZone block arguments 3 1 = Ok tzx
                  /\ extractTimeZone block arguments 3 2 = Throw ex) ->
  executeImpl arguments result rows block = (Throw ex, block).
Proof.
  intros H0 H1 H2 Htz.
  rewrite (executeImpl_run _ _ _ _ _ _ _ _ H0 H1 H2).
  destruct Htz as [->|(tzx & -> & ->)]; reflexivity.
Qed.

(** X5.  The difference of a column with itself: with one time zone for
    both arguments, a call whose two temporal arguments are the same
    vector writes a column of zeros. *)
Theorem dateDiff_self_is_zero
    block arguments result rows u s0 x T tz :
  argument_column block arguments 0 = Some (ColumnConst (ColumnString [u]) s0) ->
  argument_column block arguments 1 = Some x ->
  argument_column block arguments 2 = Some x ->
  extractTimeZone block arguments 3 1 = Ok tz ->
  extractTimeZone block arguments 3 2 = Ok tz ->
  selectTransform (toLower u) = Some T ->
  supported x = true -> isColumnConst x = false -> size x = rows ->
  result < length block ->
  executeImpl arguments result rows block
  = (Ok tt, with_result block result (ColumnInt64 (replicate rows 0%Z))).
Proof.
  intros H0 H1 H2 Hx Hy HT Hs Hc Hsz Hr.
  assert (Hp : supported_pair x x = true).
  { unfold supported_pair. now rewrite Hs, Hc. }
  rewrite (executeImpl_rows _ _ _ _ u s0 x x T tz tz) by assumption.
  do 3 f_equal. apply list_eq. intros i.
  rewrite list_lookup_fmap.
  destruct (decide (i < rows)) as [Hi|Hi].
  - rewrite lookup_seq_lt, lookup_replicate_2 by assumption. simpl. f_equal.
    destruct (DateDiffProofs.value_at_is_Some x rows i Hs Hsz Hi)
      as [[e xi] Hv].
    unfold expected, recompute. rewrite Hv. simpl.
    unfold Int64_sub. now rewrite Z.sub_diag.
  - rewrite lookup_seq_ge by lia. symmetry. apply lookup_replicate_None. lia.
Qed.

(** X6.  Differences chain: in 64-bit arithmetic, the difference from
    [a] to [c] is the sum of the differences from [a] to [b] and from
    [b] to [c], each value keeping its time zone and encoding. *)
Theorem dateDiff_calculate_chain T e1 e2 e3 a b c tza tzb tzc :
  calculate T e1 e3 a c tza tzc
  = Int64 (calculate T e1 e2 a b tza tzb + calculate T e2 e3 b c tzb tzc).
Proof.
  unfold DateDiff.calculate, Int64_sub. apply DateDiffProofs.Int64_congr.
  set (va := Int64 (execute DateLUTImpl T e1 a tza)).
  set (vb := Int64 (execute DateLUTImpl T e2 b tzb)).
  set (vc := Int64 (execute DateLUTImpl T e3 c tzc)).
  destruct (DateDiffProofs.Int64_wraps (vb - va)) as [k ->].
  destruct (DateDiffProofs.Int64_wraps (vc - vb)) as [k' ->].
  replace (vb - va + k * 2 ^ 64 + (vc - vb + k' * 2 ^ 64))%Z
    with (vc - va + (k + k') * 2 ^ 64)%Z by lia.
  now rewrite Z_mod_plus_full.
Qed.

(** X7.  No wrap-around for transforms of moderate size: when both
    transformed values lie within 62 bits, [calculate] is their
    difference as integers. *)
Theorem dateDiff_calculate_exact T e1 e2 a b tza tzb :
  (- 2 ^ 62 <= execute DateLUTImpl T e1 a tza < 2 ^ 62)%Z ->
  (- 2 ^ 62 <= execute DateLUTImpl T e2 b tzb < 2 ^ 62)%Z ->
  calculate T e1 e2 a b tza tzb
  = (execute DateLUTImpl T e2 b tzb - execute DateLUTImpl T e1 a tza)%Z.
Proof.
  intros Ha Hb.
  assert (Hsmall : forall v, (- 2 ^ 63 <= v < 2 ^ 63)%Z -> Int64 v = v).
  { intros v Hv. unfold Int64. rewrite Z.mod_small by lia. lia. }
  unfold DateDiff.calculate, Int64_sub.
  rewrite (Hsmall (execute DateLUTImpl T e2 b tzb)) by lia.
  rewrite (Hsmall (execute DateLUTImpl T e1 a tza)) by lia.
  apply Hsmall. lia.
Qed.

(** X8.  The chain of comparisons on the unit is the table of alias
    groups: a case-folded unit selects the transform at the position of
    the first group it belongs to, and none when it belongs to no group. *)
Theorem dateDiff_selectTransform_table (s : string) :
  selectTransform s
  = (i ← DateDiffTable.find_group s alias_groups 0;
     [ToRelativeYearNumImpl; ToRelativeQuarterNumImpl; ToRelativeMonthNumImpl;
      ToRelativeWeekNumImpl; ToRelativeDayNumImpl; ToRelativeHourNumImpl;
      ToRelativeMinuteNumImpl; ToRelativeSecondNumImpl] !! i).
Proof.
  unfold DateDiff.selectTransform, alias_groups, DateDiffTable.find_group,
    member. simpl.
  repeat (match goal with
          | |- context [String.eqb s ?c] => destruct (String.eqb s c) eqn:?
          end; simpl; try reflexivity).
Qed.

Lemma map_seq_lookup {A B : Type} (l : list A) (d : A) (f : A -> B) :
  map (fun j => f (default d (l !! j))) (seq 0 (length l)) = map f l.
Proof.
  apply list_eq. intros i. rewrite !list_lookup_fmap.
  destruct (decide (i < length l)) as [Hi|Hi].
  - rewrite lookup_seq_lt by assumption. simpl.
    destruct (lookup_lt_is_Some_2 l i Hi) as [a Ha]. now rewrite Ha.
  - rewrite lookup_seq_ge, (lookup_ge_None_2 l) by lia. reflexivity.
Qed.

(** X9.  Each of the three loops writes the cells of the rows of the
    vector that drives it (the first vector, or the second next to a
    constant) and leaves every later cell of the result container as it
    was. *)
Theorem dateDiff_loops_write_driver_rows T e1 e2 tzx tzy
    (xd yd : list Z) (xv yv : Z) (res : list Z) :
  (length xd <= length yd -> length xd <= length res ->
   vector_vector DateLUTImpl T e1 e2 xd yd tzx tzy res
   = Ok (zip_with (fun a b => calculate T e1 e2 a b tzx tzy) xd yd
           ++ drop (length xd) res))
  /\ (length xd <= length res ->
      vector_constant DateLUTImpl T e1 e2 xd yv tzx tzy res
      = Ok (map (fun a => calculate T e1 e2 a yv tzx tzy) xd
              ++ drop (length xd) res))
  /\ (length yd <= length res ->
      constant_vector DateLUTImpl T e1 e2 xv yd tzx tzy res
      = Ok (map (fun b => calculate T e1 e2 xv b tzx tzy) yd
              ++ drop (length yd) res)).
Proof.
  split; [|split].
  - intros Hy Hr. unfold vector_vector.
    rewrite DateDiffProofs.vector_vector_loop_fill.
    rewrite (fill_loop_Ok _
               (fun j => calculate T e1 e2 (default 0%Z (xd !! j))
                           (default 0%Z (yd !! j)) tzx tzy)).
    + simpl. do 2 f_equal. apply list_eq. intros i.
      rewrite list_lookup_fmap, lookup_zip_with.
      destruct (decide (i < length xd)) as [Hi|Hi].
      * rewrite lookup_seq_lt by assumption. simpl.
        destruct (lookup_lt_is_Some_2 xd i Hi) as [a Ha].
        destruct (lookup_lt_is_Some_2 yd i) as [b Hb]; [lia|].
        now rewrite Ha, Hb.
      * rewrite lookup_seq_ge, (lookup_ge_None_2 xd) by lia. reflexivity.
    + intros j Hj.
      destruct (DateDiffProofs.at_index_lt xd j) as (a & Ha & ->); [lia|].
      destruct (DateDiffProofs.at_index_lt yd j) as (b & Hb & ->); [lia|].
      simpl. now rewrite Ha, Hb.
    + lia.
  - intros Hr. unfold vector_constant.
    rewrite DateDiffProofs.vector_constant_loop_fill.
    rewrite (fill_loop_Ok _
               (fun j => calculate T e1 e2 (default 0%Z (xd !! j)) yv tzx tzy)).
    + simpl. do 2 f_equal.
      apply (map_seq_lookup xd 0%Z (fun a => calculate T e1 e2 a yv tzx tzy)).
    + intros j Hj.
      destruct (DateDiffProofs.at_index_lt xd j) as (a & Ha & ->); [lia|].
      simpl. now rewrite Ha.
    + lia.
  - intros Hr. unfold constant_vector.
    rewrite DateDiffProofs.constant_vector_loop_fill.
    rewrite (fill_loop_Ok _
               (fun j => calculate T e1 e2 xv (default 0%Z (yd !! j)) tzx tzy)).
    + simpl. do 2 f_equal.
      apply (map_seq_lookup yd 0%Z (fun b => calculate T e1 e2 xv b tzx tzy)).
    + intros j Hj.
      destruct (DateDiffProofs.at_index_lt yd j) as (a & Ha & ->); [lia|].
      simpl. now rewrite Ha.
    + lia.
Qed.

End WithTransforms.

Example dateDiff_loops_write_driver_rows_witness :
  vector_vector () toy_day UInt16 UInt16 [10; 20]%Z [15; 18; 99]%Z () ()
    [7; 7; 7; 7]%Z
  = Ok [5; -2; 7; 7]%Z
  /\ vector_constant () toy_day UInt16 UInt16 [10; 20]%Z 15%Z () ()
       [7; 7; 7; 7]%Z
     = Ok [5; -5; 7; 7]%Z
  /\ constant_vector () toy_day UInt16 UInt16 10%Z [15; 18; 99]%Z () ()
       [7; 7; 7; 7]%Z
     = Ok [5; 8; 89; 7]%Z.
Proof.
  destruct (dateDiff_loops_write_driver_rows () toy_day UInt16 UInt16 () ()
              [10; 20]%Z [15; 18; 99]%Z 10%Z 15%Z [7; 7; 7; 7]%Z)
    as (Hvv & Hvc & Hcv).
  split; [|split].
  - apply Hvv; simpl; lia.
  - apply Hvc; simpl; lia.
  - apply Hcv; simpl; lia.
Defined.

Example dateDiff_unit_must_be_constant_string_witness :
  toy_executeImpl [0; 1; 2] 3 1
    [mkEntry (Some (ColumnString ["day"])) DataTypeString "unit";
     mkEntry (Some (ColumnUInt16 [1%Z])) DataTypeDate "x";
     mkEntry (Some (ColumnUInt16 [2%Z])) DataTypeDate "y";
     mkEntry None DataTypeInt64 "result"]
  = (Throw (mkException
              "First argument for function dateDiff must be constant String"
              ILLEGAL_COLUMN),
     [mkEntry (Some (ColumnString ["day"])) DataTypeString "unit";
      mkEntry (Some (ColumnUInt16 [1%Z])) DataTypeDate "x";
      mkEntry (Some (ColumnUInt16 [2%Z])) DataTypeDate "y";
      mkEntry None DataTypeInt64 "result"]).
Proof.
  apply (dateDiff_unit_must_be_constant_string () toy_day toy_day toy_day
           toy_day toy_day toy_day toy_day toy_day (fun _ _ _ _ => Ok ())
           (fun _ => 0%Z) _ [0; 1; 2] 3 1 (ColumnString ["day"]));
    reflexivity.
Defined.

Example dateDiff_illegal_columns_witness :
  toy_executeImpl [0; 1; 2] 3 1
    (call_block "day" 1 (ColumnString ["2020-01-01"]) (ColumnInt64 [2%Z]))
  = (Throw illegal_first,
     call_block "day" 1 (ColumnString ["2020-01-01"]) (ColumnInt64 [2%Z]))
  /\ toy_executeImpl [0; 1; 2] 3 1
       (call_block "day" 1 (ColumnUInt16 [1%Z]) (ColumnInt64 [2%Z]))
     = (Throw illegal_second,
        call_block "day" 1 (ColumnUInt16 [1%Z]) (ColumnInt64 [2%Z])).
Proof.
  split.
  - refine (proj1 (dateDiff_illegal_columns () toy_day toy_day toy_day
             toy_day toy_day toy_day toy_day toy_day (fun _ _ _ _ => Ok ())
             (fun _ => 0%Z)
             (call_block "day" 1 (ColumnString ["2020-01-01"]) (ColumnInt64 [2%Z]))
             [0; 1; 2] 3 1 "day" 1 (ColumnString ["2020-01-01"])
             (ColumnInt64 [2%Z]) toy_day () ()
             eq_refl eq_refl eq_refl eq_refl eq_refl eq_refl eq_refl eq_refl)
             eq_refl).
  - refine (proj2 (dateDiff_illegal_columns () toy_day toy_day toy_day
             toy_day toy_day toy_day toy_day toy_day (fun _ _ _ _ => Ok ())
             (fun _ => 0%Z)
             (call_block "day" 1 (ColumnUInt16 [1%Z]) (ColumnInt64 [2%Z]))
             [0; 1; 2] 3 1 "day" 1 (ColumnUInt16 [1%Z])
             (ColumnInt64 [2%Z]) toy_day () ()
             eq_refl eq_refl eq_refl eq_refl eq_refl eq_refl eq_refl eq_refl)
             eq_refl eq_refl).
Defined.

Example dateDiff_time_zone_error_first_witness :
  executeImpl () toy_day toy_day toy_day toy_day toy_day toy_day toy_day toy_day
    (fun _ _ _ _ => Throw (mkException "no such time zone" BAD_ARGUMENTS))
    (fun _ => 0%Z) [0; 1; 2] 3 1
    (call_block "fortnight" 1 (ColumnString ["x"]) (ColumnString ["y"]))
  = (Throw (mkException "no such time zone" BAD_ARGUMENTS),
     call_block "fortnight" 1 (ColumnString ["x"]) (ColumnString ["y"])).
Proof.
  apply (dateDiff_time_zone_error_first () toy_day toy_day toy_day
           toy_day toy_day toy_day toy_day toy_day
           (fun _ _ _ _ => Throw (mkException "no such time zone" BAD_ARGUMENTS))
           (fun _ => 0%Z) _ [0; 1; 2] 3 1 "fortnight" 1
           (ColumnString ["x"]) (ColumnString ["y"]));
    solve [reflexivity | left; reflexivity].
Defined.

Example dateDiff_self_is_zero_witness :
  toy_executeImpl [0; 1; 1] 2 3
    [mkEntry (Some (ColumnConst (ColumnString ["Week"]) 3)) DataTypeString "unit";
     mkEntry (Some (ColumnUInt32 [5; 86400; 1577836800]%Z)) DataTypeDateTime "t";
     mkEntry None DataTypeInt64 "result"]
  = (Ok tt,
     [mkEntry (Some (ColumnConst (ColumnString ["Week"]) 3)) DataTypeString "unit";
      mkEntry (Some (ColumnUInt32 [5; 86400; 1577836800]%Z)) DataTypeDateTime "t";
      mkEntry (Some (ColumnInt64 [0; 0; 0]%Z)) DataTypeInt64 "result"]).
Proof.
  refine (dateDiff_self_is_zero () toy_day toy_day toy_day toy_day toy_day
            toy_day toy_day toy_day (fun _ _ _ _ => Ok ()) (fun _ => 0%Z)
            [mkEntry (Some (ColumnConst (ColumnString ["Week"]) 3))
                     DataTypeString "unit";
             mkEntry (Some (ColumnUInt32 [5; 86400; 1577836800]%Z))
                     DataTypeDateTime "t";
             mkEntry None DataTypeInt64 "result"]
            [0; 1; 1] 2 3 "Week" 3 (ColumnUInt32 [5; 86400; 1577836800]%Z)
            toy_day () eq_refl eq_refl eq_refl eq_refl eq_refl eq_refl
            eq_refl eq_refl eq_refl _).
  simpl; lia.
Defined.

Example dateDiff_calculate_exact_witness :
  DateDiff.calculate () toy_day UInt16 UInt32 18262 1578614400 () () = 9%Z.
Proof.
  refine (dateDiff_calculate_exact () toy_day UInt16 UInt32 18262 1578614400
            () () _ _);
    (split; [apply Z.leb_le | apply Z.ltb_lt]; reflexivity).
Defined.

End DateDiffExtra.

(** ** isNotNull, further *)

Module IsNotNullExtra.

Import IsNotNull Effects EffectsProofs.

Lemma negate_loop_length src n i res res' :
  negate_loop src n i res = Ok res' -> length res' = length res.
Proof.
  rewrite IsNotNullProofs.negate_loop_fill. apply DateDiffExtra.fill_loop_length.
Qed.

Lemma length_ColumnUInt8_create uninitialized n :
  length (ColumnUInt8_create uninitialized n) = n.
Proof. unfold ColumnUInt8_create. now rewrite length_map, length_seq. Qed.

Lemma negate_loop_prefix uninitialized (null_map : list Z) (rows : nat) :
  rows <= length null_map ->
  negate_loop null_map rows 0 (ColumnUInt8_create uninitialized rows)
  = Ok (map lnot (take rows null_map)).
Proof.
  intros Hr. rewrite IsNotNullProofs.negate_loop_fill.
  pose (g := fun j : nat => lnot (default 0%Z (null_map !! j))).
  rewrite <- (length_ColumnUInt8_create uninitialized rows) at 1.
  rewrite (fill_loop_all _ g).
  - rewrite length_ColumnUInt8_create. f_equal. apply list_eq. intros i.
    rewrite !list_lookup_fmap.
    destruct (decide (i < rows)) as [Hi|Hi].
    + rewrite lookup_seq_lt, lookup_take_lt by assumption. simpl. unfold g.
      destruct (lookup_lt_is_Some_2 null_map i) as [b Hb]; [lia|].
      now rewrite Hb.
    + rewrite lookup_seq_ge, lookup_take_ge by lia. reflexivity.
  - intros j Hj. rewrite length_ColumnUInt8_create in Hj. unfold at_index, g.
    destruct (lookup_lt_is_Some_2 null_map j) as [b Hb]; [lia|].
    now rewrite Hb.
Qed.

Lemma executeImpl_plain uninitialized block arguments result rows c :
  argument_column block arguments 0 = Some c ->
  isColumnNullable c = false ->
  result < length block ->
  executeImpl uninitialized arguments result rows block
  = (Ok tt, with_result block result (ColumnConst (ColumnUInt8 [1%Z]) (size c))).
Proof.
  intros Ha Hn Hr. unfold executeImpl. rewrite (read_argument _ _ _ _ _ Ha).
  destruct c; try discriminate Hn; now apply setColumn_with_result.
Qed.

Lemma isNotNull_one_write uninitialized arguments result rows :
  one_write result
    (fun c => (exists res, c = ColumnUInt8 res /\ length res = rows)
              \/ (exists n, c = ColumnConst (ColumnUInt8 [1%Z]) n))
    (executeImpl uninitialized arguments result rows).
Proof.
  unfold executeImpl.
  apply one_write_bind'; [apply reads_only_lift|intros a0].
  apply one_write_bind'; [apply reads_only_getByPosition|intros elem].
  apply one_write_bind'; [apply reads_only_deref|intros c].
  destruct c;
    try (apply one_write_setColumn; right; eexists; reflexivity).
  cbv zeta.
  apply (one_write_bind result _ (fun res : list Z => length res = rows)).
  - apply reads_only_lift.
  - intros b r b' H. unfold lift in H. injection H as H _.
    apply negate_loop_length in H.
    now rewrite length_ColumnUInt8_create in H.
  - intros res Hl. apply one_write_setColumn. left. eauto.
Qed.

(** X10.  A call of [isNotNull], whatever it is given, either writes at
    the result position a [UInt8] vector of [input_rows_count] rows or a
    constant [UInt8] 1, and returns, or does not return and leaves the
    block as it was; in both cases every other entry, and every type and
    name, is kept. *)
Theorem isNotNull_writes_result_or_nothing
    uninitialized arguments result rows block :
  let out := executeImpl uninitialized arguments result rows block in
  ((exists c, out = (Ok tt, with_result block result c)
              /\ result < length block
              /\ ((exists res, c = ColumnUInt8 res /\ length res = rows)
                  \/ (exists n, c = ColumnConst (ColumnUInt8 [1%Z]) n)))
   \/ (out.1 <> Ok tt /\ out.2 = block))
  /\ length out.2 = length block
  /\ type <$> out.2 = type <$> block
  /\ name <$> out.2 = name <$> block
  /\ forall i, i <> result -> out.2 !! i = block !! i.
Proof.
  intros out.
  exact (one_write_outcome result _ _ block
           (isNotNull_one_write uninitialized arguments result rows)).
Qed.

(** X11.  The loop of [isNotNull] is driven by [input_rows_count], not
    by the null map: with a null map of at least that many bytes, the
    column written is the negation of its first [input_rows_count]
    bytes. *)
Theorem isNotNull_negates_prefix
    uninitialized block arguments result rows nested null_map :
  argument_column block arguments 0 = Some (ColumnNullable nested null_map) ->
  rows <= length null_map ->
  result < length block ->
  executeImpl uninitialized arguments result rows block
  = (Ok tt, with_result block result
              (ColumnUInt8 (map lnot (take rows null_map)))).
Proof.
  intros Ha Hl Hr. unfold executeImpl. rewrite (read_argument _ _ _ _ _ Ha).
  unfold lift. erewrite bind_Ok by (now rewrite negate_loop_prefix).
  now apply setColumn_with_result.
Qed.

(** X12.  The column [isNotNull] writes is never Nullable: a second
    call that reads the column a first call wrote, writes the constant 1
    of that column's size. *)
Theorem isNotNull_twice_is_constant_one
    u1 u2 args1 args2 r1 r2 rows1 rows2 b1 b1' b2 :
  executeImpl u1 args1 r1 rows1 b1 = (Ok tt, b1') ->
  argument_column b2 args2 0 = (e ← b1' !! r1; column e) ->
  r2 < length b2 ->
  exists c,
    (e ← b1' !! r1; column e) = Some c
    /\ executeImpl u2 args2 r2 rows2 b2
       = (Ok tt, with_result b2 r2 (ColumnConst (ColumnUInt8 [1%Z]) (size c))).
Proof.
  intros H1 Ha Hr.
  destruct (isNotNull_one_write u1 args1 r1 rows1 b1)
    as [(c & Hc & Hlt & HP)|[Hne _]]; [|now rewrite H1 in Hne].
  rewrite H1 in Hc. injection Hc as ->.
  assert (Hcol : (e ← with_result b1 r1 c !! r1; column e) = Some c).
  { pose proof (observe_with_result b1 r1 c Hlt) as Ho.
    unfold observe in Ho. now injection Ho. }
  exists c. split; [exact Hcol|].
  rewrite Hcol in Ha. apply executeImpl_plain; auto.
  destruct HP as [(res & -> & _)|(n & ->)]; reflexivity.
Qed.

Example isNotNull_negates_prefix_witness :
  executeImpl (fun _ => 0%Z) [0] 1 2 IsNotNullSpec.nullable_block
  = (Ok tt,
     [mkEntry (Some (ColumnNullable (ColumnInt64 [5; 0; 7]%Z) [0; 1; 0]%Z))
              (DataTypeNullable DataTypeInt64) "v";
      mkEntry (Some (ColumnUInt8 [1; 0]%Z)) DataTypeUInt8 "result"]).
Proof.
  refine (isNotNull_negates_prefix (fun _ => 0%Z) IsNotNullSpec.nullable_block
            [0] 1 2 (ColumnInt64 [5; 0; 7]%Z) [0; 1; 0]%Z eq_refl _ _);
    simpl; lia.
Defined.

Example isNotNull_twice_is_constant_one_witness :
  exists c,
    (e ← IsNotNullExamples.after_first !! 1; column e) = Some c
    /\ executeImpl (fun _ => 0%Z) [1] 2 3 IsNotNullExamples.second_block
       = (Ok tt,
          with_result IsNotNullExamples.second_block 2
            (ColumnConst (ColumnUInt8 [1%Z]) (size c))).
Proof.
  refine (isNotNull_twice_is_constant_one (fun _ => 0%Z) (fun _ => 0%Z)
            [0] [1] 1 2 3 3 IsNotNullSpec.nullable_block
            IsNotNullExamples.after_first IsNotNullExamples.second_block
            eq_refl eq_refl _).
  simpl; lia.
Defined.

End IsNotNullExtra.

(** ** arrayConcat, arrayPopFront and arrayPopBack, further *)

Module ArrayExtra.

Import ArraySpec ArrayCalls Effects EffectsProofs ArrayProofs.

(** *** What the calls do to the block *)

Lemma reads_only_sinkOf c rows : reads_only (sinkOf c rows).
Proof. destruct c; intros b; reflexivity. Qed.

Lemma reads_only_preprocess castColumn arguments return_type :
  reads_only (ArrayConcat.preprocess castColumn arguments return_type).
Proof.
  induction arguments as [|a rest IH]; simpl; [apply reads_only_ret|].
  apply reads_only_bind; [apply reads_only_getByPosition|intros arg].
  apply reads_only_bind.
  - destruct (negb _); [apply reads_only_lift|apply reads_only_ret].
  - intros p. apply reads_only_bind; [exact IH|intros cols].
    apply reads_only_ret.
Qed.

Lemma reads_only_makeSources cols rows :
  reads_only (ArrayConcat.makeSources cols rows).
Proof.
  induction cols as [|p rest IH]; simpl; [apply reads_only_ret|].
  apply reads_only_bind; [apply reads_only_deref|intros c].
  destruct c as [| | | | | | | |d s]; simpl;
    try (apply reads_only_bind; [apply reads_only_throw|intros src];
         apply reads_only_bind; [exact IH|intros srcs]; apply reads_only_ret).
  - apply reads_only_bind; [apply reads_only_ret|intros src].
    apply reads_only_bind; [exact IH|intros srcs]. apply reads_only_ret.
  - apply reads_only_bind.
    + destruct d; first [apply reads_only_ret|apply reads_only_throw].
    + intros src. apply reads_only_bind; [exact IH|intros srcs].
      apply reads_only_ret.
Qed.

(** A call that starts by reading the result entry: what it writes may
    depend on the type of that entry. *)
Lemma one_write_after_result result (P : DataType -> Column -> Prop)
    (f : ColumnWithTypeAndName -> M unit) :
  (forall r, one_write result (P (type r)) (f r)) ->
  forall b : Block,
    let out := (getByPosition result ≫= f) b in
    ((exists e c, b !! result = Some e
                  /\ out = (Ok tt, with_result b result c)
                  /\ result < length b
                  /\ P (type e) c)
     \/ (out.1 <> Ok tt /\ out.2 = b))
    /\ length out.2 = length b
    /\ type <$> out.2 = type <$> b
    /\ name <$> out.2 = name <$> b
    /\ forall i, i <> result -> out.2 !! i = b !! i.
Proof.
  intros Hf b out. subst out.
  destruct (b !! result) as [e|] eqn:He.
  - rewrite (bind_Ok _ _ _ _ _ (getByPosition_Some _ _ _ He)).
    destruct (Hf e b) as [(c & Hc & Hlt & HP)|[Hne Hb]].
    + split; [left; exists e, c; auto|].
      rewrite Hc. apply with_result_frame.
    + split; [right; auto|]. rewrite Hb. auto.
  - assert (Hout : (getByPosition result ≫= f) b = (Undefined, b)).
    { unfold mbind, M_bind, getByPosition, at_index. now rewrite He. }
    rewrite Hout. simpl. split; [right; split; [discriminate|reflexivity]|].
    auto.
Qed.

Lemma pop_one_write (pop_front : bool) (fname : string)
    (arguments : ColumnNumbers) (result rows : nat)
    (r : ColumnWithTypeAndName) :
  one_write result (array_or_only_null (type r) rows)
    (let return_type := type r in
     if onlyNull return_type then
       setColumn result
         (createColumnConstWithDefaultValue return_type rows)
     else
       let result_column := createColumn return_type in
       a0 ← lift (at_index arguments 0);
       e ← getByPosition a0;
       array_column ← deref (column e);
       let size := size array_column in
       source ← match array_column with
                | ColumnArray d o =>
                    mret (GatherUtils.createArraySource d o false size)
                | _ =>
                    throw ("First arguments for function " +:+ fname
                             +:+ " must be array.") LOGICAL_ERROR
                end;
       sink ← sinkOf result_column size;
       sink' ← lift (if pop_front
                     then GatherUtils.sliceFromLeftConstantOffsetUnbounded
                            source sink 1
                     else GatherUtils.sliceFromLeftConstantOffsetBounded
                            source sink 0 (-1));
       setColumn result (GatherUtils.sink_column sink')).
Proof.
  cbv zeta. destruct (onlyNull (type r)) eqn:Hn.
  { apply one_write_setColumn. left. auto. }
  apply one_write_bind'; [apply reads_only_lift|intros a0].
  apply one_write_bind'; [apply reads_only_getByPosition|intros e].
  apply one_write_bind'; [apply reads_only_deref|intros c].
  apply one_write_bind'.
  { destruct c; first [apply reads_only_ret|apply reads_only_throw]. }
  intros src.
  apply one_write_bind'; [apply reads_only_sinkOf|intros sink].
  apply one_write_bind'; [apply reads_only_lift|intros sink'].
  apply one_write_setColumn. right. unfold GatherUtils.sink_column. eauto.
Qed.

Lemma concat_one_write castColumn (arguments : ColumnNumbers)
    (result rows : nat) (r : ColumnWithTypeAndName) :
  one_write result (array_or_only_null (type r) rows)
    (let return_type := type r in
     if onlyNull return_type then
       setColumn result
         (createColumnConstWithDefaultValue return_type rows)
     else
       let result_column := createColumn return_type in
       preprocessed_columns ←
         ArrayConcat.preprocess castColumn arguments return_type;
       sources ← ArrayConcat.makeSources preprocessed_columns rows;
       sink ← sinkOf result_column rows;
       sink' ← lift (GatherUtils.concat sources sink);
       setColumn result (GatherUtils.sink_column sink')).
Proof.
  cbv zeta. destruct (onlyNull (type r)) eqn:Hn.
  { apply one_write_setColumn. left. auto. }
  apply one_write_bind'; [apply reads_only_preprocess|intros pcs].
  apply one_write_bind'; [apply reads_only_makeSources|intros srcs].
  apply one_write_bind'; [apply reads_only_sinkOf|intros sink].
  apply one_write_bind'; [apply reads_only_lift|intros sink'].
  apply one_write_setColumn. right. unfold GatherUtils.sink_column. eauto.
Qed.

(** X13.  A call of [arrayPopFront] or [arrayPopBack], whatever it is
    given, either writes one column at the result position and returns,
    or does not return and leaves the block as it was.  The column
    written is the constant default of the result entry's type, of
    [input_rows_count] rows, when that type is only-null, and an array
    column when it is not.  In both cases every other entry, and every
    type and name, is kept. *)
Theorem arrayPop_writes_result_or_nothing
    pop_front fname arguments result rows block :
  let out := ArrayPop.executeImpl pop_front fname arguments result rows block in
  ((exists e c, block !! result = Some e
                /\ out = (Ok tt, with_result block result c)
                /\ result < length block
                /\ ((onlyNull (type e) = true
                     /\ c = createColumnConstWithDefaultValue (type e) rows)
                    \/ (onlyNull (type e) = false
                        /\ exists d o, c = ColumnArray d o)))
   \/ (out.1 <> Ok tt /\ out.2 = block))
  /\ length out.2 = length block
  /\ type <$> out.2 = type <$> block
  /\ name <$> out.2 = name <$> block
  /\ forall i, i <> result -> out.2 !! i = block !! i.
Proof.
  exact (one_write_after_result result
           (fun t c => array_or_only_null t rows c) _
           (pop_one_write pop_front fname arguments result rows) block).
Qed.

(** X14.  A call of [arrayConcat], whatever it is given and whatever the
    cast does, either writes one column at the result position and
    returns, or does not return and leaves the block as it was.  The
    column written is the constant default of the result entry's type, of
    [input_rows_count] rows, when that type is only-null, and an array
    column when it is not.  In both cases every other entry, and every
    type and name, is kept. *)
Theorem arrayConcat_writes_result_or_nothing
    castColumn arguments result rows block :
  let out := ArrayConcat.executeImpl castColumn arguments result rows block in
  ((exists e c, block !! result = Some e
                /\ out = (Ok tt, with_result block result c)
                /\ result < length block
                /\ ((onlyNull (type e) = true
                     /\ c = createColumnConstWithDefaultValue (type e) rows)
                    \/ (onlyNull (type e) = false
                        /\ exists d o, c = ColumnArray d o)))
   \/ (out.1 <> Ok tt /\ out.2 = block))
  /\ length out.2 = length block
  /\ type <$> out.2 = type <$> block
  /\ name <$> out.2 = name <$> block
  /\ forall i, i <> result -> out.2 !! i = block !! i.
Proof.
  exact (one_write_after_result result
           (fun t c => array_or_only_null t rows c) _
           (concat_one_write castColumn arguments result rows) block).
Qed.

(** *** Refused arguments *)

(** X15.  [arrayPopFront] and [arrayPopBack] accept an array column
    only: any other first argument, a constant array included, is refused
    with [LOGICAL_ERROR] and a message that names the function, and the
    block is left as it was. *)
Theorem arrayPop_argument_must_be_array
    pop_front fname block arguments result rows e c :
  block !! result = Some e ->
  onlyNull (type e) = false ->
  argument_column block arguments 0 = Some c ->
  (forall d o, c <> ColumnArray d o) ->
  ArrayPop.executeImpl pop_front fname arguments result rows block
  = (Throw (mkException
              ("First arguments for function " +:+ fname +:+ " must be array.")
              LOGICAL_ERROR), block).
Proof.
  intros He Hn Ha Hc. unfold ArrayPop.executeImpl.
  rewrite (bind_Ok _ _ _ _ _ (getByPosition_Some _ _ _ He)). cbv zeta.
  rewrite Hn. rewrite (read_argument _ _ _ _ _ Ha).
  destruct c; try reflexivity. now destruct (Hc data offsets).
Qed.

Lemma makeSources_refuses (good : list Column) (bad : Column)
    (rest : list (option Column)) (rows : nat) (block : Block) :
  Forall (fun c => is_array_argument c = true) good ->
  is_array_argument bad = false ->
  ArrayConcat.makeSources ((Some <$> good) ++ Some bad :: rest) rows block
  = (Throw (mkException "Arguments for function arrayConcat must be arrays."
                        LOGICAL_ERROR), block).
Proof.
  intros Hgood Hbad. induction Hgood as [|c good Hc Hgood IH].
  - simpl.
    destruct bad as [| | | | | | | |[] s]; try discriminate Hbad; reflexivity.
  - simpl. simpl in IH.
    destruct c as [| | | | | |d o| |[| | | | | |d o| |] s]; try discriminate Hc;
      simpl; unfold mbind, M_bind, mret, M_ret; simpl;
      unfold fmap in IH; rewrite IH; reflexivity.
Qed.

(** X16.  [arrayConcat] refuses an argument that, after the cast, is
    neither an array column nor a constant array: the first such argument
    makes the call throw [LOGICAL_ERROR], whatever follows it, and the
    block is left as it was. *)
Theorem arrayConcat_arguments_must_be_arrays
    castColumn block arguments result rows e good bad rest :
  block !! result = Some e ->
  onlyNull (type e) = false ->
  ArrayConcat.preprocess castColumn arguments (type e) block
  = (Ok ((Some <$> good) ++ Some bad :: rest), block) ->
  Forall (fun c => is_array_argument c = true) good ->
  is_array_argument bad = false ->
  ArrayConcat.executeImpl castColumn arguments result rows block
  = (Throw (mkException "Arguments for function arrayConcat must be arrays."
                        LOGICAL_ERROR), block).
Proof.
  intros He Hn Hp Hgood Hbad. unfold ArrayConcat.executeImpl.
  rewrite (bind_Ok _ _ _ _ _ (getByPosition_Some _ _ _ He)). cbv zeta.
  rewrite Hn. rewrite (bind_Ok _ _ _ _ _ Hp).
  now rewrite (bind_Throw _ _ _ _ _
                 (makeSources_refuses good bad rest rows block Hgood Hbad)).
Qed.

(** *** The cast *)

Lemma bind_congr {A B : Type} (m1 m2 : M A) (f : A -> M B) (b : Block) :
  m1 b = m2 b -> (m1 ≫= f) b = (m2 ≫= f) b.
Proof. intros H. unfold mbind, M_bind. now rewrite H. Qed.

Lemma preprocess_cons_unreadable castColumn (block : Block) rt a rest :
  block !! a = None ->
  ArrayConcat.preprocess castColumn (a :: rest) rt block = (Undefined, block).
Proof.
  intros Ha. simpl. unfold mbind, M_bind, getByPosition, at_index.
  now rewrite Ha.
Qed.

Lemma preprocess_cons_same_type castColumn (block : Block) rt a rest arg :
  block !! a = Some arg -> type arg = rt ->
  ArrayConcat.preprocess castColumn (a :: rest) rt block
  = (ArrayConcat.preprocess castColumn rest rt
       ≫= fun cols => mret (column arg :: cols)) block.
Proof.
  intros Ha Hty. simpl.
  rewrite (bind_Ok _ _ _ _ _ (getByPosition_Some _ _ _ Ha)).
  unfold equals. rewrite bool_decide_eq_true_2 by assumption. simpl.
  now rewrite (bind_Ok _ _ block block (column arg)).
Qed.

Lemma preprocess_same_type cast1 cast2 (block : Block) (rt : DataType)
    (arguments : ColumnNumbers) :
  (forall a arg, a ∈ arguments -> block !! a = Some arg -> type arg = rt) ->
  ArrayConcat.preprocess cast1 arguments rt block
  = ArrayConcat.preprocess cast2 arguments rt block.
Proof.
  induction arguments as [|a rest IH]; intros Hty; [reflexivity|].
  destruct (block !! a) as [arg|] eqn:Ha.
  - assert (Harg : type arg = rt) by (apply (Hty a); [left|assumption]).
    rewrite !(preprocess_cons_same_type _ _ _ _ _ _ Ha Harg).
    apply bind_congr. apply IH.
    intros a' arg' Hin. apply Hty. now right.
  - now rewrite !preprocess_cons_unreadable.
Qed.

(** X17.  [arrayConcat] casts only what is not yet of the result type:
    when every argument has the result type, the call does not depend on
    the cast at all. *)
Theorem arrayConcat_no_cast_for_result_type
    cast1 cast2 block arguments result rows e :
  block !! result = Some e ->
  (forall a arg, a ∈ arguments -> block !! a = Some arg -> type arg = type e) ->
  ArrayConcat.executeImpl cast1 arguments result rows block
  = ArrayConcat.executeImpl cast2 arguments result rows block.
Proof.
  intros He Hty. unfold ArrayConcat.executeImpl.
  rewrite !(bind_Ok _ _ _ _ _ (getByPosition_Some _ _ _ He)). cbv zeta.
  destruct (onlyNull (type e)); [reflexivity|].
  apply bind_congr.
  apply (preprocess_same_type cast1 cast2 block (type e) arguments Hty).
Qed.

Lemma preprocess_cast_fails castColumn (block : Block) (rt : DataType)
    (pre : ColumnNumbers) (a : nat) (post : ColumnNumbers) arg ex :
  (forall a' arg', a' ∈ pre -> block !! a' = Some arg' -> type arg' = rt) ->
  Forall (fun a' => is_Some (block !! a')) pre ->
  block !! a = Some arg ->
  type arg <> rt ->
  castColumn arg rt = Throw ex ->
  ArrayConcat.preprocess castColumn (pre ++ a :: post) rt block
  = (Throw ex, block).
Proof.
  intros Hty Hpre Ha Hne Hcast. induction Hpre as [|a' pre [arg' Ha'] Hpre IH].
  - simpl. rewrite (bind_Ok _ _ _ _ _ (getByPosition_Some _ _ _ Ha)).
    unfold equals. rewrite bool_decide_eq_false_2 by assumption. simpl.
    rewrite Hcast. reflexivity.
  - assert (Harg : type arg' = rt) by (apply (Hty a'); [left|assumption]).
    change ((a' :: pre) ++ a :: post) with (a' :: (pre ++ a :: post)).
    rewrite (preprocess_cons_same_type _ _ _ _ _ _ Ha' Harg).
    apply bind_Throw. apply IH.
    intros a'' arg'' Hin. apply Hty. now right.
Qed.

(** X18.  A cast that fails is what the call throws, before any
    argument is looked at as an array: with the arguments before it of the
    result type (array columns or not), the exception of the first cast
    is thrown and the block is left as it was. *)
Theorem arrayConcat_cast_failure_first
    castColumn block pre a post result rows e arg ex :
  block !! result = Some e ->
  onlyNull (type e) = false ->
  (forall a' arg', a' ∈ pre -> block !! a' = Some arg' -> type arg' = type e) ->
  Forall (fun a' => is_Some (block !! a')) pre ->
  block !! a = Some arg ->
  type arg <> type e ->
  castColumn arg (type e) = Throw ex ->
  ArrayConcat.executeImpl castColumn (pre ++ a :: post) result rows block
  = (Throw ex, block).
Proof.
  intros He Hn Hty Hpre Ha Hne Hcast. unfold ArrayConcat.executeImpl.
  rewrite (bind_Ok _ _ _ _ _ (getByPosition_Some _ _ _ He)). cbv zeta.
  rewrite Hn.
  now rewrite (bind_Throw _ _ _ _ _
                 (preprocess_cast_fails castColumn block (type e) pre a post
                    arg ex Hty Hpre Ha Hne Hcast)).
Qed.


(** *** Columns as sequences of rows *)

Lemma nondecreasing_offsets_from (rs : list (list Field)) : forall b,
  nondecreasing_from b (offsets_from b rs) = true.
Proof.
  induction rs as [|x rs IH]; intros b; simpl; [reflexivity|].
  rewrite IH, andb_true_r. apply Nat.leb_le. lia.
Qed.

Lemma last_offsets_from (rs : list (list Field)) : forall b,
  default b (last (offsets_from b rs)) = b + length (List.concat rs).
Proof.
  induction rs as [|x rs IH]; intros b; simpl; [lia|].
  rewrite last_cons. specialize (IH (b + length x)).
  destruct (last (offsets_from (b + length x) rs)) as [y|]; simpl in *;
    rewrite length_app; lia.
Qed.

Lemma wf_layout (rs : list (list Field)) :
  wf_array (List.concat rs) (offsets_from 0 rs) = true.
Proof.
  unfold wf_array. rewrite nondecreasing_offsets_from. simpl.
  apply Nat.eqb_eq. apply (last_offsets_from rs 0).
Qed.

Lemma rows_of_layout (rs : list (list Field)) :
  rows_of (List.concat rs) (offsets_from 0 rs) = rs.
Proof.
  unfold rows_of. rewrite length_offsets_from. apply list_eq. intros i.
  rewrite list_lookup_fmap.
  destruct (decide (i < length rs)) as [Hi|Hi].
  - rewrite lookup_seq_lt by assumption. simpl.
    destruct (lookup_lt_is_Some_2 rs i Hi) as [x Hx].
    now rewrite (array_row_layout rs i x Hx), Hx.
  - rewrite lookup_seq_ge, (lookup_ge_None_2 rs) by lia. reflexivity.
Qed.

Lemma layout_rows_of (d : list Field) (o : list nat) :
  wf_array d o = true -> layout (rows_of d o) = ColumnArray d o.
Proof.
  intros Hwf. destruct (layout_of_rows d o Hwf) as [Hd Ho].
  unfold layout, rows_of. now rewrite Hd, Ho.
Qed.

Lemma wf_argument_layout (rs : list (list Field)) :
  wf_argument (length rs) (layout rs) = true.
Proof.
  simpl. rewrite wf_layout, length_offsets_from. simpl. apply Nat.eqb_refl.
Qed.

Lemma with_result_inj (b : Block) (result : nat) (c c' : Column) :
  result < length b ->
  with_result b result c = with_result b result c' -> c = c'.
Proof.
  intros Hr H.
  pose proof (observe_with_result b result c Hr) as Hc.
  rewrite H, (observe_with_result b result c' Hr) in Hc. congruence.
Qed.

Lemma concat_result castColumn block arguments result rows cols :
  concat_call castColumn block arguments result cols ->
  Forall (fun c => wf_argument rows c = true) cols ->
  ArrayConcat.executeImpl castColumn arguments result rows block
  = (Ok tt, with_result block result
              (layout (map (concat_row_of cols) (seq 0 rows)))).
Proof.
  intros (e & t & He & Ht & Hp) Hwf.
  now rewrite (executeImpl_concat _ _ _ _ _ _ _ _ He Ht Hp Hwf).
Qed.

Lemma pop_result pop_front fname block arguments result rows d o :
  pop_call block arguments result d o ->
  wf_array d o = true ->
  ArrayPop.executeImpl pop_front fname arguments result rows block
  = (Ok tt, with_result block result
              (layout (map (if pop_front then pop_front_row else pop_back_row)
                           (rows_of d o)))).
Proof.
  intros (e & t & He & Ht & Ha) Hwf.
  rewrite (executeImpl_pop pop_front _ _ _ _ _ _ _ _ _ He Ht Ha Hwf).
  do 2 f_equal. unfold GatherUtils.sink_column, layout, rows_of. simpl.
  rewrite map_map.
  destruct pop_front.
  - reflexivity.
  - rewrite (map_ext _ _ (bounded_row_pop_back d o)). reflexivity.
Qed.

Lemma call_result_lt_concat castColumn block arguments result cols :
  concat_call castColumn block arguments result cols -> result < length block.
Proof. intros (e & t & He & _). apply lookup_lt_is_Some. eauto. Qed.

Lemma call_result_lt_pop block arguments result d o :
  pop_call block arguments result d o -> result < length block.
Proof. intros (e & t & He & _). apply lookup_lt_is_Some. eauto. Qed.

(** *** Invariants of the columns written *)

(** X19.  The column [arrayConcat] writes keeps the invariant of array
    columns: one offset per row of the call, offsets that never decrease,
    and nested data whose length is the last offset. *)
Theorem arrayConcat_result_well_formed
    castColumn block arguments result rows cols :
  concat_call castColumn block arguments result cols ->
  Forall (fun c => wf_argument rows c = true) cols ->
  exists d o,
    ArrayConcat.executeImpl castColumn arguments result rows block
    = (Ok tt, with_result block result (ColumnArray d o))
    /\ length o = rows
    /\ wf_array d o = true.
Proof.
  intros Hcall Hwf. eexists _, _. split; [|split].
  - rewrite (concat_result _ _ _ _ _ _ Hcall Hwf). reflexivity.
  - now rewrite length_offsets_from, length_map, length_seq.
  - apply wf_layout.
Qed.

(** X20.  The column [arrayPopFront] or [arrayPopBack] writes keeps the
    invariant of array columns, has as many rows as the argument has, and
    never more nested data than the argument. *)
Theorem arrayPop_result_well_formed
    pop_front fname block arguments result rows d o :
  pop_call block arguments result d o ->
  wf_array d o = true ->
  exists d' o',
    ArrayPop.executeImpl pop_front fname arguments result rows block
    = (Ok tt, with_result block result (ColumnArray d' o'))
    /\ length o' = length o
    /\ wf_array d' o' = true
    /\ length d' <= length d.
Proof.
  intros Hcall Hwf. eexists _, _. split; [|split; [|split]].
  - rewrite (pop_result _ _ _ _ _ _ _ _ Hcall Hwf). reflexivity.
  - unfold rows_of. now rewrite length_offsets_from, !length_map, length_seq.
  - apply wf_layout.
  - destruct (layout_of_rows d o Hwf) as [Hd _].
    rewrite <- Hd at 2. fold (rows_of d o).
    induction (rows_of d o) as [|x rs IH]; simpl; [lia|].
    rewrite !length_app.
    assert (length ((if pop_front then pop_front_row else pop_back_row) x)
            <= length x).
    { destruct pop_front; unfold pop_front_row, pop_back_row;
        rewrite ?length_drop, ?length_take; lia. }
    lia.
Qed.


(** *** Calls on the column of an earlier call *)

Lemma concat_wrote castColumn block arguments result rows cols R :
  concat_call castColumn block arguments result cols ->
  Forall (fun c => wf_argument rows c = true) cols ->
  ArrayConcat.executeImpl castColumn arguments result rows block
  = (Ok tt, with_result block result R) ->
  R = layout (map (concat_row_of cols) (seq 0 rows)).
Proof.
  intros Hcall Hwf H.
  rewrite (concat_result _ _ _ _ _ _ Hcall Hwf) in H.
  injection H as H. symmetry.
  eapply with_result_inj; [|exact H].
  eapply call_result_lt_concat; eassumption.
Qed.

Lemma pop_wrote pop_front fname block arguments result rows d o R :
  pop_call block arguments result d o ->
  wf_array d o = true ->
  ArrayPop.executeImpl pop_front fname arguments result rows block
  = (Ok tt, with_result block result R) ->
  R = layout (map (if pop_front then pop_front_row else pop_back_row)
                  (rows_of d o)).
Proof.
  intros Hcall Hwf H.
  rewrite (pop_result _ _ _ _ _ _ _ _ Hcall Hwf) in H.
  injection H as H. symmetry.
  eapply with_result_inj; [|exact H].
  eapply call_result_lt_pop; eassumption.
Qed.

Lemma argument_row_layout (f : nat -> list Field) (rows r : nat) :
  r < rows -> argument_row (layout (map f (seq 0 rows))) r = f r.
Proof.
  intros Hr. simpl. apply array_row_layout.
  rewrite list_lookup_fmap, lookup_seq_lt by assumption. reflexivity.
Qed.

Lemma map_seq_ext {A : Type} (f g : nat -> A) (n : nat) :
  (forall r, r < n -> f r = g r) -> map f (seq 0 n) = map g (seq 0 n).
Proof.
  intros H. apply map_ext_in. intros r Hr. apply in_seq in Hr. apply H. lia.
Qed.

(** X21.  Concatenation is associative across calls: concatenating the
    column that a call over [cols1] wrote with [cols2] writes the same
    column as one call over [cols1 ++ cols2]. *)
Theorem arrayConcat_associative
    castColumn rows b1 args1 r1 cols1 R1 b2 args2 r2 cols2 b3 args3 r3 :
  concat_call castColumn b1 args1 r1 cols1 ->
  Forall (fun c => wf_argument rows c = true) cols1 ->
  ArrayConcat.executeImpl castColumn args1 r1 rows b1
  = (Ok tt, with_result b1 r1 R1) ->
  concat_call castColumn b2 args2 r2 (R1 :: cols2) ->
  Forall (fun c => wf_argument rows c = true) cols2 ->
  concat_call castColumn b3 args3 r3 (cols1 ++ cols2) ->
  exists R,
    ArrayConcat.executeImpl castColumn args2 r2 rows b2
    = (Ok tt, with_result b2 r2 R)
    /\ ArrayConcat.executeImpl castColumn args3 r3 rows b3
       = (Ok tt, with_result b3 r3 R).
Proof.
  intros Hc1 Hwf1 H1 Hc2 Hwf2 Hc3.
  pose proof (concat_wrote _ _ _ _ _ _ _ Hc1 Hwf1 H1) as HR1.
  assert (HwfR : wf_argument rows R1 = true).
  { rewrite HR1.
    pose proof (wf_argument_layout (map (concat_row_of cols1) (seq 0 rows)))
      as Hw.
    now rewrite length_map, length_seq in Hw. }
  exists (layout (map (concat_row_of (cols1 ++ cols2)) (seq 0 rows))). split.
  - rewrite (concat_result _ _ _ _ rows _ Hc2) by (constructor; assumption).
    do 3 f_equal. apply map_seq_ext. intros r Hr.
    unfold concat_row_of. simpl. rewrite map_app, concat_app. f_equal.
    rewrite HR1. now apply argument_row_layout.
  - apply (concat_result _ _ _ _ rows _ Hc3).
    apply Forall_app. auto.
Qed.

(** X22.  An argument all of whose rows are empty is neutral: the call
    writes the same column with it as a call without it. *)
Theorem arrayConcat_empty_argument_neutral
    castColumn rows b1 args1 r1 b2 args2 r2 pre c post :
  concat_call castColumn b1 args1 r1 (pre ++ c :: post) ->
  concat_call castColumn b2 args2 r2 (pre ++ post) ->
  Forall (fun c => wf_argument rows c = true) (pre ++ c :: post) ->
  (forall r, r < rows -> argument_row c r = []) ->
  exists R,
    ArrayConcat.executeImpl castColumn args1 r1 rows b1
    = (Ok tt, with_result b1 r1 R)
    /\ ArrayConcat.executeImpl castColumn args2 r2 rows b2
       = (Ok tt, with_result b2 r2 R).
Proof.
  intros Hc1 Hc2 Hwf Hempty.
  apply Forall_app in Hwf as [Hpre Hpost].
  apply Forall_cons in Hpost as [Hc Hpost].
  exists (layout (map (concat_row_of (pre ++ post)) (seq 0 rows))). split.
  - rewrite (concat_result _ _ _ _ rows _ Hc1)
      by (apply Forall_app; split; [|constructor]; assumption).
    do 3 f_equal. apply map_seq_ext. intros r Hr.
    unfold concat_row_of. rewrite !map_app, !concat_app. simpl.
    now rewrite (Hempty r Hr).
  - apply (concat_result _ _ _ _ rows _ Hc2). apply Forall_app. auto.
Qed.

(** X23.  Push and pop at the back: [arrayPopBack] of the column that
    [arrayConcat] wrote for an array column followed by a constant array
    of one element gives the array column back. *)
Theorem arrayPopBack_of_arrayConcat
    castColumn rows b1 args1 r1 d o x s dR oR fname rows2 b2 args2 r2 :
  concat_call castColumn b1 args1 r1
    [ColumnArray d o; ColumnConst (ColumnArray [x] [1]) s] ->
  wf_array d o = true -> length o = rows ->
  ArrayConcat.executeImpl castColumn args1 r1 rows b1
  = (Ok tt, with_result b1 r1 (ColumnArray dR oR)) ->
  pop_call b2 args2 r2 dR oR ->
  ArrayPop.executeImpl false fname args2 r2 rows2 b2
  = (Ok tt, with_result b2 r2 (ColumnArray d o)).
Proof.
  intros Hc1 Hwf Hl H1 Hc2.
  assert (Hcols : Forall (fun c => wf_argument rows c = true)
                    [ColumnArray d o; ColumnConst (ColumnArray [x] [1]) s]).
  { repeat constructor. simpl. rewrite Hwf. simpl. now apply Nat.eqb_eq. }
  pose proof (concat_wrote _ _ _ _ _ _ _ Hc1 Hcols H1) as HR.
  injection HR as -> ->.
  rewrite (pop_result false fname _ _ _ rows2 _ _ Hc2 (wf_layout _)).
  rewrite rows_of_layout, map_map.
  do 2 f_equal. etransitivity; [|apply (layout_rows_of d o Hwf)].
  f_equal. unfold rows_of. rewrite Hl. apply map_ext. intros r.
  unfold concat_row_of, pop_back_row. simpl.
  change (array_row [x] [1] 0) with [x]. simpl.
  rewrite length_app. simpl.
  replace (length (array_row d o r) + 1 - 1) with (length (array_row d o r))
    by lia.
  apply take_app_length.
Qed.

(** X24.  Push and pop at the front: [arrayPopFront] of the column that
    [arrayConcat] wrote for a constant array of one element followed by
    an array column gives the array column back. *)
Theorem arrayPopFront_of_arrayConcat
    castColumn rows b1 args1 r1 d o x s dR oR fname rows2 b2 args2 r2 :
  concat_call castColumn b1 args1 r1
    [ColumnConst (ColumnArray [x] [1]) s; ColumnArray d o] ->
  wf_array d o = true -> length o = rows ->
  ArrayConcat.executeImpl castColumn args1 r1 rows b1
  = (Ok tt, with_result b1 r1 (ColumnArray dR oR)) ->
  pop_call b2 args2 r2 dR oR ->
  ArrayPop.executeImpl true fname args2 r2 rows2 b2
  = (Ok tt, with_result b2 r2 (ColumnArray d o)).
Proof.
  intros Hc1 Hwf Hl H1 Hc2.
  assert (Hcols : Forall (fun c => wf_argument rows c = true)
                    [ColumnConst (ColumnArray [x] [1]) s; ColumnArray d o]).
  { repeat constructor. simpl. rewrite Hwf. simpl. now apply Nat.eqb_eq. }
  pose proof (concat_wrote _ _ _ _ _ _ _ Hc1 Hcols H1) as HR.
  injection HR as -> ->.
  rewrite (pop_result true fname _ _ _ rows2 _ _ Hc2 (wf_layout _)).
  rewrite rows_of_layout, map_map.
  do 2 f_equal. etransitivity; [|apply (layout_rows_of d o Hwf)].
  f_equal. unfold rows_of. rewrite Hl. apply map_ext. intros r.
  unfold concat_row_of, pop_front_row. simpl.
  change (array_row [x] [1] 0) with [x]. simpl.
  now rewrite app_nil_r.
Qed.

Lemma pop_rows_commute (l : list Field) :
  pop_back_row (pop_front_row l) = pop_front_row (pop_back_row l).
Proof.
  unfold pop_back_row, pop_front_row.
  destruct l as [|x [|y l]]; try reflexivity.
  cbn [length Nat.min drop Nat.sub]. rewrite Nat.sub_0_r. reflexivity.
Qed.

(** X25.  Popping at the two ends commutes: [arrayPopBack] of what
    [arrayPopFront] wrote and [arrayPopFront] of what [arrayPopBack]
    wrote are the same column. *)
Theorem arrayPop_front_back_commute
    d o f1 f2 f3 f4 n1 n2 n3 n4
    bF argsF rF dF oF bFB argsFB rFB
    bB argsB rB dB oB bBF argsBF rBF :
  wf_array d o = true ->
  pop_call bF argsF rF d o ->
  ArrayPop.executeImpl true f1 argsF rF n1 bF
  = (Ok tt, with_result bF rF (ColumnArray dF oF)) ->
  pop_call bFB argsFB rFB dF oF ->
  pop_call bB argsB rB d o ->
  ArrayPop.executeImpl false f2 argsB rB n2 bB
  = (Ok tt, with_result bB rB (ColumnArray dB oB)) ->
  pop_call bBF argsBF rBF dB oB ->
  exists R,
    ArrayPop.executeImpl false f3 argsFB rFB n3 bFB
    = (Ok tt, with_result bFB rFB R)
    /\ ArrayPop.executeImpl true f4 argsBF rBF n4 bBF
       = (Ok tt, with_result bBF rBF R).
Proof.
  intros Hwf HcF HF HcFB HcB HB HcBF.
  pose proof (pop_wrote _ _ _ _ _ _ _ _ _ HcF Hwf HF) as HRF.
  pose proof (pop_wrote _ _ _ _ _ _ _ _ _ HcB Hwf HB) as HRB.
  injection HRF as -> ->. injection HRB as -> ->.
  exists (layout (map pop_back_row (map pop_front_row (rows_of d o)))). split.
  - rewrite (pop_result false f3 _ _ _ n3 _ _ HcFB (wf_layout _)).
    now rewrite rows_of_layout.
  - rewrite (pop_result true f4 _ _ _ n4 _ _ HcBF (wf_layout _)).
    rewrite rows_of_layout, !map_map. do 3 f_equal.
    apply map_ext. intros l. symmetry. apply pop_rows_commute.
Qed.


(** *** The properties on examples *)

Example arrayPop_argument_must_be_array_witness :
  ArrayPop.executeImpl true "arrayPopFront" [0] 1 3
    [array_entry example_one_const; result_entry]
  = (Throw (mkException
              "First arguments for function arrayPopFront must be array."
              LOGICAL_ERROR),
     [array_entry example_one_const; result_entry]).
Proof.
  refine (arrayPop_argument_must_be_array true "arrayPopFront"
            [array_entry example_one_const; result_entry] [0] 1 3
            result_entry example_one_const eq_refl eq_refl eq_refl _).
  intros d o H. discriminate H.
Defined.

Example arrayConcat_arguments_must_be_arrays_witness :
  ArrayConcat.executeImpl keep_cast [0; 1; 0] 2 3
    [array_entry example_array; string_entry; result_entry]
  = (Throw (mkException "Arguments for function arrayConcat must be arrays."
                        LOGICAL_ERROR),
     [array_entry example_array; string_entry; result_entry]).
Proof.
  refine (arrayConcat_arguments_must_be_arrays keep_cast
            [array_entry example_array; string_entry; result_entry]
            [0; 1; 0] 2 3 result_entry [example_array]
            (ColumnString ["a"; "b"; "c"]) [Some example_array]
            eq_refl eq_refl eq_refl _ eq_refl).
  repeat constructor.
Defined.

Example arrayConcat_no_cast_for_result_type_witness :
  ArrayConcat.executeImpl no_cast [0; 1] 2 3
    [array_entry example_array; array_entry example_const_array; result_entry]
  = ArrayConcat.executeImpl keep_cast [0; 1] 2 3
      [array_entry example_array; array_entry example_const_array; result_entry].
Proof.
  refine (arrayConcat_no_cast_for_result_type no_cast keep_cast
            [array_entry example_array; array_entry example_const_array;
             result_entry] [0; 1] 2 3 result_entry eq_refl _).
  intros a arg _ Ha.
  destruct a as [|[|[|a]]]; simpl in Ha; try discriminate Ha;
    injection Ha as <-; reflexivity.
Defined.

Example arrayConcat_cast_failure_first_witness :
  ArrayConcat.executeImpl no_cast ([0] ++ 1 :: [0]) 2 3
    [array_entry example_array; date_array_entry; result_entry]
  = (Throw (mkException "castColumn" ILLEGAL_TYPE_OF_ARGUMENT),
     [array_entry example_array; date_array_entry; result_entry]).
Proof.
  refine (arrayConcat_cast_failure_first no_cast
            [array_entry example_array; date_array_entry; result_entry]
            [0] 1 [0] 2 3 result_entry date_array_entry
            (mkException "castColumn" ILLEGAL_TYPE_OF_ARGUMENT)
            eq_refl eq_refl _ _ eq_refl _ eq_refl).
  - intros a arg Hin Ha. apply list_elem_of_singleton in Hin. subst a.
    simpl in Ha. injection Ha as <-. reflexivity.
  - repeat constructor. eexists. reflexivity.
  - discriminate.
Defined.

Example arrayConcat_result_well_formed_witness :
  exists d o,
    ArrayConcat.executeImpl no_cast [0; 1] 2 3
      [array_entry example_array; array_entry example_const_array; result_entry]
    = (Ok tt,
       with_result
         [array_entry example_array; array_entry example_const_array;
          result_entry] 2 (ColumnArray d o))
    /\ length o = 3
    /\ wf_array d o = true.
Proof.
  refine (arrayConcat_result_well_formed no_cast
            [array_entry example_array; array_entry example_const_array;
             result_entry] [0; 1] 2 3 [example_array; example_const_array] _ _).
  - exists result_entry, DataTypeInt64. repeat split.
  - repeat constructor.
Defined.

Example arrayPop_result_well_formed_witness :
  exists d' o',
    ArrayPop.executeImpl false "arrayPopBack" [0] 1 3
      [array_entry example_array; result_entry]
    = (Ok tt,
       with_result [array_entry example_array; result_entry] 1
                   (ColumnArray d' o'))
    /\ length o' = 3
    /\ wf_array d' o' = true
    /\ length d' <= 4.
Proof.
  refine (arrayPop_result_well_formed false "arrayPopBack"
            [array_entry example_array; result_entry] [0] 1 3
            [Int64F 1; Int64F 2; Int64F 3; Int64F 4] [3; 3; 4] _ eq_refl).
  exists result_entry, DataTypeInt64. repeat split.
Defined.

Example arrayConcat_associative_witness :
  exists R,
    ArrayConcat.executeImpl no_cast [0; 1] 2 3
      [array_entry example_pushed_back; array_entry example_const_array;
       result_entry]
    = (Ok tt,
       with_result
         [array_entry example_pushed_back; array_entry example_const_array;
          result_entry] 2 R)
    /\ ArrayConcat.executeImpl no_cast [0; 1; 2] 3 3
         [array_entry example_array; array_entry example_one_const;
          array_entry example_const_array; result_entry]
       = (Ok tt,
          with_result
            [array_entry example_array; array_entry example_one_const;
             array_entry example_const_array; result_entry] 3 R).
Proof.
  refine (arrayConcat_associative no_cast 3
            [array_entry example_array; array_entry example_one_const;
             result_entry] [0; 1] 2 [example_array; example_one_const]
            example_pushed_back
            [array_entry example_pushed_back; array_entry example_const_array;
             result_entry] [0; 1] 2 [example_const_array]
            [array_entry example_array; array_entry example_one_const;
             array_entry example_const_array; result_entry] [0; 1; 2] 3
            _ _ eq_refl _ _ _).
  - exists result_entry, DataTypeInt64. repeat split.
  - repeat constructor.
  - exists result_entry, DataTypeInt64. repeat split.
  - repeat constructor.
  - exists result_entry, DataTypeInt64. repeat split.
Defined.

Example arrayConcat_empty_argument_neutral_witness :
  exists R,
    ArrayConcat.executeImpl no_cast [0; 1] 2 3
      [array_entry example_array; array_entry example_empty_const; result_entry]
    = (Ok tt,
       with_result
         [array_entry example_array; array_entry example_empty_const;
          result_entry] 2 R)
    /\ ArrayConcat.executeImpl no_cast [0] 1 3
         [array_entry example_array; result_entry]
       = (Ok tt, with_result [array_entry example_array; result_entry] 1 R).
Proof.
  refine (arrayConcat_empty_argument_neutral no_cast 3
            [array_entry example_array; array_entry example_empty_const;
             result_entry] [0; 1] 2
            [array_entry example_array; result_entry] [0] 1
            [example_array] example_empty_const [] _ _ _ _).
  - exists result_entry, DataTypeInt64. repeat split.
  - exists result_entry, DataTypeInt64. repeat split.
  - repeat constructor.
  - intros r _. reflexivity.
Defined.

Example arrayPopBack_of_arrayConcat_witness :
  ArrayPop.executeImpl false "arrayPopBack" [0] 1 3
    [array_entry example_pushed_back; result_entry]
  = (Ok tt,
     with_result [array_entry example_pushed_back; result_entry] 1
                 example_array).
Proof.
  refine (arrayPopBack_of_arrayConcat no_cast 3
            [array_entry example_array; array_entry example_one_const;
             result_entry] [0; 1] 2
            [Int64F 1; Int64F 2; Int64F 3; Int64F 4] [3; 3; 4] (Int64F 9) 3
            [Int64F 1; Int64F 2; Int64F 3; Int64F 9; Int64F 9; Int64F 4;
             Int64F 9] [4; 5; 7]
            "arrayPopBack" 3
            [array_entry example_pushed_back; result_entry] [0] 1
            _ eq_refl eq_refl eq_refl _).
  - exists result_entry, DataTypeInt64. repeat split.
  - exists result_entry, DataTypeInt64. repeat split.
Defined.

Example arrayPopFront_of_arrayConcat_witness :
  ArrayPop.executeImpl true "arrayPopFront" [0] 1 3
    [array_entry example_pushed_front; result_entry]
  = (Ok tt,
     with_result [array_entry example_pushed_front; result_entry] 1
                 example_array).
Proof.
  refine (arrayPopFront_of_arrayConcat no_cast 3
            [array_entry example_one_const; array_entry example_array;
             result_entry] [0; 1] 2
            [Int64F 1; Int64F 2; Int64F 3; Int64F 4] [3; 3; 4] (Int64F 9) 3
            [Int64F 9; Int64F 1; Int64F 2; Int64F 3; Int64F 9; Int64F 9;
             Int64F 4] [4; 5; 7]
            "arrayPopFront" 3
            [array_entry example_pushed_front; result_entry] [0] 1
            _ eq_refl eq_refl eq_refl _).
  - exists result_entry, DataTypeInt64. repeat split.
  - exists result_entry, DataTypeInt64. repeat split.
Defined.

Example arrayPop_front_back_commute_witness :
  exists R,
    ArrayPop.executeImpl false "arrayPopBack" [0] 1 3
      [array_entry example_popped_front; result_entry]
    = (Ok tt,
       with_result [array_entry example_popped_front; result_entry] 1 R)
    /\ ArrayPop.executeImpl true "arrayPopFront" [0] 1 3
         [array_entry example_popped_back; result_entry]
       = (Ok tt,
          with_result [array_entry example_popped_back; result_entry] 1 R).
Proof.
  refine (arrayPop_front_back_commute
            [Int64F 1; Int64F 2; Int64F 3; Int64F 4] [3; 3; 4]
            "arrayPopFront" "arrayPopBack" "arrayPopBack" "arrayPopFront"
            3 3 3 3
            [array_entry example_array; result_entry] [0] 1
            [Int64F 2; Int64F 3] [2; 2; 2]
            [array_entry example_popped_front; result_entry] [0] 1
            [array_entry example_array; result_entry] [0] 1
            [Int64F 1; Int64F 2] [2; 2; 2]
            [array_entry example_popped_back; result_entry] [0] 1
            eq_refl _ eq_refl _ _ eq_refl _);
    exists result_entry, DataTypeInt64; repeat split.
Defined.

End ArrayExtra.
